(** * PassAudit: breach index, entropy model, feedback assembly and
      secure generation

    A shallow embedding of the Python sources

      - [utils/crypto.py]             (digest, entropy, score helper)
      - [utils/dictionary_loader.py]  (index construction)
      - [core/checker.py]             (breach lookup)
      - [core/analyzer.py]            (analysis result and feedback)
      - [core/generator.py]           (passphrase / mixed / alphanumeric / pin)
      - [utils/display.py]            (table of generated passwords, batch summary)
      - [utils/report_generator.py]   (score distribution of a batch)
      - [main.py]                     (the batch command: reading and analysis loop)

    Conventions of the embedding.

      - A Python [int] is a [Z]; a Python [str] is the list of its Unicode
        code points ([pystr]); [bytes] is a list of numbers in [0, 256).
      - A Python [float] that holds the entropy of a candidate, a
        percentage or an average is modelled by the real number it
        approximates: [math.log2] is the real base-2 logarithm, [*]
        and [/] are exact.  Comparisons against the integer thresholds
        of the sources are comparisons of reals.
      - The floats that fix the number of words of a passphrase are
        followed in binary64, where a rounding decides the result; the
        C library's [log2] is a parameter there, the class [Libm].
      - What rich makes of a text with brackets is a parameter, the
        class [Rich].
      - A call that may raise returns a [result]; [Raise e] is the
        exception escaping the call.
      - The character tables of the Unicode database (what [str.islower]
        and friends answer beyond ASCII) are a parameter, the class
        [UnicodeData]; the ASCII range is written out. *)

From Stdlib Require Import ZArith List String Ascii Bool Lia Reals Lra DecimalString.
From Stdlib Require Import SpecFloat.
From stdpp Require Import gmap sorting.
Import ListNotations.
Local Open Scope Z_scope.

(** ** Exceptions and fallible calls *)

Inductive exn : Type :=
| ValueError (msg : string)
| ZeroDivisionError
| IndexError
| UnicodeEncodeError
| UnicodeDecodeError
| OSError
| OverflowError (msg : string)
| MarkupError (msg : string).

Inductive result (A : Type) : Type :=
| Ok (a : A)
| Raise (e : exn).
Arguments Ok {A} a.
Arguments Raise {A} e.

Definition result_bind {A B : Type} (c : result A) (k : A -> result B) : result B :=
  match c with
  | Ok a => k a
  | Raise e => Raise e
  end.

Notation "'let*' x ':=' c 'in' k" := (result_bind c (fun x => k))
  (at level 10, x name, c at level 100, k at level 200).

Definition raises {A : Type} (c : result A) : Prop :=
  exists e, c = Raise e.

(** ** Python strings *)

Definition pychar := Z.
Definition pystr := list pychar.

(** [py "abc"] is the Python literal ['abc'] (ASCII literals only). *)
Definition py (s : string) : pystr :=
  map (fun a => Z.of_N (N_of_ascii a)) (list_ascii_of_string s).
Arguments py s%_string.

(** [len(s)] as a Python int. *)
Definition len {A : Type} (l : list A) : Z := Z.of_nat (length l).

(** [any(p(c) for c in s)] *)
Definition any {A : Type} (p : A -> bool) (l : list A) : bool := existsb p l.

(** [x in seq] for a character and a string of candidates. *)
Definition char_in (c : pychar) (s : pystr) : bool := existsb (Z.eqb c) s.

Definition between (lo hi c : Z) : bool := (lo <=? c) && (c <=? hi).

(** [string] module constants. *)
Definition ascii_lowercase : pystr := py "abcdefghijklmnopqrstuvwxyz".
Definition ascii_uppercase : pystr := py "ABCDEFGHIJKLMNOPQRSTUVWXYZ".
Definition ascii_letters : pystr := ascii_lowercase ++ ascii_uppercase.
Definition digits : pystr := py "0123456789".
Definition punctuation : pystr :=
  py "!" ++ [34] ++ py "#$%&'()*+,-./:;<=>?@[\]^_`{|}~".

(** The Unicode character database beyond ASCII.  Each field is only ever
    consulted at code points above 127. *)
Class UnicodeData : Type := {
  ucd_islower : pychar -> bool;
  ucd_isupper : pychar -> bool;
  ucd_isdigit : pychar -> bool;
  ucd_isspace : pychar -> bool;
  ucd_isalnum : pychar -> bool;
  ucd_capitalize : pystr -> pystr
}.

Section Characters.
Context {U : UnicodeData}.

Definition is_ascii (c : pychar) : bool := c <? 128.

(** [c.islower()], [c.isupper()], [c.isdigit()], [c.isspace()],
    [c.isalnum()] for a one-character string [c]. *)
Definition islower (c : pychar) : bool :=
  if is_ascii c then between 97 122 c else ucd_islower c.
Definition isupper (c : pychar) : bool :=
  if is_ascii c then between 65 90 c else ucd_isupper c.
Definition isdigit (c : pychar) : bool :=
  if is_ascii c then between 48 57 c else ucd_isdigit c.
Definition isspace (c : pychar) : bool :=
  if is_ascii c then between 9 13 c || between 28 32 c else ucd_isspace c.
Definition isalnum (c : pychar) : bool :=
  if is_ascii c
  then between 48 57 c || between 65 90 c || between 97 122 c
  else ucd_isalnum c.
End Characters.

(** ** [utils/crypto.py]: the entropy model *)

(** [math.log2(x)] for an int [x]; a [ValueError] outside the domain. *)
Definition log2R (x : R) : R := (ln x / ln 2)%R.

Definition math_log2 (x : Z) : result R :=
  if 0 <? x then Ok (log2R (IZR x)) else Raise (ValueError "math domain error").

Section Entropy.
Context {U : UnicodeData}.

(** The value of the local [charset_size] once the six [if]s of
    [calculate_entropy] have run. *)
Definition entropy_charset_size (password : pystr) : Z :=
  let charset_size := 0 in
  let has_lower := any islower password in
  let has_upper := any isupper password in
  let has_digit := any isdigit password in
  let has_special := any (fun c => char_in c punctuation) password in
  let has_space := any isspace password in
  let has_extended := any (fun c => 127 <? c) password in
  let charset_size := if has_lower then charset_size + 26 else charset_size in
  let charset_size := if has_upper then charset_size + 26 else charset_size in
  let charset_size := if has_digit then charset_size + 10 else charset_size in
  let charset_size :=
    if has_special then charset_size + len punctuation else charset_size in
  let charset_size := if has_space then charset_size + 1 else charset_size in
  let charset_size := if has_extended then charset_size + 100 else charset_size in
  charset_size.

Definition calculate_entropy (password : pystr) : result R :=
  match password with
  | [] => Ok 0%R
  | _ :: _ =>
      let charset_size := entropy_charset_size password in
      if charset_size =? 0 then Ok 0%R
      else
        let* l := math_log2 charset_size in
        Ok (IZR (len password) * l)%R
  end.

(** [calculate_password_strength_score(entropy, is_common)] *)
Definition calculate_password_strength_score (entropy : R) (is_common : bool) : Z :=
  if is_common then 0
  else if Rlt_dec entropy 28 then 0
  else if Rlt_dec entropy 36 then 1
  else if Rlt_dec entropy 60 then 2
  else if Rlt_dec entropy 128 then 3
  else 4.

(** The character classes of the entropy model as the specification
    names them, with the predicate the source tests for each and its
    fixed contribution. *)
Inductive char_class : Type :=
| Lower | Upper | Digit | Punct | Space | Extended.

Definition all_classes : list char_class :=
  [Lower; Upper; Digit; Punct; Space; Extended].

Definition in_class (k : char_class) (c : pychar) : bool :=
  match k with
  | Lower => islower c
  | Upper => isupper c
  | Digit => isdigit c
  | Punct => char_in c punctuation
  | Space => isspace c
  | Extended => 127 <? c
  end.

Definition class_present (k : char_class) (s : pystr) : bool :=
  any (in_class k) s.

Definition contribution (k : char_class) : Z :=
  match k with
  | Lower => 26
  | Upper => 26
  | Digit => 10
  | Punct => len punctuation
  | Space => 1
  | Extended => 100
  end.

(** The charset size in the specification's words: the sum of the
    contributions of the classes present. *)
Definition spec_charset_size (s : pystr) : Z :=
  fold_right Z.add 0
    (map contribution (List.filter (fun k => class_present k s) all_classes)).
End Entropy.

(** ** [hashlib.sha256]: SHA-256 (FIPS 180-4) over byte lists

    The round constants are not tabulated: as the standard defines them,
    they are the leading 32 fractional bits of the square roots (initial
    state) and cube roots (round constants) of the first primes. *)

Module SHA256.

Definition w32 (x : Z) : Z := x mod 2 ^ 32.

Definition rotr (n x : Z) : Z :=
  Z.lor (Z.shiftr x n) (w32 (Z.shiftl x (32 - n))).

Definition Ch (x y z : Z) : Z :=
  Z.lxor (Z.land x y) (Z.land (Z.lxor x (2 ^ 32 - 1)) z).

Definition Maj (x y z : Z) : Z :=
  Z.lxor (Z.lxor (Z.land x y) (Z.land x z)) (Z.land y z).

Definition Sigma0 (x : Z) : Z := Z.lxor (Z.lxor (rotr 2 x) (rotr 13 x)) (rotr 22 x).
Definition Sigma1 (x : Z) : Z := Z.lxor (Z.lxor (rotr 6 x) (rotr 11 x)) (rotr 25 x).
Definition sigma0 (x : Z) : Z := Z.lxor (Z.lxor (rotr 7 x) (rotr 18 x)) (Z.shiftr x 3).
Definition sigma1 (x : Z) : Z := Z.lxor (Z.lxor (rotr 17 x) (rotr 19 x)) (Z.shiftr x 10).

Definition is_prime (n : Z) : bool :=
  (1 <? n) &&
  forallb (fun d => negb (n mod Z.of_nat d =? 0)) (seq 2 (Z.to_nat n - 2)).

Definition first_primes (k : nat) : list Z :=
  firstn k (List.filter is_prime (map Z.of_nat (seq 2 400))).

(** Integer cube root, one result bit per step. *)
Fixpoint icbrt_bits (bits : nat) (n r : Z) : Z :=
  match bits with
  | O => r
  | S b =>
      let r' := r + 2 ^ Z.of_nat b in
      icbrt_bits b n (if r' * r' * r' <=? n then r' else r)
  end.

Definition icbrt (n : Z) : Z := icbrt_bits 40 n 0.

Definition H0 : list Z :=
  Eval vm_compute in map (fun p => w32 (Z.sqrt (p * 2 ^ 64))) (first_primes 8).

Definition K : list Z :=
  Eval vm_compute in map (fun p => w32 (icbrt (p * 2 ^ 96))) (first_primes 64).

(** Big-endian packing. *)
Definition be_bytes (n : nat) (x : Z) : list Z :=
  map (fun i => Z.shiftr x (8 * Z.of_nat i) mod 256) (rev (seq 0 n)).

Definition be_word (bs : list Z) : Z :=
  fold_left (fun acc b => acc * 256 + b) bs 0.

Definition pad (msg : list Z) : list Z :=
  msg ++ [128]
      ++ repeat 0 (Z.to_nat ((55 - len msg) mod 64))
      ++ be_bytes 8 (8 * len msg).

Fixpoint chunks {A : Type} (count size : nat) (l : list A) : list (list A) :=
  match count with
  | O => []
  | S c => firstn size l :: chunks c size (skipn size l)
  end.

(** Message schedule, newest word first while it is built. *)
Fixpoint extend_schedule (n : nat) (rev_w : list Z) : list Z :=
  match n with
  | O => rev_w
  | S n' =>
      let x := w32 (sigma1 (nth 1 rev_w 0) + nth 6 rev_w 0
                    + sigma0 (nth 14 rev_w 0) + nth 15 rev_w 0) in
      extend_schedule n' (x :: rev_w)
  end.

Definition schedule (block : list Z) : list Z :=
  rev (extend_schedule 48 (rev (map be_word (chunks 16 4 block)))).

Record regs : Type := Regs { ra : Z; rb : Z; rc : Z; rd : Z; re : Z; rf : Z; rg : Z; rh : Z }.

Definition round (s : regs) (kw : Z * Z) : regs :=
  let t1 := w32 (rh s + Sigma1 (re s) + Ch (re s) (rf s) (rg s) + fst kw + snd kw) in
  let t2 := w32 (Sigma0 (ra s) + Maj (ra s) (rb s) (rc s)) in
  Regs (w32 (t1 + t2)) (ra s) (rb s) (rc s) (w32 (rd s + t1)) (re s) (rf s) (rg s).

Definition regs_of_list (l : list Z) : regs :=
  Regs (nth 0 l 0) (nth 1 l 0) (nth 2 l 0) (nth 3 l 0)
       (nth 4 l 0) (nth 5 l 0) (nth 6 l 0) (nth 7 l 0).

Definition list_of_regs (s : regs) : list Z :=
  [ra s; rb s; rc s; rd s; re s; rf s; rg s; rh s].

Definition compress (h : list Z) (block : list Z) : list Z :=
  let s := fold_left round (combine K (schedule block)) (regs_of_list h) in
  map (fun p => w32 (fst p + snd p)) (combine h (list_of_regs s)).

Definition digest (msg : list Z) : list Z :=
  let padded := pad msg in
  let blocks := chunks (length padded / 64) 64 padded in
  concat (map (be_bytes 4) (fold_left compress blocks H0)).

Definition hex_digit (n : Z) : pychar :=
  if n <? 10 then 48 + n else 87 + n.

(** [hashlib.sha256(msg).hexdigest()] *)
Definition hexdigest (msg : list Z) : pystr :=
  flat_map (fun b => [hex_digit (b / 16); hex_digit (b mod 16)]) (digest msg).

End SHA256.

(** ** The UTF-8 codec ([str.encode], and the decoder behind [open]) *)

Module UTF8.

Inductive error_handler : Type := Strict | Ignore.

Definition is_cont (b : Z) : bool := between 128 191 b.

(** One pass over the bytes.  [Some c] is a decoded code point; [None]
    marks a rejected range: the lead byte and the continuation bytes
    accepted so far, or everything that is left when the input ends
    inside a sequence.  Decoding resumes right after the range. *)
Fixpoint scan (bs : list Z) : list (option pychar) :=
  match bs with
  | [] => []
  | b0 :: r1 =>
      if b0 <? 128 then Some b0 :: scan r1
      else if b0 <? 194 then None :: scan r1
      else if b0 <? 224 then
        match r1 with
        | [] => [None]
        | b1 :: r2 =>
            if is_cont b1 then Some ((b0 - 192) * 64 + (b1 - 128)) :: scan r2
            else None :: scan r1
        end
      else if b0 <? 240 then
        match r1 with
        | [] => [None]
        | b1 :: r2 =>
            if negb (is_cont b1) || (if b1 <? 160 then b0 =? 224 else b0 =? 237)
            then None :: scan r1
            else
              match r2 with
              | [] => [None]
              | b2 :: r3 =>
                  if is_cont b2
                  then Some ((b0 - 224) * 4096 + (b1 - 128) * 64 + (b2 - 128)) :: scan r3
                  else None :: scan r2
              end
        end
      else if b0 <? 245 then
        match r1 with
        | [] => [None]
        | b1 :: r2 =>
            if negb (is_cont b1) || (if b1 <? 144 then b0 =? 240 else b0 =? 244)
            then None :: scan r1
            else
              match r2 with
              | [] => [None]
              | b2 :: r3 =>
                  if is_cont b2 then
                    match r3 with
                    | [] => [None]
                    | b3 :: r4 =>
                        if is_cont b3
                        then Some ((b0 - 240) * 262144 + (b1 - 128) * 4096
                                   + (b2 - 128) * 64 + (b3 - 128)) :: scan r4
                        else None :: scan r3
                    end
                  else None :: scan r2
              end
        end
      else None :: scan r1
  end.

Definition decoded (items : list (option pychar)) : pystr :=
  flat_map (fun o => match o with Some c => [c] | None => [] end) items.

Definition well_formed (bs : list Z) : bool :=
  forallb (fun o => match o with Some _ => true | None => false end) (scan bs).

(** [bs.decode('utf-8', errors)]: [Strict] raises at the first rejected
    range, [Ignore] drops the rejected ranges and never raises. *)
Definition decode (errors : error_handler) (bs : list Z) : result pystr :=
  match errors with
  | Ignore => Ok (decoded (scan bs))
  | Strict => if well_formed bs then Ok (decoded (scan bs)) else Raise UnicodeDecodeError
  end.

Definition is_surrogate (c : pychar) : bool := between 55296 57343 c.

Definition encode_char (c : pychar) : result (list Z) :=
  if c <? 128 then Ok [c]
  else if c <? 2048 then Ok [192 + c / 64; 128 + c mod 64]
  else if c <? 65536 then
    if is_surrogate c then Raise UnicodeEncodeError
    else Ok [224 + c / 4096; 128 + (c / 64) mod 64; 128 + c mod 64]
  else Ok [240 + c / 262144; 128 + (c / 4096) mod 64;
           128 + (c / 64) mod 64; 128 + c mod 64].

(** [s.encode('utf-8')] *)
Fixpoint encode (s : pystr) : result (list Z) :=
  match s with
  | [] => Ok []
  | c :: r =>
      let* b := encode_char c in
      let* bs := encode r in
      Ok (b ++ bs)
  end.

End UTF8.

(** A string [str.encode] accepts: no lone surrogate. *)
Definition encodable (s : pystr) : Prop :=
  Forall (fun c => UTF8.is_surrogate c = false) s.

(** [hash_password(password)] *)
Definition hash_password (password : pystr) : result pystr :=
  let* encoded := UTF8.encode password in
  Ok (SHA256.hexdigest encoded).

(** ** Text files and [utils/dictionary_loader.py] *)

(** Universal newlines: ['\r\n'] and ['\r'] are read as ['\n']. *)
Fixpoint translate_newlines (s : pystr) : pystr :=
  match s with
  | [] => []
  | c :: r =>
      if c =? 13 then
        10 :: match r with
              | [] => []
              | c' :: r' => if c' =? 10 then translate_newlines r' else translate_newlines r
              end
      else c :: translate_newlines r
  end.

(** [for line in f]: the lines of a text, each with its ['\n'] (the last
    one possibly without). *)
Fixpoint lines_from (cur_rev : pystr) (s : pystr) : list pystr :=
  match s with
  | [] => match cur_rev with [] => [] | _ :: _ => [rev cur_rev] end
  | c :: r =>
      if c =? 10 then rev (c :: cur_rev) :: lines_from [] r
      else lines_from (c :: cur_rev) r
  end.

Definition text_lines (text : pystr) : list pystr :=
  lines_from [] (translate_newlines text).

(** [s.startswith('#')] *)
Definition startswith_hash (s : pystr) : bool :=
  match s with
  | c :: _ => c =? 35
  | [] => false
  end.

(** Truthiness of a string or list: [if s:] *)
Definition truthy {A : Type} (l : list A) : bool :=
  match l with [] => false | _ :: _ => true end.

(** What a path names. [Unopenable] exists but [open] raises (a
    directory, a permission). *)
Inductive file : Type :=
| Missing
| Unopenable
| Contents (bytes : list Z).

Definition filesystem := pystr -> file.

(** What the loader prints, one event per [print].  [Loaded] prints the
    file name of the path; the event keeps the path. *)
Inductive event : Type :=
| WarnNotFound (file_path : pystr)
| Loaded (lines_processed : Z) (file_path : pystr)
| WarnEncoding (file_path : pystr)
| ErrorLoading (file_path : pystr).

Section Loader.
Context {U : UnicodeData}.

Fixpoint lstrip (s : pystr) : pystr :=
  match s with
  | [] => []
  | c :: r => if isspace c then lstrip r else s
  end.

Definition rstrip (s : pystr) : pystr := rev (lstrip (rev s)).

(** [s.strip()] *)
Definition strip (s : pystr) : pystr := rstrip (lstrip s).

(** The [for line in f] loop.  The set is updated in place, so what was
    added before an exception stays added. *)
Fixpoint load_lines (lines : list pystr) (password_hashes : gset pystr)
    (lines_processed : Z) : gset pystr * result Z :=
  match lines with
  | [] => (password_hashes, Ok lines_processed)
  | line :: rest =>
      let pwd := strip line in
      if truthy pwd && negb (startswith_hash pwd) then
        match hash_password pwd with
        | Ok hashed => load_lines rest ({[hashed]} ∪ password_hashes) (lines_processed + 1)
        | Raise e => (password_hashes, Raise e)
        end
      else load_lines rest password_hashes lines_processed
  end.

(** The body of the [try]: open with [errors='ignore'], then the loop. *)
Definition load_file (f : file) (password_hashes : gset pystr) : gset pystr * result Z :=
  match f with
  | Missing | Unopenable => (password_hashes, Raise OSError)
  | Contents bytes =>
      match UTF8.decode UTF8.Ignore bytes with
      | Ok text => load_lines (text_lines text) password_hashes 0
      | Raise e => (password_hashes, Raise e)
      end
  end.

(** One iteration of [for file_path in file_paths]. *)
Definition load_source (fs : filesystem) (st : gset pystr * list event)
    (file_path : pystr) : gset pystr * list event :=
  let '(password_hashes, out) := st in
  match fs file_path with
  | Missing => (password_hashes, out ++ [WarnNotFound file_path])
  | f =>
      match load_file f password_hashes with
      | (password_hashes', Ok lines_processed) =>
          (password_hashes', out ++ [Loaded lines_processed file_path])
      | (password_hashes', Raise UnicodeDecodeError) =>
          (password_hashes', out ++ [WarnEncoding file_path])
      | (password_hashes', Raise _) =>
          (password_hashes', out ++ [ErrorLoading file_path])
      end
  end.

(** [load_password_dictionaries(file_paths)]: the set returned and what
    was printed. *)
Definition load_password_dictionaries (fs : filesystem) (file_paths : list pystr)
    : gset pystr * list event :=
  fold_left (load_source fs) file_paths (∅, []).

End Loader.

(** ** [core/checker.py] *)

Record PasswordChecker : Type := {
  common_password_hashes : gset pystr;
  _check_count : Z
}.

Definition PasswordChecker_init (common_password_hashes : gset pystr) : PasswordChecker :=
  {| common_password_hashes := common_password_hashes; _check_count := 0 |}.

Definition is_common_password (self : PasswordChecker) (password : pystr)
    : PasswordChecker * result bool :=
  let self := {| common_password_hashes := common_password_hashes self;
                 _check_count := _check_count self + 1 |} in
  (self,
   let* pwd_hash := hash_password password in
   Ok (bool_decide (pwd_hash ∈ common_password_hashes self))).

(** ** [core/analyzer.py] *)

(** Values found in the oracle's dictionaries. *)
Inductive pyval : Type :=
| VStr (s : pystr)
| VInt (n : Z).

(** What [zxcvbn(password)] returns, as far as the analyzer reads it.
    The keys read with [.get] may be absent. *)
Record zxcvbn_feedback : Type := {
  warning : pystr;
  suggestions : list pystr
}.

Record zxcvbn_result : Type := {
  zx_score : Z;
  zx_feedback : zxcvbn_feedback;
  zx_crack_times_display : option (list (pystr * pystr));
  zx_sequence : option (list (gmap pystr pyval))
}.

(** The dictionary returned by [analyze]. *)
Record analysis : Type := {
  password_length : Z;
  score : Z;
  is_common : bool;
  hash : pystr;
  feedback : list pystr;
  entropy : R;
  crack_times : list (pystr * pystr);
  sequence_info : list (gmap pystr pyval);
  pattern_matches : list (gmap pystr pyval)
}.

Record PasswordAnalyzer : Type := { _analysis_count : Z }.

Definition PasswordAnalyzer_init : PasswordAnalyzer := {| _analysis_count := 0 |}.

(** [sep.join(parts)] *)
Fixpoint join (sep : pystr) (parts : list pystr) : pystr :=
  match parts with
  | [] => []
  | [x] => x
  | x :: rest => x ++ sep ++ join sep rest
  end.

(** [d.get(key)] compared with a string, and [d.get(key, default)]. *)
Definition get_is (d : gmap pystr pyval) (key : pystr) (s : pystr) : bool :=
  match d !! key with
  | Some (VStr v) => bool_decide (v = s)
  | _ => false
  end.

Definition get_default (d : gmap pystr pyval) (key : pystr) (default : pyval) : pyval :=
  match d !! key with
  | Some v => v
  | None => default
  end.

Definition msg_breach : pystr :=
  [9888; 65039] ++ py "  This password has been exposed in data breaches".
Definition msg_length_12 : pystr :=
  py "Use at least 12 characters for better security".
Definition msg_length_16 : pystr :=
  py "Consider using 16+ characters for optimal security".
Definition msg_low_entropy : pystr :=
  py "Password has low entropy - add more character variety".

Section Analyzer.
Context {U : UnicodeData}.

(** The strength oracle, on the candidates it accepts: what it returns.
    The call that may raise is [analyze_raising]. *)
Variable zxcvbn : pystr -> zxcvbn_result.

Definition _generate_feedback (password : pystr) (zxcvbn_result : zxcvbn_result)
    (is_common : bool) (entropy : R) : list pystr :=
  let feedback := [] in
  let feedback := if is_common then feedback ++ [msg_breach] else feedback in
  let feedback :=
    if truthy (warning (zx_feedback zxcvbn_result))
    then feedback ++ [warning (zx_feedback zxcvbn_result)]
    else feedback in
  let feedback := feedback ++ suggestions (zx_feedback zxcvbn_result) in
  let feedback :=
    if len password <? 12 then feedback ++ [msg_length_12]
    else if len password <? 16 then feedback ++ [msg_length_16]
    else feedback in
  let feedback :=
    if Rlt_dec entropy 40 then feedback ++ [msg_low_entropy] else feedback in
  let has_lower := any islower password in
  let has_upper := any isupper password in
  let has_digit := any isdigit password in
  let has_special := any (fun c => negb (isalnum c)) password in
  let missing_types := [] in
  let missing_types :=
    if negb has_lower then missing_types ++ [py "lowercase letters"] else missing_types in
  let missing_types :=
    if negb has_upper then missing_types ++ [py "uppercase letters"] else missing_types in
  let missing_types :=
    if negb has_digit then missing_types ++ [py "numbers"] else missing_types in
  let missing_types :=
    if negb has_special then missing_types ++ [py "special characters"] else missing_types in
  let feedback :=
    if 0 <? len missing_types
    then feedback ++ [py "Add " ++ join (py ", ") missing_types ++ py " for better security"]
    else feedback in
  feedback.

Definition _extract_pattern_info (zxcvbn_result : zxcvbn_result) : list (gmap pystr pyval) :=
  match zx_sequence zxcvbn_result with
  | None => []
  | Some sequence =>
      map (fun m : gmap pystr pyval =>
             let pattern_info : gmap pystr pyval :=
               <[py "token" := get_default m (py "token") (VStr [])]>
                 ({[py "pattern" := get_default m (py "pattern") (VStr (py "unknown"))]}) in
             if get_is m (py "pattern") (py "dictionary")
             then <[py "dictionary_name" :=
                      get_default m (py "dictionary_name") (VStr [])]> pattern_info
             else if get_is m (py "pattern") (py "date")
             then <[py "year" := get_default m (py "year") (VStr [])]> pattern_info
             else pattern_info)
          sequence
  end.

(** [analyze(password, checker)]: both counters move even when the call
    raises. *)
Definition analyze (self : PasswordAnalyzer) (password : pystr) (checker : PasswordChecker)
    : PasswordAnalyzer * PasswordChecker * result analysis :=
  let self := {| _analysis_count := _analysis_count self + 1 |} in
  let zxcvbn_result := zxcvbn password in
  let '(checker, r_common) := is_common_password checker password in
  (self, checker,
   let* is_common := r_common in
   let* pwd_hash := hash_password password in
   let* entropy := calculate_entropy password in
   let feedback := _generate_feedback password zxcvbn_result is_common entropy in
   Ok {| password_length := len password;
         score := zx_score zxcvbn_result;
         is_common := is_common;
         hash := pwd_hash;
         feedback := feedback;
         entropy := entropy;
         crack_times := default [] (zx_crack_times_display zxcvbn_result);
         sequence_info := default [] (zx_sequence zxcvbn_result);
         pattern_matches := _extract_pattern_info zxcvbn_result |}).

End Analyzer.

(** ** [core/generator.py] *)

(** Python's [float] is IEEE 754 binary64: 53 bits of mantissa, the
    infinities at exponent 1024.  The arithmetic that fixes the number
    of words of a passphrase is followed bit by bit, with the
    operations of the standard library's specification of binary
    floating point. *)
Definition float : Type := spec_float.

(** [float(n)] for an int: the nearest float, ties to even; an int that
    would round to infinity raises. *)
Definition float_of_int (n : Z) : result float :=
  match binary_normalize 53 1024 n 0 false with
  | S754_infinity _ => Raise (OverflowError "int too large to convert to float")
  | x => Ok x
  end.

(** [a / b], an int by a float: [a] is converted first, then a zero
    divisor (of either sign) raises, then the quotient is rounded to the
    nearest float. *)
Definition truediv (a : Z) (b : float) : result float :=
  let* x := float_of_int a in
  match b with
  | S754_zero _ => Raise ZeroDivisionError
  | _ => Ok (SFdiv 53 1024 x b)
  end.

(** [math.ceil(x)] for a float: an int, exact. *)
Definition math_ceil (x : float) : result Z :=
  match x with
  | S754_nan => Raise (ValueError "cannot convert float NaN to integer")
  | S754_infinity _ => Raise (OverflowError "cannot convert float infinity to integer")
  | S754_zero _ => Ok 0
  | S754_finite s m e =>
      let n := if s then Z.neg m else Z.pos m in
      Ok (if 0 <=? e then n * 2 ^ e else - (- n / 2 ^ (- e)))
  end.

(** [math.log2] hands a positive float to the C library's [log2], whose
    results no standard fixes to the last bit. *)
Class Libm : Type := { libm_log2 : float -> float }.

(** [math.log2(n)] for [n = len(...)], an int below [2 ^ 63]: zero
    raises, any other length is converted to the nearest float (no
    overflow at that size) and handed to [log2]. *)
Definition math_log2_of_len {L : Libm} (n : Z) : result float :=
  if n <=? 0 then Raise (ValueError "math domain error")
  else Ok (libm_log2 (binary_normalize 53 1024 n 0 false)).

(** The ceiling of a real number. *)
Definition ceilR (x : R) : Z := - Int_part (- x).

(** The word count as the specification writes it, over the real
    numbers: [max(3, ceil(entropy / log2(size)))]. *)
Definition spec_word_count (size entropy : Z) : Z :=
  Z.max 3 (ceilR (IZR entropy / log2R (IZR size))).

(** [str(n)] for an int *)
Definition str_of_int (n : Z) : pystr :=
  py (NilZero.string_of_int (Z.to_int n)).

(** The random source.  [secrets.SystemRandom] is read as the stream of
    its successive raw draws; a computation consumes a prefix of the
    stream and may raise. *)
Definition rng_stream := nat -> nat.

Definition Gen (A : Type) : Type := rng_stream -> rng_stream * result A.

Definition gen_ret {A : Type} (a : A) : Gen A := fun s => (s, Ok a).

Definition gen_raise {A : Type} (e : exn) : Gen A := fun s => (s, Raise e).

Definition gen_lift {A : Type} (r : result A) : Gen A := fun s => (s, r).

Definition gen_bind {A B : Type} (c : Gen A) (k : A -> Gen B) : Gen B :=
  fun s =>
    match c s with
    | (s', Ok a) => k a s'
    | (s', Raise e) => (s', Raise e)
    end.

Notation "'do' x '<-' c ';' k" := (gen_bind c (fun x => k))
  (at level 10, x name, c at level 100, k at level 200).

(** The stream once its first draw is consumed. *)
Definition rest_of (s : rng_stream) : rng_stream := fun i => s (S i).

(** [rng._randbelow(n)], [n > 0]: the next draw, reduced to [0, n). *)
Definition randbelow (n : Z) : Gen Z :=
  fun s => (rest_of s, Ok (Z.of_nat (s O) mod n)).

(** [rng.choice(seq)] *)
Definition choice {A : Type} (seq : list A) : Gen A :=
  match seq with
  | [] => gen_raise IndexError
  | _ :: _ =>
      do i <- randbelow (len seq);
      match seq !! Z.to_nat i with
      | Some x => gen_ret x
      | None => gen_raise IndexError
      end
  end.

(** [rng.randint(a, b)] *)
Definition randint (a b : Z) : Gen Z :=
  if b - a + 1 <=? 0 then gen_raise (ValueError "empty range for randrange()")
  else
    do r <- randbelow (b - a + 1);
    gen_ret (a + r).

(** [x[i], x[j] = x[j], x[i]] *)
Definition swap {A : Type} (x : list A) (i j : nat) : result (list A) :=
  match x !! j, x !! i with
  | Some xj, Some xi => Ok (<[j := xi]> (<[i := xj]> x))
  | _, _ => Raise IndexError
  end.

(** [for i in reversed(range(1, k + 1)): j = randbelow(i + 1); swap] *)
Fixpoint shuffle_loop {A : Type} (k : nat) (x : list A) : Gen (list A) :=
  match k with
  | O => gen_ret x
  | S k' =>
      do j <- randbelow (Z.of_nat k + 1);
      do x' <- gen_lift (swap x k (Z.to_nat j));
      shuffle_loop k' x'
  end.

(** [rng.shuffle(x)] *)
Definition shuffle {A : Type} (x : list A) : Gen (list A) :=
  shuffle_loop (length x - 1) x.

(** [[c for _ in range(n)]] for an effectful [c] *)
Fixpoint replicate_gen {A : Type} (n : nat) (c : Gen A) : Gen (list A) :=
  match n with
  | O => gen_ret []
  | S n' =>
      do x <- c;
      do xs <- replicate_gen n' c;
      gen_ret (x :: xs)
  end.

(** [range(n)] runs [max(n, 0)] times. *)
Definition range_count (n : Z) : nat := Z.to_nat n.

Section Generator.
Context {U : UnicodeData} {L : Libm}.

Record PasswordGenerator : Type := { eff_words : list pystr }.

(** The two lines that fix the number of words:
    [bits_per_word = math.log2(len(self.eff_words))] and
    [words_needed = max(3, math.ceil(entropy / bits_per_word))]. *)
Definition words_needed (self : PasswordGenerator) (entropy : Z) : result Z :=
  let* bits_per_word := math_log2_of_len (len (eff_words self)) in
  let* q := truediv entropy bits_per_word in
  let* c := math_ceil q in
  Ok (Z.max 3 c).

(** [words = [self.rng.choice(self.eff_words) for _ in range(words_needed)]] *)
Definition draw_words (self : PasswordGenerator) (entropy : Z) : Gen (list pystr) :=
  do n <- gen_lift (words_needed self entropy);
  replicate_gen (range_count n) (choice (eff_words self)).

Definition generate_passphrase (self : PasswordGenerator) (entropy : Z)
    (separator : pystr) (capitalize : bool) (add_number : bool) : Gen pystr :=
  do words <- draw_words self entropy;
  let words := if capitalize then map ucd_capitalize words else words in
  let passphrase := join separator words in
  if add_number then
    do random_num <- randint 10 99;
    gen_ret (passphrase ++ str_of_int random_num)
  else gen_ret passphrase.

(** The [charset] of [generate_mixed]. *)
Definition mixed_charset : pystr := ascii_letters ++ digits ++ punctuation.

Definition generate_mixed (length : Z) : Gen pystr :=
  if length <? 4 then gen_raise (ValueError "Password length must be at least 4")
  else
    let charset := mixed_charset in
    do c1 <- choice ascii_lowercase;
    do c2 <- choice ascii_uppercase;
    do c3 <- choice digits;
    do c4 <- choice punctuation;
    do rest <- replicate_gen (range_count (length - 4)) (choice charset);
    do password <- shuffle ([c1; c2; c3; c4] ++ rest);
    gen_ret password.

Definition generate_alphanumeric (length : Z) : Gen pystr :=
  if length <? 2 then gen_raise (ValueError "Password length must be at least 2")
  else
    let charset := ascii_letters ++ digits in
    do c1 <- choice ascii_letters;
    do c2 <- choice digits;
    do rest <- replicate_gen (range_count (length - 2)) (choice charset);
    do password <- shuffle ([c1; c2] ++ rest);
    gen_ret password.

Definition generate_pin (length : Z) : Gen pystr :=
  do parts <- replicate_gen (range_count length)
                (do d <- randint 0 9; gen_ret (str_of_int d));
  gen_ret (concat parts).

End Generator.

(** [_get_fallback_wordlist()] *)
Definition _get_fallback_wordlist : list pystr :=
  map py
    ["abacus"; "abdomen"; "able"; "abstract"; "academy"; "acrobat";
     "active"; "actor"; "adapt"; "admiral"; "adventure"; "advice";
     "afraid"; "agency"; "agent"; "airport"; "album"; "alcohol";
     "alert"; "algebra"; "alien"; "along"; "alpha"; "already";
     "also"; "altitude"; "aluminum"; "always"; "amazed"; "amber";
     "ambition"; "amount"; "amused"; "anchor"; "ancient"; "angel";
     "anger"; "angle"; "animal"; "ankle"; "announce"; "answer"]%string.

(** ** The statements under verification, in the specification's words *)

Section Statements.
Context {U : UnicodeData}.

(** A line is kept by the loader when, trimmed, it is non-empty and not
    a comment. *)
Definition kept (line : pystr) : bool :=
  truthy (strip line) && negb (startswith_hash (strip line)).

(** An item of feedback that is present exactly under its condition. *)
Definition item_if (condition : bool) (message : pystr) : list pystr :=
  if condition then [message] else [].

Definition missing_types_of (password : pystr) : list pystr :=
  item_if (negb (any islower password)) (py "lowercase letters")
  ++ item_if (negb (any isupper password)) (py "uppercase letters")
  ++ item_if (negb (any isdigit password)) (py "numbers")
  ++ item_if (negb (any (fun c => negb (isalnum c)) password)) (py "special characters").

(** The six parts of the feedback in the order the specification lists
    them. *)
Definition feedback_in_order (password : pystr) (oracle : zxcvbn_result)
    (is_breached : bool) (entropy_bits : R) : list pystr :=
  item_if is_breached msg_breach
  ++ item_if (truthy (warning (zx_feedback oracle))) (warning (zx_feedback oracle))
  ++ suggestions (zx_feedback oracle)
  ++ (if len password <? 12 then [msg_length_12]
      else if len password <? 16 then [msg_length_16]
      else [])
  ++ item_if (if Rlt_dec entropy_bits 40 then true else false) msg_low_entropy
  ++ item_if (truthy (missing_types_of password))
       (py "Add " ++ join (py ", ") (missing_types_of password)
           ++ py " for better security").

(** "Entropy is length times log2 of the charset size", read on every
    candidate: the logarithm must exist. *)
Definition entropy_is_length_times_log2 (s : pystr) : Prop :=
  exists l : R,
    math_log2 (spec_charset_size s) = Ok l /\
    calculate_entropy s = Ok (IZR (len s) * l)%R.

Definition same_classes (s t : pystr) : Prop :=
  forall k, class_present k s = class_present k t.

(** [t] has the classes of [s] and the class [k] in addition. *)
Definition adds_class (k : char_class) (s t : pystr) : Prop :=
  class_present k s = false /\
  class_present k t = true /\
  forall k', k' <> k -> class_present k' s = class_present k' t.

Definition has_active_class (s : pystr) : Prop :=
  exists k, class_present k s = true.

Definition entropy_le (s t : pystr) : Prop :=
  exists es et : R,
    calculate_entropy s = Ok es /\ calculate_entropy t = Ok et /\ (es <= et)%R.

Definition entropy_lt (s t : pystr) : Prop :=
  exists es et : R,
    calculate_entropy s = Ok es /\ calculate_entropy t = Ok et /\ (es < et)%R.

(** "A new class at fixed length strictly increases the entropy." *)
Definition new_class_strictly_increases (k : char_class) (s t : pystr) : Prop :=
  truthy s = true -> truthy t = true -> length s = length t ->
  0 < contribution k -> adds_class k s t -> entropy_lt s t.

(** "A source with an undecodable line is reported and skipped." *)
Definition undecodable_source_skipped (fs : filesystem) (file_paths : list pystr)
    (file_path : pystr) (bytes : list Z) : Prop :=
  In file_path file_paths -> fs file_path = Contents bytes ->
  UTF8.well_formed bytes = false ->
  In (WarnEncoding file_path) (snd (load_password_dictionaries fs file_paths)) /\
  (forall n, ~ In (Loaded n file_path) (snd (load_password_dictionaries fs file_paths))) /\
  forall line, In line (text_lines (UTF8.decoded (UTF8.scan bytes))) ->
    kept line = true ->
    forall h, hash_password (strip line) = Ok h ->
      h ∉ fst (load_password_dictionaries fs file_paths).

End Statements.

(** ** Concrete inputs for the closed examples *)

(** A table that knows no character beyond ASCII; [capitalize] on ASCII
    letters. *)
Definition ascii_capitalize (s : pystr) : pystr :=
  match s with
  | [] => []
  | c :: r =>
      (if between 97 122 c then c - 32 else c)
        :: map (fun d => if between 65 90 d then d + 32 else d) r
  end.

Definition ascii_only : UnicodeData :=
  {| ucd_islower := fun _ => false;
     ucd_isupper := fun _ => false;
     ucd_isdigit := fun _ => false;
     ucd_isspace := fun _ => false;
     ucd_isalnum := fun _ => false;
     ucd_capitalize := ascii_capitalize |}.

(** A random source: the draws 3, 10, 17, ... *)
Definition sample_stream : rng_stream := fun i => (7 * i + 3)%nat.

(** One dictionary, [leaked.txt], holding the two lines
    ["Xq7#vL2$pR9!kM4z"] and ["\xffabc"]: the second starts with a byte
    that is not UTF-8. *)
Definition leaked_txt : pystr := py "leaked.txt".

Definition leaked_bytes : list Z :=
  py "Xq7#vL2$pR9!kM4z" ++ [10] ++ [255] ++ py "abc" ++ [10].

Definition sample_fs : filesystem :=
  fun path => if bool_decide (path = leaked_txt) then Contents leaked_bytes else Missing.

(** An oracle that rates every candidate 4 and has nothing to say. *)
Definition oracle_four (password : pystr) : zxcvbn_result :=
  {| zx_score := 4;
     zx_feedback := {| warning := []; suggestions := [] |};
     zx_crack_times_display := None;
     zx_sequence := None |}.

Definition fallback_generator : PasswordGenerator :=
  {| eff_words := _get_fallback_wordlist |}.

(** The values of [log2] at the arguments of the examples, as glibc
    returns them (each is the float nearest to the logarithm):
    [log2(1.0) = 0.0], [log2(42.0) = 0x1.591bba891f171p+2] and
    [log2(7776.0) = 0x1.9d9810643d661p+3]; not a number elsewhere, where
    no example looks. *)
Definition sample_libm : Libm :=
  {| libm_log2 x :=
       if SFeqb x (binary_normalize 53 1024 1 0 false)
       then S754_zero false
       else if SFeqb x (binary_normalize 53 1024 42 0 false)
       then S754_finite false 0x1591bba891f171 (-50)
       else if SFeqb x (binary_normalize 53 1024 7776 0 false)
       then S754_finite false 0x19d9810643d661 (-49)
       else S754_nan |}.

(** A wordlist of the size of the EFF large wordlist, 7776 words; the
    words are the numerals from 1 to 7776. *)
Definition generator_7776 : PasswordGenerator :=
  {| eff_words := map (fun k => str_of_int (Z.of_nat k)) (seq 1 (Z.to_nat 7776)) |}.

(** Lower bounds of the exponential in fixed point, to place [ln 2] and
    [ln 3]: [square_down] squares a number with [prec] binary places
    and rounds down. *)
Definition square_down (prec : Z) (u : Z) : Z := u * u / 2 ^ prec.

Fixpoint squarings (prec : Z) (k : nat) (u : Z) : Z :=
  match k with
  | O => u
  | S k' => squarings prec k' (square_down prec u)
  end.

(** [(1 + num / (den * 2 ^ k)) ^ (2 ^ k)], every step rounded down,
    times [2 ^ prec]: it is below [exp (num / den)]. *)
Definition exp_lower (prec : Z) (k : nat) (num den : Z) : Z :=
  squarings prec k (2 ^ prec * (den * 2 ^ Z.of_nat k + num) / (den * 2 ^ Z.of_nat k)).

(** [ln 2] and [ln 3] to 19 places: the first is rounded down, the
    second up. *)
Definition ln_scale : Z := 10 ^ 19.
Definition ln2_below : Z := 6931471805599453094.
Definition ln3_above : Z := 10986122886681096914.

(** And to 10 places, the first rounded up, the second down. *)
Definition ln_scale_10 : Z := 10 ^ 10.
Definition ln2_above : Z := 6931471806.
Definition ln3_below : Z := 10986122886.

(** ** The rest of [utils/dictionary_loader.py] and [utils/crypto.py] *)

(** What the other functions of the loader module print. *)
Inductive notice : Type :=
| Created (output_path : pystr) (count : Z)
| FileNotFound (file_path : pystr).

(** A text file open for writing holds the bytes written so far.
    [f.write(s)] encodes the whole of [s] first: when that raises,
    nothing of [s] is written and what was written before stays.  Line
    feeds are written as they are ([os.linesep] is ['\n']). *)
Definition write_str (written : list Z) (s : pystr) : list Z * result unit :=
  match UTF8.encode s with
  | Ok encoded => (written ++ encoded, Ok tt)
  | Raise e => (written, Raise e)
  end.

(** [for pwd in passwords: f.write(f"{pwd}\n")] *)
Fixpoint write_passwords (written : list Z) (passwords : list pystr)
    : list Z * result unit :=
  match passwords with
  | [] => (written, Ok tt)
  | pwd :: rest =>
      match write_str written (pwd ++ [10]) with
      | (written', Ok _) => write_passwords written' rest
      | (written', Raise e) => (written', Raise e)
      end
  end.

(** The file system once [path] holds [bytes]. *)
Definition fs_write (fs : filesystem) (path : pystr) (bytes : list Z) : filesystem :=
  fun p => if bool_decide (p = path) then Contents bytes else fs p.

(** [with open(path, 'w', encoding='utf-8') as f: header; passwords]:
    the path is opened (a path that cannot be opened raises, a missing
    file is created, a file that is there is emptied), the header lines
    are written, then the passwords; the file is closed with what was
    written, also when a write raised. *)
Definition write_dictionary (fs : filesystem) (path : pystr) (header : list pystr)
    (passwords : list pystr) : filesystem * result unit :=
  match fs path with
  | Unopenable => (fs, Raise OSError)
  | _ =>
      match write_passwords [] (header ++ passwords) with
      | (written, r) => (fs_write fs path written, r)
      end
  end.

(** [create_sample_dictionary(output_path, passwords)]: the file system
    after the call, what was printed, and whether it raised. *)
Definition create_sample_dictionary (fs : filesystem) (output_path : pystr)
    (passwords : list pystr) : filesystem * list notice * result unit :=
  match write_dictionary fs output_path
          [py "# Sample password dictionary"; py "# One password per line"]
          passwords with
  | (fs', Ok _) => (fs', [Created output_path (len passwords)], Ok tt)
  | (fs', Raise e) => (fs', [], Raise e)
  end.

(** Python compares strings code point by code point. *)
Fixpoint str_le (a b : pystr) : bool :=
  match a, b with
  | [], _ => true
  | _ :: _, [] => false
  | x :: a', y :: b' => (x <? y) || ((x =? y) && str_le a' b')
  end.

(** [sorted(strings)] *)
Definition sorted (strings : list pystr) : list pystr :=
  merge_sort (fun a b => Is_true (str_le a b)) strings.

(** [hashlib.sha256()] as an object: the bytes fed to it so far. *)
Definition sha256_update (message chunk : list Z) : list Z := message ++ chunk.

(** [f.read(size)] on a file opened with ['rb']: the chunk and what is
    left.  A size of -1 reads everything, a size below -1 raises. *)
Definition file_read (remaining : list Z) (size : Z) : result (list Z * list Z) :=
  if size <? -1 then Raise (ValueError "read length must be non-negative or -1")
  else if size =? -1 then Ok (remaining, [])
  else Ok (firstn (Z.to_nat size) remaining, skipn (Z.to_nat size) remaining).

(** [while chunk := f.read(chunk_size): sha256_hash.update(chunk)], with
    a bound on the number of iterations ([None] when it is reached). *)
Fixpoint read_chunks (fuel : nat) (remaining : list Z) (chunk_size : Z)
    (sha256_hash : list Z) : result (option (list Z)) :=
  match fuel with
  | O => Ok None
  | S fuel' =>
      let* read := file_read remaining chunk_size in
      match read with
      | ([], _) => Ok (Some sha256_hash)
      | (chunk, rest) => read_chunks fuel' rest chunk_size (sha256_update sha256_hash chunk)
      end
  end.

(** [hash_file_sha256(file_path, chunk_size)]; the loop gets one
    iteration per byte of the file and one more, which is enough. *)
Definition hash_file_sha256 (fs : filesystem) (file_path : pystr) (chunk_size : Z)
    : result (option pystr) :=
  match fs file_path with
  | Contents bytes =>
      let* sha256_hash := read_chunks (S (length bytes)) bytes chunk_size [] in
      Ok (option_map SHA256.hexdigest sha256_hash)
  | _ => Raise OSError
  end.

Section LoaderRest.
Context {U : UnicodeData}.

(** The loop of [load_custom_wordlist]. *)
Fixpoint collect_words (lines : list pystr) (words : list pystr) : list pystr :=
  match lines with
  | [] => words
  | line :: rest =>
      let word := strip line in
      if truthy word && negb (startswith_hash word)
      then collect_words rest (words ++ [word])
      else collect_words rest words
  end.

(** [load_custom_wordlist(file_path)]: the file is decoded strictly.
    [OSError] stands for the [FileNotFoundError] of a missing path. *)
Definition load_custom_wordlist (fs : filesystem) (file_path : pystr)
    : result (list pystr) :=
  match fs file_path with
  | Missing => Raise OSError
  | Unopenable => Raise OSError
  | Contents bytes =>
      let* text := UTF8.decode UTF8.Strict bytes in
      Ok (collect_words (text_lines text) [])
  end.

(** The inner loop of [merge_dictionaries]. *)
Fixpoint merge_lines (lines : list pystr) (unique_passwords : gset pystr) : gset pystr :=
  match lines with
  | [] => unique_passwords
  | line :: rest =>
      let pwd := strip line in
      if truthy pwd && negb (startswith_hash pwd)
      then merge_lines rest ({[pwd]} ∪ unique_passwords)
      else merge_lines rest unique_passwords
  end.

(** The outer loop: a missing input is reported and skipped, an input
    that cannot be opened raises. *)
Fixpoint merge_inputs (fs : filesystem) (input_paths : list pystr)
    (unique_passwords : gset pystr) (out : list notice)
    : gset pystr * list notice * result unit :=
  match input_paths with
  | [] => (unique_passwords, out, Ok tt)
  | file_path :: rest =>
      match fs file_path with
      | Missing => merge_inputs fs rest unique_passwords (out ++ [FileNotFound file_path])
      | Unopenable => (unique_passwords, out, Raise OSError)
      | Contents bytes =>
          match UTF8.decode UTF8.Ignore bytes with
          | Ok text =>
              merge_inputs fs rest (merge_lines (text_lines text) unique_passwords) out
          | Raise e => (unique_passwords, out, Raise e)
          end
      end
  end.

(** [merge_dictionaries(input_paths, output_path)]: the file system
    after the call, what was printed, and the count returned. *)
Definition merge_dictionaries (fs : filesystem) (input_paths : list pystr)
    (output_path : pystr) : filesystem * list notice * result Z :=
  match merge_inputs fs input_paths ∅ [] with
  | (unique_passwords, out, Raise e) => (fs, out, Raise e)
  | (unique_passwords, out, Ok _) =>
      match write_dictionary fs output_path [py "# Merged password dictionary"]
              (sorted (elements unique_passwords)) with
      | (fs', Ok _) => (fs', out, Ok (Z.of_nat (size unique_passwords)))
      | (fs', Raise e) => (fs', out, Raise e)
      end
  end.

End LoaderRest.

(** Code points: [0 .. 0x10FFFF]. *)
Definition is_code_point (c : pychar) : Prop := 0 <= c <= 1114111.

(** A string as Python holds it. *)
Definition well_formed_str (s : pystr) : Prop := Forall is_code_point s.

(** No line break inside: neither ['\n'] nor ['\r']. *)
Definition single_line (s : pystr) : Prop :=
  Forall (fun c => c <> 10 /\ c <> 13) s.

(** Bytes: [0 .. 255]. *)
Definition is_byte (b : Z) : Prop := 0 <= b <= 255.

(** A line is a body without line break, followed by ['\n'] unless the
    text ends without one. *)
Definition line_shape (line : pystr) : Prop :=
  exists body, single_line body /\ (line = body ++ [10] \/ line = body).

Section MoreStatements.
Context {U : UnicodeData}.

(** A password that a dictionary file gives back as it was written: a
    Python string that can be encoded, without line break, and already
    trimmed. *)
Definition clean_password (pwd : pystr) : Prop :=
  well_formed_str pwd /\ encodable pwd /\ single_line pwd /\ strip pwd = pwd.

(** The digests an index holds for a list of passwords. *)
Definition digests_of (passwords : list pystr) (h : pystr) : Prop :=
  exists pwd, In pwd passwords /\ kept pwd = true /\ hash_password pwd = Ok h.

(** A header line of a written dictionary: written as it is and skipped
    by the loader. *)
Definition header_line (l : pystr) : Prop :=
  well_formed_str l /\ encodable l /\ single_line l /\ kept (l ++ [10]) = false.

(** A kept line of one of the sources that are read. *)
Definition kept_line_of (fs : filesystem) (file_paths : list pystr) (line : pystr) : Prop :=
  exists file_path bytes,
    In file_path file_paths /\ fs file_path = Contents bytes /\
    In line (text_lines (UTF8.decoded (UTF8.scan bytes))) /\ kept line = true.

End MoreStatements.

(** An input the merge can read: missing, or a file of bytes. *)
Definition mergeable (fs : filesystem) (file_path : pystr) : Prop :=
  match fs file_path with
  | Missing => True
  | Unopenable => False
  | Contents bytes => Forall is_byte bytes
  end.

(** A path that [open(path, 'w')] accepts. *)
Definition writable (fs : filesystem) (path : pystr) : bool :=
  match fs path with
  | Unopenable => false
  | _ => true
  end.

(** [encodable], decided. *)
Definition encodableb (s : pystr) : bool :=
  forallb (fun c => negb (UTF8.is_surrogate c)) s.

(** [words.txt]: a comment, two words with blanks around them, an empty
    line and a repeated word. *)
Definition words_txt : pystr := py "words.txt".

Definition words_bytes : list Z :=
  py "# my words" ++ [10] ++ py "  correct " ++ [10] ++ py "horse" ++ [13; 10]
     ++ [10] ++ py "correct" ++ [10].

Definition words_fs : filesystem :=
  fun path => if bool_decide (path = words_txt) then Contents words_bytes else Missing.

(** ** The rest of [core/checker.py], [core/analyzer.py] and the batch
       loop of [main.py] *)

Record checker_stats : Type := { total_checks : Z; database_size : Z }.

(** [PasswordChecker.get_stats()] *)
Definition PasswordChecker_get_stats (self : PasswordChecker) : checker_stats :=
  {| total_checks := _check_count self;
     database_size := Z.of_nat (size (common_password_hashes self)) |}.

(** [PasswordAnalyzer.get_stats()]: the value under ['total_analyses']. *)
Definition PasswordAnalyzer_get_stats (self : PasswordAnalyzer) : Z :=
  _analysis_count self.

(** Integer by integer true division, [a / b]. *)
Definition int_truediv (a b : Z) : result R :=
  if b =? 0 then Raise ZeroDivisionError else Ok (IZR a / IZR b)%R.

(** [sum(1 for r in results if p(r))] *)
Definition count_if {A : Type} (p : A -> bool) (l : list A) : Z :=
  len (List.filter p l).

(** [sum(f(r) for r in results)] on ints *)
Definition sum_of {A : Type} (f : A -> Z) (l : list A) : Z :=
  fold_left (fun acc r => acc + f r) l 0.

(** What [show_batch_summary] puts in its panel; the numbers are kept
    as numbers, before they are formatted. *)
Record batch_panel : Type := {
  panel_total : Z;
  panel_avg_score : R;
  panel_weak_count : Z;
  panel_weak_percent : R;
  panel_common_count : Z;
  panel_common_percent : R;
  panel_output_file : pystr
}.

(** [DisplayManager.show_batch_summary(results, total, output_file)] *)
Definition show_batch_summary (results : list analysis) (total : Z) (output_file : pystr)
    : result batch_panel :=
  let weak_count := count_if (fun r => score r <? 3) results in
  let common_count := count_if is_common results in
  let* avg_score :=
    if truthy results then int_truediv (sum_of score results) (len results)
    else Ok 0%R in
  let* weak_ratio := int_truediv weak_count total in
  let* common_ratio := int_truediv common_count total in
  Ok {| panel_total := total;
        panel_avg_score := avg_score;
        panel_weak_count := weak_count;
        panel_weak_percent := (weak_ratio * 100)%R;
        panel_common_count := common_count;
        panel_common_percent := (common_ratio * 100)%R;
        panel_output_file := output_file |}.

(** The loop of [ReportGenerator._calculate_summary] that fills
    [score_counts]. *)
Definition count_scores (results : list analysis) : gmap Z Z :=
  fold_left
    (fun score_counts result =>
       <[score result := default 0 (score_counts !! score result) + 1]> score_counts)
    results
    (<[0 := 0]> (<[1 := 0]> (<[2 := 0]> (<[3 := 0]> (<[4 := 0]> ∅))))).

(** [score_counts[0] + score_counts[1]]; both keys are there from the
    start, a missing key would be a [KeyError]. *)
Definition weak_passwords (score_counts : gmap Z Z) : option Z :=
  match score_counts !! 0, score_counts !! 1 with
  | Some a, Some b => Some (a + b)
  | _, _ => None
  end.

(** Whether a call returned. *)
Definition returned {A : Type} (r : result A) : bool :=
  match r with
  | Ok _ => true
  | Raise _ => false
  end.

Section Batch.
Context {U : UnicodeData}.

(** The strength oracle as [batch] meets it: a call that may raise (the
    library refuses a password of more than 72 characters with a
    [ValueError]). *)
Variable zxcvbn : pystr -> result zxcvbn_result.

(** [analyzer.analyze(pwd, checker)] with such an oracle.  The oracle is
    called right after the analysis counter has moved and before the
    checker is used, outside any [try]: what it raises leaves [analyze]
    at once; what it returns is used as in [analyze]. *)
Definition analyze_raising (self : PasswordAnalyzer) (password : pystr)
    (checker : PasswordChecker) : PasswordAnalyzer * PasswordChecker * result analysis :=
  match zxcvbn password with
  | Ok zxcvbn_result => analyze (fun _ => zxcvbn_result) self password checker
  | Raise e => ({| _analysis_count := _analysis_count self + 1 |}, checker, Raise e)
  end.

(** A candidate that [analyze] can analyse: the oracle returns on it and
    it can be encoded for hashing. *)
Definition analysable (password : pystr) : bool :=
  returned (zxcvbn password) && encodableb password.

(** [with open(input_file, 'r', encoding='utf-8') as f:
    passwords = [line.strip() for line in f if line.strip()]], the file
    decoded strictly.  This is the body of the [try] of [batch]; its
    handler, which turns the [FileNotFoundError] of a missing file into
    an exit with code 1, is not part of it. *)
Definition batch_passwords (fs : filesystem) (input_file : pystr) : result (list pystr) :=
  match fs input_file with
  | Contents bytes =>
      let* text := UTF8.decode UTF8.Strict bytes in
      Ok (map strip (List.filter (fun line => truthy (strip line)) (text_lines text)))
  | _ => Raise OSError
  end.

(** The analysis loop of [batch]: each result is kept with its password;
    the first exception ends the loop. *)
Fixpoint analyze_all (analyzer : PasswordAnalyzer) (checker : PasswordChecker)
    (passwords : list pystr) (results : list (pystr * analysis))
    : PasswordAnalyzer * PasswordChecker * result (list (pystr * analysis)) :=
  match passwords with
  | [] => (analyzer, checker, Ok results)
  | pwd :: rest =>
      match analyze_raising analyzer pwd checker with
      | (analyzer', checker', Ok r) =>
          analyze_all analyzer' checker' rest (results ++ [(pwd, r)])
      | (analyzer', checker', Raise e) => (analyzer', checker', Raise e)
      end
  end.

End Batch.

(** ** The rest of [core/generator.py] and its caller in
       [utils/display.py] *)

(** [rich] reads a text it is given to print as console markup.  A
    text without an opening bracket is printed as it is (the first test
    of [rich.markup.render]); for any other text the reader decides:
    [markup_error text] is the message of the [MarkupError] it raises,
    [None] when it raises none. *)
Class Rich : Type := { markup_error : pystr -> option string }.

(** [console.print(text)] for a text that holds something the caller
    passed in. *)
Definition console_print {M : Rich} (text : pystr) : result unit :=
  if existsb (Z.eqb 91) text then
    match markup_error text with
    | Some msg => Raise (MarkupError msg)
    | None => Ok tt
    end
  else Ok tt.

(** [str(e)] for the exceptions that reach the handler of
    [show_generated_passwords]: those of the generators and rich's own.
    The codec and file errors do not occur there and their text is left
    empty. *)
Definition exn_str (e : exn) : pystr :=
  match e with
  | ValueError msg => py msg
  | OverflowError msg => py msg
  | MarkupError msg => py msg
  | ZeroDivisionError => py "float division by zero"
  | IndexError => py "Cannot choose from an empty sequence"
  | UnicodeEncodeError | UnicodeDecodeError | OSError => []
  end.

(** [f"[red]Unknown style: {style}[/red]"] *)
Definition unknown_style_text (style : pystr) : pystr :=
  py "[red]Unknown style: " ++ style ++ py "[/red]".

(** [f"[red]Error generating password: {e}[/red]"] *)
Definition generation_error_text (e : exn) : pystr :=
  py "[red]Error generating password: " ++ exn_str e ++ py "[/red]".

(** A row of the table: number, password, length, entropy. *)
Definition table_row : Type := (Z * pystr * Z * R)%type.

Definition row_password (row : table_row) : pystr := snd (fst (fst row)).

(** What [show_generated_passwords] prints, one item per
    [console.print] that returned.  [Table rows] is the table as it was
    handed over; how rich renders a cell that it reads as markup is not
    described. *)
Inductive shown : Type :=
| Heading (count : Z)
| UnknownStyle (style : pystr)
| GenerationError (e : exn)
| Table (rows : list table_row)
| PassphraseTip
| PinWarning.

Section GeneratorRest.
Context {U : UnicodeData} {L : Libm} {M : Rich}.

(** [s.split()]: the maximal runs without whitespace. *)
Fixpoint split_ws (cur_rev : pystr) (s : pystr) : list pystr :=
  match s with
  | [] => match cur_rev with [] => [] | _ :: _ => [rev cur_rev] end
  | c :: r =>
      if isspace c then
        match cur_rev with
        | [] => split_ws [] r
        | _ :: _ => rev cur_rev :: split_ws [] r
        end
      else split_ws (c :: cur_rev) r
  end.

Definition split (s : pystr) : list pystr := split_ws [] s.

(** The loop of [_load_eff_wordlist]. *)
Fixpoint eff_words_of (lines : list pystr) (words : list pystr) : list pystr :=
  match lines with
  | [] => words
  | line :: rest =>
      let line := strip line in
      if truthy line && negb (startswith_hash line) then
        let parts := split line in
        if 2 <=? len parts
        then eff_words_of rest (words ++ [nth 1 parts []])
        else eff_words_of rest words
      else eff_words_of rest words
  end.

(** [_load_eff_wordlist()]: the words, and whether the fallback warning
    was printed.  Only a missing file falls back. *)
Definition _load_eff_wordlist (fs : filesystem) (wordlist_path : pystr)
    : result (list pystr * bool) :=
  match fs wordlist_path with
  | Missing => Ok (_get_fallback_wordlist, true)
  | Unopenable => Raise OSError
  | Contents bytes =>
      let* text := UTF8.decode UTF8.Strict bytes in
      Ok (eff_words_of (text_lines text) [], false)
  end.

(** [PasswordGenerator()] *)
Definition PasswordGenerator_init (fs : filesystem) (wordlist_path : pystr)
    : result PasswordGenerator :=
  let* loaded := _load_eff_wordlist fs wordlist_path in
  Ok {| eff_words := fst loaded |}.

(** The choice of generator and length in [show_generated_passwords];
    [None] for a style it does not know. *)
Definition styled_password (generator : PasswordGenerator) (style : pystr) (entropy : Z)
    : option (Gen pystr) :=
  if bool_decide (style = py "passphrase")
  then Some (generate_passphrase generator entropy (py "-") true true)
  else if bool_decide (style = py "mixed")
  then Some (generate_mixed (Z.max 16 (entropy / 4)))
  else if bool_decide (style = py "alphanumeric")
  then Some (generate_alphanumeric (Z.max 12 (entropy / 5)))
  else if bool_decide (style = py "pin")
  then Some (generate_pin (Z.max 6 (entropy / 3)))
  else None.

(** The body of the [try]: [Ok (Some (pwd, actual_entropy))] when a
    password was generated, [Ok None] when the unknown style was
    printed and the function returns, [Raise e] for what the handler
    catches: an exception of the generator, or of the print of the
    unknown style. *)
Definition try_row (generator : PasswordGenerator) (entropy : Z) (style : pystr)
    (s : rng_stream) : rng_stream * result (option (pystr * R)) :=
  match styled_password generator style entropy with
  | None =>
      (s, let* _ := console_print (unknown_style_text style) in Ok None)
  | Some generate =>
      match generate s with
      | (s', Ok pwd) =>
          (s', let* actual_entropy := calculate_entropy pwd in
               Ok (Some (pwd, actual_entropy)))
      | (s', Raise e) => (s', Raise e)
      end
  end.

(** The loop over [range(count)].  The handler prints the exception and
    the loop goes on; when that print raises in its turn, the exception
    leaves the function.  [Ok None]: the function has returned from
    inside the loop. *)
Fixpoint show_rows (n : nat) (i : Z) (generator : PasswordGenerator) (entropy : Z)
    (style : pystr) (rows : list table_row) (out : list shown)
    (s : rng_stream) : rng_stream * list shown * result (option (list table_row)) :=
  match n with
  | O => (s, out, Ok (Some rows))
  | S n' =>
      match try_row generator entropy style s with
      | (s', Ok (Some (pwd, actual_entropy))) =>
          show_rows n' (i + 1) generator entropy style
            (rows ++ [(i + 1, pwd, len pwd, actual_entropy)]) out s'
      | (s', Ok None) => (s', out ++ [UnknownStyle style], Ok None)
      | (s', Raise e) =>
          match console_print (generation_error_text e) with
          | Ok _ =>
              show_rows n' (i + 1) generator entropy style rows
                (out ++ [GenerationError e]) s'
          | Raise e' => (s', out, Raise e')
          end
      end
  end.

(** [console.print(table)]: the cells are read as markup like any other
    text, and of the cells of a row only the password can hold a
    bracket.  The first password that the reader refuses raises. *)
Fixpoint print_table (rows : list table_row) : result unit :=
  match rows with
  | [] => Ok tt
  | row :: rest =>
      let* _ := console_print (row_password row) in
      print_table rest
  end.

(** [DisplayManager.show_generated_passwords(generator, count, entropy,
    style)]: the table is printed after the loop, outside the [try]. *)
Definition show_generated_passwords (generator : PasswordGenerator) (count entropy : Z)
    (style : pystr) (s : rng_stream) : rng_stream * list shown * result unit :=
  match show_rows (range_count count) 0 generator entropy style [] [Heading count] s with
  | (s', out, Raise e) => (s', out, Raise e)
  | (s', out, Ok None) => (s', out, Ok tt)
  | (s', out, Ok (Some rows)) =>
      match print_table rows with
      | Raise e => (s', out, Raise e)
      | Ok _ =>
          (s', out ++ [Table rows]
                 ++ (if bool_decide (style = py "passphrase") then [PassphraseTip]
                     else if bool_decide (style = py "pin") then [PinWarning]
                     else []),
           Ok tt)
      end
  end.

(** The rows of a table of [count] passwords that all satisfy [P]:
    numbered from 1, each with its length and its entropy. *)
Definition rows_of (count : Z) (P : pystr -> Prop) (rows : list table_row) : Prop :=
  map (fun row : table_row => fst (fst (fst row))) rows
    = map (fun k => 1 + Z.of_nat k) (seq 0 (Z.to_nat count)) /\
  Forall (fun row : table_row =>
            P (row_password row) /\
            snd (fst row) = len (row_password row) /\
            calculate_entropy (row_password row) = Ok (snd row)) rows.

(** [show_generated_passwords] generates [max(count, 0)] passwords that
    satisfy [P] without an error message, and hands the table to
    [console.print]: the heading, the table and [suffix] are printed,
    unless the reader refuses a password as markup and its
    [MarkupError] leaves the call. *)
Definition hands_table (generator : PasswordGenerator) (count entropy : Z)
    (style : pystr) (suffix : list shown) (P : pystr -> Prop) (s : rng_stream) : Prop :=
  exists s' rows,
    rows_of count P rows /\
    show_generated_passwords generator count entropy style s
      = match print_table rows with
        | Ok _ => (s', [Heading count; Table rows] ++ suffix, Ok tt)
        | Raise e => (s', [Heading count], Raise e)
        end.

(** The same when the table is always printed. *)
Definition shows_table (generator : PasswordGenerator) (count entropy : Z)
    (style : pystr) (suffix : list shown) (P : pystr -> Prop) (s : rng_stream) : Prop :=
  exists s' rows,
    rows_of count P rows /\
    show_generated_passwords generator count entropy style s
      = (s', [Heading count; Table rows] ++ suffix, Ok tt).

End GeneratorRest.

(** More concrete inputs. *)

Definition sample_txt : pystr := py "sample.txt".

Definition merged_txt : pystr := py "merged.txt".

Definition sample_passwords : list pystr :=
  [py "hunter2"; py "P@ss w0rd"; py "#not kept"; []].

(** A string Python can hold and [str.encode] cannot write: a lone
    surrogate. *)
Definition lone_surrogate : pystr := py "ab" ++ [56320].

(** An oracle that, like the library, refuses a candidate of more than
    72 characters with a [ValueError] (whose text is not modelled) and
    rates every other candidate 4. *)
Definition oracle_limited (password : pystr) : result zxcvbn_result :=
  if 72 <? len password then Raise (ValueError "password too long")
  else Ok (oracle_four password).

(** A candidate of 73 characters. *)
Definition long_candidate : pystr := repeat 97 73.

(** What rich answers on the texts of the examples.  It refuses the
    message about the unknown style [[/]], whose closing tag closes the
    message's own [[red]] and leaves [[/red]] with nothing to close,
    and for the same reason the handler's message about that refusal;
    the examples look at no other text with a bracket but the message
    about the style [fancy], which it accepts. *)
Definition sample_rich : Rich :=
  {| markup_error text :=
       if bool_decide (text = unknown_style_text (py "[/]"))
       then Some "closing tag '[/red]' at position 23 doesn't match any open tag"%string
       else if bool_decide
                 (text = generation_error_text
                           (MarkupError
                              "closing tag '[/red]' at position 23 doesn't match any open tag"))
       then Some "closing tag '[/red]' at position 94 doesn't match any open tag"%string
       else None |}.

(** [Forall is_byte], decided. *)
Definition all_bytes (bs : list Z) : bool :=
  forallb (fun b => (0 <=? b) && (b <=? 255)) bs.

(** * Properties *)

(** ** Sanity of the library models *)

Example sha256_abc :
  SHA256.hexdigest (py "abc")
  = py "ba7816bf8f01cfea414140de5dae2223b00361a396177a9cb410ff61f20015ad".
Proof. vm_compute. reflexivity. Qed.

Example sha256_two_blocks :
  SHA256.hexdigest (repeat 97 130)
  = py "1e3c4f4750c8c29bbfa9ced317788176b156d342e57f7777f62fd7221a44312f".
Proof. vm_compute. reflexivity. Qed.

Example hash_password_password :
  hash_password (py "password")
  = Ok (py "5e884898da28047151d0e56f8dc6292773603d0d6aabbdd62a11ef721d1542d8").
Proof. vm_compute. reflexivity. Qed.

Example decode_ignore_drops_bad_bytes :
  UTF8.decode UTF8.Ignore [226; 40; 161; 195; 169; 237; 160; 128; 65] = Ok [40; 233; 65]
  /\ UTF8.decode UTF8.Strict [226; 40; 161] = Raise UnicodeDecodeError.
Proof. split; vm_compute; reflexivity. Qed.

Example load_two_sources :
  snd (@load_password_dictionaries ascii_only sample_fs [py "missing.txt"; leaked_txt])
  = [WarnNotFound (py "missing.txt"); Loaded 2 leaked_txt].
Proof. vm_compute. reflexivity. Qed.

Example mixed_of_length_10 :
  snd (generate_mixed 10 sample_stream) = Ok (py "dK7FTM%07]").
Proof. vm_compute. reflexivity. Qed.

Example mixed_of_length_3 :
  generate_mixed 3 sample_stream
  = (sample_stream, Raise (ValueError "Password length must be at least 4")).
Proof. reflexivity. Qed.

Example pin_of_length_5 : snd (generate_pin 5 sample_stream) = Ok (py "30741").
Proof. vm_compute. reflexivity. Qed.

Example feedback_of_abc :
  @_generate_feedback ascii_only (py "abc")
    {| zx_score := 0;
       zx_feedback := {| warning := py "This is a very common password.";
                         suggestions := [py "Add another word or two."] |};
       zx_crack_times_display := None;
       zx_sequence := None |}
    true 14
  = [msg_breach;
     py "This is a very common password.";
     py "Add another word or two.";
     msg_length_12;
     msg_low_entropy;
     py "Add uppercase letters, numbers, special characters for better security"].
Proof.
  unfold _generate_feedback. destruct (Rlt_dec 14 40) as [_ | H]; [reflexivity | lra].
Qed.

(** ** The real logarithm *)

Lemma ln2_pos : (0 < ln 2)%R.
Proof. pose proof ln_lt_2. lra. Qed.

Lemma log2R_1 : log2R 1 = 0%R.
Proof. unfold log2R. rewrite ln_1. pose proof ln2_pos. field. lra. Qed.

Lemma log2R_increasing (x y : R) : (0 < x)%R -> (x < y)%R -> (log2R x < log2R y)%R.
Proof.
  intros Hx Hxy. unfold log2R.
  apply Rmult_lt_compat_r.
  - apply Rinv_0_lt_compat, ln2_pos.
  - now apply ln_increasing.
Qed.

Lemma log2R_pos (x : R) : (1 < x)%R -> (0 < log2R x)%R.
Proof.
  intros Hx. rewrite <- log2R_1. apply log2R_increasing; lra.
Qed.

Lemma log2R_nonneg (x : R) : (1 <= x)%R -> (0 <= log2R x)%R.
Proof.
  intros [Hx | Hx].
  - left. now apply log2R_pos.
  - subst x. rewrite log2R_1. lra.
Qed.

Lemma log2R_pow2 (k : nat) : log2R (2 ^ k) = INR k.
Proof.
  unfold log2R. rewrite ln_pow by lra. pose proof ln2_pos. field. lra.
Qed.

Lemma math_log2_pos (x : Z) : 0 < x -> math_log2 x = Ok (log2R (IZR x)).
Proof.
  intros Hx. unfold math_log2. destruct (Z.ltb_spec 0 x); [reflexivity | lia].
Qed.

(** ** The entropy model (C4, C5) *)

Section EntropyFacts.
Context {U : UnicodeData}.

Lemma charset_size_spec (s : pystr) : entropy_charset_size s = spec_charset_size s.
Proof.
  unfold entropy_charset_size, spec_charset_size, class_present. cbn [all_classes List.filter].
  change (any (in_class Lower) s) with (any islower s).
  change (any (in_class Upper) s) with (any isupper s).
  change (any (in_class Digit) s) with (any isdigit s).
  change (any (in_class Punct) s) with (any (fun c => char_in c punctuation) s).
  change (any (in_class Space) s) with (any isspace s).
  change (any (in_class Extended) s) with (any (fun c => 127 <? c) s).
  change (len punctuation) with 32.
  destruct (any islower s), (any isupper s), (any isdigit s),
    (any (fun c => char_in c punctuation) s), (any isspace s),
    (any (fun c => 127 <? c) s); reflexivity.
Qed.

Lemma spec_charset_size_flags (s : pystr) :
  spec_charset_size s =
    (if class_present Lower s then 26 else 0)
    + (if class_present Upper s then 26 else 0)
    + (if class_present Digit s then 10 else 0)
    + (if class_present Punct s then 32 else 0)
    + (if class_present Space s then 1 else 0)
    + (if class_present Extended s then 100 else 0).
Proof.
  unfold spec_charset_size. cbn [all_classes List.filter].
  destruct (class_present Lower s), (class_present Upper s), (class_present Digit s),
    (class_present Punct s), (class_present Space s), (class_present Extended s);
    reflexivity.
Qed.

Lemma spec_charset_size_nonneg (s : pystr) : 0 <= spec_charset_size s.
Proof.
  rewrite spec_charset_size_flags.
  destruct (class_present Lower s), (class_present Upper s), (class_present Digit s),
    (class_present Punct s), (class_present Space s), (class_present Extended s); lia.
Qed.

Lemma spec_charset_size_nil : spec_charset_size [] = 0.
Proof. reflexivity. Qed.

Lemma contribution_pos (k : char_class) : 0 < contribution k.
Proof. destruct k; vm_compute; reflexivity. Qed.

Lemma calculate_entropy_eq (s : pystr) :
  calculate_entropy s =
    if spec_charset_size s =? 0 then Ok 0%R
    else Ok (IZR (len s) * log2R (IZR (spec_charset_size s)))%R.
Proof.
  destruct s as [| c r].
  - reflexivity.
  - unfold calculate_entropy. rewrite charset_size_spec.
    destruct (Z.eqb_spec (spec_charset_size (c :: r)) 0) as [E | E]; [reflexivity |].
    pose proof (spec_charset_size_nonneg (c :: r)).
    rewrite math_log2_pos by lia. reflexivity.
Qed.

Lemma calculate_entropy_total (s : pystr) : exists e, calculate_entropy s = Ok e.
Proof.
  rewrite calculate_entropy_eq. destruct (spec_charset_size s =? 0); eauto.
Qed.

(** The charset size only sees which classes are present. *)
Lemma same_classes_charset (s t : pystr) :
  same_classes s t -> spec_charset_size s = spec_charset_size t.
Proof.
  intros H. rewrite !spec_charset_size_flags. now rewrite !H.
Qed.

Lemma adds_class_charset (k : char_class) (s t : pystr) :
  adds_class k s t -> spec_charset_size t = spec_charset_size s + contribution k.
Proof.
  intros (Hs & Ht & Hother). rewrite !spec_charset_size_flags.
  unfold contribution. change (len punctuation) with 32.
  destruct k; rewrite Hs, Ht;
    repeat match goal with
    | |- context [class_present ?k' s] =>
        rewrite (Hother k') by discriminate
    end;
    repeat match goal with
    | |- context [class_present ?k' t] => destruct (class_present k' t)
    end; lia.
Qed.

Lemma has_active_class_charset (s : pystr) :
  has_active_class s -> 0 < spec_charset_size s.
Proof.
  intros [k Hk]. rewrite spec_charset_size_flags.
  destruct k; rewrite Hk;
    destruct (class_present Lower s), (class_present Upper s), (class_present Digit s),
      (class_present Punct s), (class_present Space s), (class_present Extended s); lia.
Qed.

Lemma truthy_len {A : Type} (l : list A) : truthy l = true -> 1 <= len l.
Proof. destruct l; [discriminate | intros _; unfold len; cbn; lia]. Qed.

End EntropyFacts.

Example entropy_of_password :
  @calculate_entropy ascii_only (py "password") = Ok (8 * log2R 26)%R.
Proof.
  rewrite calculate_entropy_eq.
  change (@spec_charset_size ascii_only (py "password")) with 26.
  reflexivity.
Qed.

Section EntropyClaims.
Context {U : UnicodeData}.

(** C4 (as amended).  The charset size the code accumulates is the sum
    of the fixed contributions (26, 26, 10, 32, 1, 100) of the classes
    present, whatever the number of characters in each; a candidate with
    a positive charset size gets length times log2 of it, and a candidate
    with charset size 0 (the empty one, or one without any character of
    the six classes) gets 0, where the logarithm itself is undefined. *)
Theorem C4_entropy_by_classes (s : pystr) :
  entropy_charset_size s = spec_charset_size s /\
  calculate_entropy s =
    (if spec_charset_size s =? 0 then Ok 0%R
     else Ok (IZR (len s) * log2R (IZR (spec_charset_size s)))%R) /\
  math_log2 (spec_charset_size s) =
    (if spec_charset_size s =? 0 then Raise (ValueError "math domain error")
     else Ok (log2R (IZR (spec_charset_size s)))) /\
  calculate_entropy [] = Ok 0%R.
Proof.
  split; [apply charset_size_spec |].
  split; [apply calculate_entropy_eq |].
  split; [| reflexivity].
  pose proof (spec_charset_size_nonneg s) as Hnn.
  destruct (Z.eqb_spec (spec_charset_size s) 0) as [E | E].
  - rewrite E. reflexivity.
  - apply math_log2_pos. lia.
Qed.

Lemma entropy_le_same_classes (s t : pystr) :
  same_classes s t -> (length s <= length t)%nat -> entropy_le s t.
Proof.
  intros Hsame Hlen. unfold entropy_le.
  rewrite !calculate_entropy_eq, <- (same_classes_charset s t Hsame).
  pose proof (spec_charset_size_nonneg s) as Hnn.
  destruct (Z.eqb_spec (spec_charset_size s) 0) as [E | E].
  - exists 0%R, 0%R. repeat split; lra.
  - eexists _, _. repeat split.
    apply Rmult_le_compat_r.
    + apply log2R_nonneg. apply IZR_le. lia.
    + apply IZR_le. unfold len. lia.
Qed.

Lemma entropy_lt_new_class (k : char_class) (s t : pystr) :
  truthy s = true -> length s = length t -> adds_class k s t ->
  has_active_class s \/ k <> Space -> entropy_lt s t.
Proof.
  intros Hs Hlen Hadd Hside. unfold entropy_lt.
  rewrite !calculate_entropy_eq, (adds_class_charset k s t Hadd).
  pose proof (spec_charset_size_nonneg s) as Hnn.
  pose proof (contribution_pos k) as Hk.
  pose proof (truthy_len s Hs) as Hls.
  assert (Hlt : len t = len s) by (unfold len; now rewrite Hlen).
  rewrite Hlt.
  assert (Hlen_pos : (0 < IZR (len s))%R) by (apply IZR_lt; lia).
  destruct (Z.eqb_spec (spec_charset_size s + contribution k) 0) as [E | E]; [lia |].
  destruct (Z.eqb_spec (spec_charset_size s) 0) as [E0 | E0].
  - eexists _, _. repeat split.
    assert (Hbig : 1 < spec_charset_size s + contribution k).
    { destruct Hside as [Hact | Hns].
      - apply has_active_class_charset in Hact. lia.
      - rewrite E0. destruct k; try (vm_compute; reflexivity). now elim Hns. }
    apply Rmult_lt_0_compat; [exact Hlen_pos |].
    apply log2R_pos. apply IZR_lt. lia.
  - eexists _, _. repeat split.
    apply Rmult_lt_compat_l; [exact Hlen_pos |].
    apply log2R_increasing; apply IZR_lt; lia.
Qed.

(** C5 (as amended).  For non-empty candidates the entropy does not
    decrease with the length while the set of active classes is the
    same; and at a fixed length, one more class present gives a strictly
    greater entropy, provided the candidate already had an active class
    or the new class is not whitespace. *)
Theorem C5_entropy_monotone (s t : pystr) :
  truthy s = true -> truthy t = true ->
  (same_classes s t -> (length s <= length t)%nat -> entropy_le s t) /\
  (forall k, length s = length t -> adds_class k s t ->
     has_active_class s \/ k <> Space -> entropy_lt s t).
Proof.
  intros Hs Ht. split.
  - apply entropy_le_same_classes.
  - intros k. now apply entropy_lt_new_class.
Qed.

End EntropyClaims.

(** The escape character is in none of the six classes: the charset size
    is 0, the logarithm does not exist, and the code answers 0. *)
Lemma C4_counterexample_control_char :
  @calculate_entropy ascii_only [27] = Ok 0%R /\
  @spec_charset_size ascii_only [27] = 0 /\
  ~ @entropy_is_length_times_log2 ascii_only [27].
Proof.
  split; [reflexivity |]. split; [reflexivity |].
  intros (l & Hl & _).
  change (@spec_charset_size ascii_only [27]) with 0 in Hl.
  discriminate Hl.
Qed.

(** From an escape character to a space, whitespace becomes present and
    nothing else changes, yet both entropies are 0. *)
Lemma C5_counterexample_whitespace :
  ~ @new_class_strictly_increases ascii_only Space [27] [32].
Proof.
  intros H.
  destruct H as (es & et & Hes & Het & Hlt).
  - reflexivity.
  - reflexivity.
  - reflexivity.
  - reflexivity.
  - split; [reflexivity |]. split; [reflexivity |].
    intros k' Hk'. destruct k'; try reflexivity. now elim Hk'.
  - rewrite calculate_entropy_eq in Hes, Het.
    change (@spec_charset_size ascii_only [27]) with 0 in Hes.
    change (@spec_charset_size ascii_only [32]) with 1 in Het.
    cbn in Hes, Het.
    injection Hes as <-. injection Het as <-.
    rewrite log2R_1 in Hlt. lra.
Qed.

Lemma C5_witness :
  @entropy_le ascii_only (py "ab") (py "abc") /\
  @entropy_lt ascii_only (py "ab") (py "a1").
Proof.
  split.
  - destruct (@C5_entropy_monotone ascii_only (py "ab") (py "abc") eq_refl eq_refl)
      as [Hle _].
    apply Hle.
    + intros k. destruct k; reflexivity.
    + simpl. lia.
  - destruct (@C5_entropy_monotone ascii_only (py "ab") (py "a1") eq_refl eq_refl)
      as [_ Hlt].
    apply (Hlt Digit).
    + reflexivity.
    + split; [reflexivity |]. split; [reflexivity |].
      intros k' Hk'. destruct k'; try reflexivity. now elim Hk'.
    + right. discriminate.
Defined.

(** ** Feedback assembly (C3) *)

Section FeedbackClaims.
Context {U : UnicodeData}.

(** C3.  The feedback is the concatenation, in this order, of: the
    breach warning iff breached; the oracle's warning iff non-empty; the
    oracle's suggestions in their order; the length recommendation ("at
    least 12" under 12 characters, else "16+" under 16, else nothing);
    the low-entropy warning iff the entropy is under 40 bits; and one
    message naming every missing class among lowercase, uppercase, digit
    and special iff one is missing.  Every part is decided on its own. *)
Theorem C3_feedback_order (password : pystr) (oracle : zxcvbn_result)
    (is_breached : bool) (entropy_bits : R) :
  _generate_feedback password oracle is_breached entropy_bits
  = feedback_in_order password oracle is_breached entropy_bits.
Proof.
  unfold _generate_feedback, feedback_in_order, missing_types_of, item_if.
  destruct (any islower password), (any isupper password), (any isdigit password),
    (any (fun c => negb (isalnum c)) password);
    cbn [negb app truthy];
    repeat match goal with
    | |- context [0 <? len ?l] =>
        let b := eval vm_compute in (0 <? len l) in change (0 <? len l) with b
    end;
    destruct is_breached, (truthy (warning (zx_feedback oracle))),
      (len password <? 12), (len password <? 16), (Rlt_dec entropy_bits 40);
    cbn [app]; rewrite <- ?app_assoc, ?app_nil_r; reflexivity.
Qed.

End FeedbackClaims.

(** ** The UTF-8 decoder never yields a surrogate *)

Lemma list_length_ind {A : Type} (P : list A -> Prop) :
  (forall l, (forall l', (length l' < length l)%nat -> P l') -> P l) ->
  forall l, P l.
Proof.
  intros step l.
  remember (length l) as n eqn:Hn. revert l Hn.
  induction n as [n IH] using lt_wf_ind.
  intros l ->. apply step. intros l' Hl'. now apply (IH (length l')).
Qed.

Ltac bool_to_prop :=
  repeat match goal with
  | H : (_ && _) = true |- _ => apply andb_true_iff in H; destruct H
  | H : (_ || _) = false |- _ => apply orb_false_iff in H; destruct H
  | H : negb _ = false |- _ => apply negb_false_iff in H
  | H : negb _ = true |- _ => apply negb_true_iff in H
  | H : (_ <? _) = true |- _ => apply Z.ltb_lt in H
  | H : (_ <? _) = false |- _ => apply Z.ltb_ge in H
  | H : (_ <=? _) = true |- _ => apply Z.leb_le in H
  | H : (_ <=? _) = false |- _ => apply Z.leb_gt in H
  | H : (_ =? _) = true |- _ => apply Z.eqb_eq in H
  | H : (_ =? _) = false |- _ => apply Z.eqb_neq in H
  end.

Lemma not_surrogate (c : pychar) :
  c < 55296 \/ 57343 < c -> UTF8.is_surrogate c = false.
Proof.
  intros H. unfold UTF8.is_surrogate, between.
  destruct (Z.leb_spec 55296 c), (Z.leb_spec c 57343); try reflexivity; lia.
Qed.

Lemma scan_no_surrogate (bs : list Z) :
  Forall (fun o => match o with
                   | Some c => UTF8.is_surrogate c = false
                   | None => True
                   end) (UTF8.scan bs).
Proof.
  induction bs as [bs IH] using list_length_ind.
  destruct bs as [| b0 r1]; [constructor |].
  cbn [UTF8.scan]. unfold UTF8.is_cont, between.
  repeat match goal with
  | |- Forall _ [] => constructor
  | |- Forall _ (_ :: _) => constructor
  | |- Forall _ (UTF8.scan _) => apply IH; cbn [length]; lia
  | |- True => exact I
  | |- context [match ?r with [] => _ | _ :: _ => _ end] => destruct r
  | |- context [if ?b then _ else _] => destruct b eqn:?
  | H : context [if ?b then _ else _] |- UTF8.is_surrogate _ = false =>
      destruct b eqn:?
  | |- UTF8.is_surrogate _ = false =>
      bool_to_prop; apply not_surrogate; lia
  end.
Qed.

Lemma decoded_encodable (bs : list Z) : encodable (UTF8.decoded (UTF8.scan bs)).
Proof.
  unfold encodable, UTF8.decoded.
  pose proof (scan_no_surrogate bs) as H.
  induction H as [| o items Ho _ IH]; cbn [flat_map]; [constructor |].
  destruct o as [c |]; cbn [app]; [constructor |]; assumption.
Qed.

Lemma encode_char_ok (c : pychar) :
  UTF8.is_surrogate c = false -> exists b, UTF8.encode_char c = Ok b.
Proof.
  intros Hc. unfold UTF8.encode_char. rewrite Hc.
  destruct (c <? 128), (c <? 2048), (c <? 65536); eauto.
Qed.

Lemma encode_ok (s : pystr) : encodable s -> exists bs, UTF8.encode s = Ok bs.
Proof.
  induction 1 as [| c r Hc _ [bs IH]]; cbn [UTF8.encode]; [eauto |].
  destruct (encode_char_ok c Hc) as [b ->]. rewrite IH. cbn. eauto.
Qed.

Lemma hash_password_ok (s : pystr) : encodable s -> exists h, hash_password s = Ok h.
Proof.
  intros Hs. unfold hash_password.
  destruct (encode_ok s Hs) as [bs ->]. cbn. eauto.
Qed.

(** ** Lines of a text and trimming keep the characters they are given *)

Lemma translate_newlines_encodable (s : pystr) :
  encodable s -> encodable (translate_newlines s).
Proof.
  unfold encodable.
  induction s as [s IH] using list_length_ind. intros Hs.
  destruct s as [| c r]; [constructor |].
  inversion Hs as [| ? ? Hc Hr]; subst.
  cbn [translate_newlines].
  destruct (c =? 13).
  - constructor; [reflexivity |].
    destruct r as [| c' r']; [constructor |].
    inversion Hr; subst.
    destruct (c' =? 10); apply IH; cbn [length]; auto; lia.
  - constructor; [assumption |]. apply IH; cbn [length]; auto.
Qed.

Lemma lines_from_encodable (s cur_rev : pystr) :
  encodable cur_rev -> encodable s -> Forall encodable (lines_from cur_rev s).
Proof.
  unfold encodable. revert cur_rev.
  induction s as [| c r IH]; intros cur_rev Hcur Hs; cbn [lines_from].
  - destruct cur_rev; constructor; [| constructor].
    now apply Forall_rev.
  - inversion Hs; subst.
    destruct (c =? 10).
    + constructor.
      * apply Forall_rev. now constructor.
      * apply IH; [constructor | assumption].
    + apply IH; [now constructor | assumption].
Qed.

Lemma text_lines_encodable (text : pystr) :
  encodable text -> Forall encodable (text_lines text).
Proof.
  intros H. unfold text_lines.
  apply lines_from_encodable; [constructor | now apply translate_newlines_encodable].
Qed.

Section LoaderFacts.
Context {U : UnicodeData}.

Lemma lstrip_encodable (s : pystr) : encodable s -> encodable (lstrip s).
Proof.
  unfold encodable. induction 1 as [| c r Hc Hr IH]; cbn [lstrip]; [constructor |].
  destruct (isspace c); [assumption | now constructor].
Qed.

Lemma strip_encodable (s : pystr) : encodable s -> encodable (strip s).
Proof.
  intros H. unfold strip, rstrip.
  apply Forall_rev, lstrip_encodable, Forall_rev, lstrip_encodable, H.
Qed.

(** The loop only adds to the set. *)
Lemma load_lines_grows (lines : list pystr) :
  forall (hashes : gset pystr) (n : Z),
    hashes ⊆ fst (load_lines lines hashes n).
Proof.
  induction lines as [| line rest IH]; intros hashes n; cbn [load_lines]; [done |].
  destruct (truthy (strip line) && negb (startswith_hash (strip line))); [| apply IH].
  destruct (hash_password (strip line)) as [h | e]; [| done].
  etransitivity; [| apply IH]. apply union_subseteq_r.
Qed.

(** On lines without surrogates the loop runs to its end, counts the
    kept lines and holds the digest of each. *)
Lemma load_lines_complete (lines : list pystr) :
  Forall encodable lines ->
  forall (hashes : gset pystr) (n : Z),
    snd (load_lines lines hashes n) = Ok (n + len (List.filter kept lines)) /\
    forall line, In line lines -> kept line = true ->
      exists h, hash_password (strip line) = Ok h /\
                h ∈ fst (load_lines lines hashes n).
Proof.
  induction 1 as [| line rest Hline _ IH]; intros hashes n.
  - cbn [load_lines List.filter snd]. split; [| contradiction].
    change (len (@nil pystr)) with 0. now rewrite Z.add_0_r.
  - cbn [load_lines List.filter]. fold (kept line).
    destruct (kept line) eqn:Hkept.
    + destruct (hash_password_ok (strip line) (strip_encodable line Hline)) as [h Hh].
      rewrite Hh.
      destruct (IH ({[h]} ∪ hashes) (n + 1)) as [Hcount Hin].
      split.
      * rewrite Hcount. f_equal. unfold len. cbn [length]. lia.
      * intros l [<- | Hl] Hk.
        -- exists h. split; [assumption |].
           apply (load_lines_grows rest), elem_of_union. left.
           now apply elem_of_singleton.
        -- now apply Hin.
    + destruct (IH hashes n) as [Hcount Hin].
      split; [assumption |].
      intros l [<- | Hl] Hk; [congruence | now apply Hin].
Qed.

(** What one source contributes: one event, never the encoding warning,
    and for a readable source the count and the digests of its kept
    lines, read with the undecodable bytes dropped. *)
Lemma load_source_step (fs : filesystem) (hashes : gset pystr) (out : list event)
    (file_path : pystr) :
  exists hashes' ev,
    load_source fs (hashes, out) file_path = (hashes', out ++ [ev]) /\
    hashes ⊆ hashes' /\
    (forall p, ev <> WarnEncoding p) /\
    forall bytes, fs file_path = Contents bytes ->
      ev = Loaded (len (List.filter kept (text_lines (UTF8.decoded (UTF8.scan bytes)))))
             file_path /\
      forall line, In line (text_lines (UTF8.decoded (UTF8.scan bytes))) ->
        kept line = true ->
        exists h, hash_password (strip line) = Ok h /\ h ∈ hashes'.
Proof.
  unfold load_source.
  destruct (fs file_path) as [| | bytes] eqn:Hfile.
  - exists hashes, (WarnNotFound file_path). repeat split; try done.
  - cbn. exists hashes, (ErrorLoading file_path). repeat split; try done.
  - cbn [load_file UTF8.decode].
    pose proof (text_lines_encodable _ (decoded_encodable bytes)) as Henc.
    destruct (load_lines_complete _ Henc hashes 0) as [Hcount Hin].
    pose proof (load_lines_grows (text_lines (UTF8.decoded (UTF8.scan bytes))) hashes 0)
      as Hgrow.
    destruct (load_lines (text_lines (UTF8.decoded (UTF8.scan bytes))) hashes 0)
      as [hashes' r].
    cbn [fst snd] in *. subst r.
    eexists hashes', _. split; [reflexivity |].
    split; [assumption |]. split; [discriminate |].
    intros bytes' [= <-]. split; [reflexivity | assumption].
Qed.

(** The whole run, from any starting state. *)
Lemma load_fold (fs : filesystem) (file_paths : list pystr) :
  forall (hashes : gset pystr) (out : list event),
  exists evs,
    snd (fold_left (load_source fs) file_paths (hashes, out)) = out ++ evs /\
    length evs = length file_paths /\
    hashes ⊆ fst (fold_left (load_source fs) file_paths (hashes, out)) /\
    (forall p, ~ In (WarnEncoding p) evs) /\
    forall file_path bytes,
      In file_path file_paths -> fs file_path = Contents bytes ->
      In (Loaded (len (List.filter kept (text_lines (UTF8.decoded (UTF8.scan bytes)))))
            file_path) evs /\
      forall line, In line (text_lines (UTF8.decoded (UTF8.scan bytes))) ->
        kept line = true ->
        exists h, hash_password (strip line) = Ok h /\
                  h ∈ fst (fold_left (load_source fs) file_paths (hashes, out)).
Proof.
  induction file_paths as [| p rest IH]; intros hashes out; cbn [fold_left].
  - exists []. rewrite app_nil_r.
    split; [reflexivity |]. split; [reflexivity |]. split; [done |].
    split; [intros p [] | intros file_path bytes []].
  - destruct (load_source_step fs hashes out p) as (hashes1 & ev & -> & Hsub & Hev & Hfile).
    destruct (IH hashes1 (out ++ [ev])) as (evs & Hout & Hlen & Hsub' & Hwarn & Hrest).
    exists (ev :: evs).
    split; [rewrite Hout, <- app_assoc; reflexivity |].
    split; [cbn [length]; lia |].
    split; [etransitivity; eassumption |].
    split.
    { intros q [-> | Hq]; [now apply (Hev q) | now apply (Hwarn q)]. }
    intros file_path bytes [<- | Hin] Hcontents.
    + destruct (Hfile bytes Hcontents) as [-> Hlines].
      split; [now left |].
      intros line Hline Hkept.
      destruct (Hlines line Hline Hkept) as (h & Hh & Hmem).
      exists h. split; [assumption | exact (elem_of_weaken _ _ _ Hmem Hsub')].
    + destruct (Hrest file_path bytes Hin Hcontents) as [Hloaded Hlines].
      split; [now right | assumption].
Qed.

End LoaderFacts.

(** ** The breach index (C2, C9) *)

Section IndexClaims.
Context {U : UnicodeData}.

(** C2.  Take any source that is read (its path is among the sources and
    names a readable file) and any of its lines that is loaded (trimmed,
    it is non-empty and does not start with '#').  Querying the index
    built from the sources with that trimmed line answers true: the line
    and the query go through the same [hash_password]. *)
Theorem C2_no_false_negatives (fs : filesystem) (file_paths : list pystr)
    (file_path : pystr) (bytes : list Z) (text line : pystr) :
  In file_path file_paths ->
  fs file_path = Contents bytes ->
  UTF8.decode UTF8.Ignore bytes = Ok text ->
  In line (text_lines text) ->
  kept line = true ->
  snd (is_common_password
         (PasswordChecker_init (fst (load_password_dictionaries fs file_paths)))
         (strip line)) = Ok true.
Proof.
  intros Hpath Hfile [= <-] Hline Hkept.
  unfold load_password_dictionaries.
  destruct (load_fold fs file_paths ∅ []) as (evs & _ & _ & _ & _ & Hsources).
  destruct (Hsources file_path bytes Hpath Hfile) as [_ Hlines].
  destruct (Hlines line Hline Hkept) as (h & Hh & Hmem).
  unfold is_common_password. cbn [snd common_password_hashes PasswordChecker_init].
  rewrite Hh. cbn [result_bind]. f_equal.
  now apply bool_decide_eq_true.
Qed.

(** The handler of [UnicodeDecodeError] is never reached.  For a source
    with bytes that are not UTF-8 no encoding warning is printed: the
    undecodable bytes are dropped, the source is reported as loaded with
    the number of its kept lines and the digest of each of them is in
    the index; every source gets its one report. *)
Lemma undecodable_bytes_dropped (fs : filesystem) (file_paths : list pystr)
    (file_path : pystr) (bytes : list Z) :
  In file_path file_paths ->
  fs file_path = Contents bytes ->
  UTF8.well_formed bytes = false ->
  (forall p, ~ In (WarnEncoding p) (snd (load_password_dictionaries fs file_paths))) /\
  length (snd (load_password_dictionaries fs file_paths)) = length file_paths /\
  exists text,
    UTF8.decode UTF8.Ignore bytes = Ok text /\
    In (Loaded (len (List.filter kept (text_lines text))) file_path)
       (snd (load_password_dictionaries fs file_paths)) /\
    forall line, In line (text_lines text) -> kept line = true ->
      exists h, hash_password (strip line) = Ok h /\
                h ∈ fst (load_password_dictionaries fs file_paths).
Proof.
  intros Hpath Hfile _.
  unfold load_password_dictionaries.
  destruct (load_fold fs file_paths ∅ []) as (evs & Hout & Hlen & _ & Hwarn & Hsources).
  rewrite Hout. cbn [app].
  split; [assumption |]. split; [assumption |].
  exists (UTF8.decoded (UTF8.scan bytes)). split; [reflexivity |].
  exact (Hsources file_path bytes Hpath Hfile).
Qed.

End IndexClaims.

Lemma C2_witness :
  snd (is_common_password
         (PasswordChecker_init
            (fst (@load_password_dictionaries ascii_only sample_fs [leaked_txt])))
         (@strip ascii_only (py "Xq7#vL2$pR9!kM4z" ++ [10]))) = Ok true.
Proof.
  apply (@C2_no_false_negatives ascii_only sample_fs [leaked_txt] leaked_txt leaked_bytes
           (py "Xq7#vL2$pR9!kM4z" ++ [10] ++ py "abc" ++ [10])
           (py "Xq7#vL2$pR9!kM4z" ++ [10])).
  - simpl. left. reflexivity.
  - vm_compute. reflexivity.
  - vm_compute. reflexivity.
  - vm_compute. left. reflexivity.
  - vm_compute. reflexivity.
Defined.

(** C9.  [leaked.txt] holds the line [b'\xffabc'], whose first byte is
    not UTF-8.  The loader was written to report such a source and skip
    it (its handler of [UnicodeDecodeError] prints the warning and
    continues), but the file is opened with [errors='ignore'], so the
    handler is never reached: the loader prints "Loaded 2" for the file
    and no warning, and the line is in the index as [abc]. *)
Theorem C9_bad_byte_source_loaded :
  UTF8.well_formed leaked_bytes = false /\
  snd (@load_password_dictionaries ascii_only sample_fs [leaked_txt])
    = [Loaded 2 leaked_txt] /\
  snd (is_common_password
         (PasswordChecker_init
            (fst (@load_password_dictionaries ascii_only sample_fs [leaked_txt])))
         (py "abc")) = Ok true /\
  ~ @undecodable_source_skipped ascii_only sample_fs [leaked_txt] leaked_txt leaked_bytes.
Proof.
  split; [vm_compute; reflexivity |].
  split; [vm_compute; reflexivity |].
  split; [vm_compute; reflexivity |].
  intros H.
  destruct H as [Hwarn _].
  - simpl. left. reflexivity.
  - vm_compute. reflexivity.
  - vm_compute. reflexivity.
  - vm_compute in Hwarn. destruct Hwarn as [Hwarn | []]. discriminate Hwarn.
Qed.

(** ** The analysis result (C1) *)

Section AnalyzerFacts.
Context {U : UnicodeData}.
Variable zxcvbn : pystr -> zxcvbn_result.

(** What [analyze] returns when the candidate can be encoded. *)
Lemma analyze_ok (self : PasswordAnalyzer) (password : pystr) (checker : PasswordChecker)
    (h : pystr) (e : R) :
  hash_password password = Ok h ->
  calculate_entropy password = Ok e ->
  analyze zxcvbn self password checker =
    ({| _analysis_count := _analysis_count self + 1 |},
     {| common_password_hashes := common_password_hashes checker;
        _check_count := _check_count checker + 1 |},
     Ok {| password_length := len password;
           score := zx_score (zxcvbn password);
           is_common := bool_decide (h ∈ common_password_hashes checker);
           hash := h;
           feedback :=
             _generate_feedback password (zxcvbn password)
               (bool_decide (h ∈ common_password_hashes checker)) e;
           entropy := e;
           crack_times := default [] (zx_crack_times_display (zxcvbn password));
           sequence_info := default [] (zx_sequence (zxcvbn password));
           pattern_matches := _extract_pattern_info (zxcvbn password) |}).
Proof.
  intros Hh He. unfold analyze, is_common_password.
  rewrite Hh, He. reflexivity.
Qed.

(** The score of the result is the oracle's, whatever the breach flag. *)
Lemma analyze_score (self : PasswordAnalyzer) (password : pystr) (checker : PasswordChecker)
    (self' : PasswordAnalyzer) (checker' : PasswordChecker) (a : analysis) :
  analyze zxcvbn self password checker = (self', checker', Ok a) ->
  score a = zx_score (zxcvbn password).
Proof.
  unfold analyze, is_common_password.
  destruct (hash_password password) as [h | e]; [| discriminate].
  destruct (calculate_entropy password) as [ent | e]; [| discriminate].
  cbn. intros [= _ _ <-]. reflexivity.
Qed.

(** The helper of [utils/crypto.py], which [analyze] does not call, does
    put a breached candidate at 0. *)
Lemma calculate_password_strength_score_breached (entropy : R) :
  calculate_password_strength_score entropy true = 0.
Proof. reflexivity. Qed.

End AnalyzerFacts.

(** C1 (evaluation at the failing input).  The candidate
    ["Xq7#vL2$pR9!kM4z"] is a line of the dictionary [leaked.txt] and
    the oracle rates it 4: the analysis result says breached and carries
    the score 4, not 0. *)
Theorem C1_breached_candidate_keeps_oracle_score :
  exists self' checker' a,
    @analyze ascii_only oracle_four PasswordAnalyzer_init (py "Xq7#vL2$pR9!kM4z")
      (PasswordChecker_init
         (fst (@load_password_dictionaries ascii_only sample_fs [leaked_txt])))
    = (self', checker', Ok a)
    /\ is_common a = true
    /\ score a = 4.
Proof.
  destruct (@calculate_entropy_total ascii_only (py "Xq7#vL2$pR9!kM4z")) as [e He].
  eexists _, _, _. split.
  - apply analyze_ok; [vm_compute; reflexivity | exact He].
  - cbn [is_common score]. split; vm_compute; reflexivity.
Qed.

(** ** The random source *)

Lemma gen_bind_ok {A B : Type} (c : Gen A) (k : A -> Gen B) (s s' : rng_stream) (a : A) :
  c s = (s', Ok a) -> gen_bind c k s = k a s'.
Proof. intros H. unfold gen_bind. now rewrite H. Qed.

Lemma randbelow_ok (n : Z) (s : rng_stream) :
  0 < n -> exists r, randbelow n s = (rest_of s, Ok r) /\ 0 <= r < n.
Proof.
  intros Hn. exists (Z.of_nat (s O) mod n). split; [reflexivity |].
  apply Z.mod_pos_bound, Hn.
Qed.

Lemma choice_ok {A : Type} (seq : list A) (s : rng_stream) :
  truthy seq = true ->
  exists x, choice seq s = (rest_of s, Ok x) /\ In x seq.
Proof.
  intros Hseq. destruct seq as [| y ys]; [discriminate |].
  unfold choice.
  destruct (randbelow_ok (len (y :: ys)) s) as (r & Hr & Hrange).
  { unfold len. cbn [length]. lia. }
  rewrite (gen_bind_ok _ _ _ _ _ Hr).
  destruct (lookup_lt_is_Some_2 (y :: ys) (Z.to_nat r)) as [x Hx].
  { unfold len in Hrange. lia. }
  rewrite Hx. exists x. split; [reflexivity |].
  apply list_elem_of_In. eapply list_elem_of_lookup_2, Hx.
Qed.

Lemma replicate_gen_ok {A : Type} (P : A -> Prop) (c : Gen A) :
  (forall s, exists x s', c s = (s', Ok x) /\ P x) ->
  forall (n : nat) (s : rng_stream),
    exists xs s', replicate_gen n c s = (s', Ok xs) /\ length xs = n /\ Forall P xs.
Proof.
  intros Hc. induction n as [| n IH]; intros s; cbn [replicate_gen].
  - exists [], s. repeat split. constructor.
  - destruct (Hc s) as (x & s1 & Hx & HP).
    destruct (IH s1) as (xs & s2 & Hxs & Hlen & Hall).
    exists (x :: xs), s2.
    rewrite (gen_bind_ok _ _ _ _ _ Hx), (gen_bind_ok _ _ _ _ _ Hxs).
    repeat split; [cbn [length]; lia | now constructor].
Qed.

(** Writing at an index puts the old element out and the new one in. *)
Lemma insert_swaps_out {A : Type} (l : list A) (i : nat) (a b : A) :
  l !! i = Some a -> Permutation (a :: <[i := b]> l) (b :: l).
Proof.
  revert i. induction l as [| y l IH]; intros i Hi; [discriminate |].
  destruct i as [| i]; cbn in Hi |- *.
  - injection Hi as ->. apply perm_swap.
  - rewrite perm_swap. rewrite (IH i Hi). apply perm_swap.
Qed.

Lemma swap_ok {A : Type} (x : list A) (i j : nat) :
  (i < length x)%nat -> (j < length x)%nat ->
  exists x', swap x i j = Ok x' /\ Permutation x' x.
Proof.
  intros Hi Hj. unfold swap.
  destruct (lookup_lt_is_Some_2 x i Hi) as [xi Hxi].
  destruct (lookup_lt_is_Some_2 x j Hj) as [xj Hxj].
  rewrite Hxi, Hxj. eexists. split; [reflexivity |].
  assert (Hj' : <[i := xj]> x !! j = Some xj).
  { destruct (decide (i = j)) as [-> | Hne].
    - now apply list_lookup_insert_eq.
    - now rewrite list_lookup_insert_ne. }
  apply (Permutation_cons_inv (a := xj)).
  rewrite (insert_swaps_out _ j xj xi Hj').
  apply (insert_swaps_out x i xi xj Hxi).
Qed.

Lemma shuffle_loop_ok {A : Type} (k : nat) :
  forall (x : list A) (s : rng_stream),
    (k < length x)%nat \/ k = O ->
    exists x' s', shuffle_loop k x s = (s', Ok x') /\ Permutation x' x.
Proof.
  induction k as [| k IH]; intros x s Hk; cbn [shuffle_loop].
  - exists x, s. split; reflexivity.
  - destruct Hk as [Hk | Hk]; [| discriminate].
    destruct (randbelow_ok (Z.of_nat (S k) + 1) s) as (j & Hj & Hrange); [lia |].
    rewrite (gen_bind_ok _ _ _ _ _ Hj).
    destruct (swap_ok x (S k) (Z.to_nat j)) as (x1 & Hswap & Hperm); [lia | lia |].
    unfold gen_bind at 1, gen_lift. rewrite Hswap.
    destruct (IH x1 (rest_of s)) as (x2 & s2 & Hloop & Hperm2).
    { left. rewrite (Permutation_length Hperm). lia. }
    exists x2, s2. split; [assumption |]. now rewrite Hperm2.
Qed.

Lemma shuffle_ok {A : Type} (x : list A) (s : rng_stream) :
  exists x' s', shuffle x s = (s', Ok x') /\ Permutation x' x.
Proof.
  unfold shuffle. apply shuffle_loop_ok.
  destruct x as [| y ys]; [now right |]. left. cbn [length]. lia.
Qed.

Lemma randint_ok (a b : Z) (s : rng_stream) :
  a <= b -> exists n, randint a b s = (rest_of s, Ok n) /\ a <= n <= b.
Proof.
  intros Hab. unfold randint.
  destruct (Z.leb_spec (b - a + 1) 0); [lia |].
  destruct (randbelow_ok (b - a + 1) s) as (r & Hr & Hrange); [lia |].
  rewrite (gen_bind_ok _ _ _ _ _ Hr).
  exists (a + r). split; [reflexivity | lia].
Qed.

Lemma str_of_digit (d : Z) : 0 <= d <= 9 -> str_of_int d = [48 + d].
Proof.
  intros Hd.
  assert (H : d = 0 \/ d = 1 \/ d = 2 \/ d = 3 \/ d = 4 \/ d = 5 \/ d = 6
              \/ d = 7 \/ d = 8 \/ d = 9) by lia.
  repeat (destruct H as [-> | H]; [reflexivity |]). subst d. reflexivity.
Qed.

(** ** The generators (C6, C7, C10) *)

Lemma generate_mixed_ok (length : Z) (s : rng_stream) :
  4 <= length ->
  exists password s' c1 c2 c3 c4 rest,
    generate_mixed length s = (s', Ok password) /\
    Permutation password ([c1; c2; c3; c4] ++ rest) /\
    In c1 ascii_lowercase /\ In c2 ascii_uppercase /\
    In c3 digits /\ In c4 punctuation /\
    List.length rest = Z.to_nat (length - 4) /\
    Forall (fun c => In c mixed_charset) rest.
Proof.
  intros Hlen. unfold generate_mixed.
  destruct (Z.ltb_spec length 4); [lia |].
  destruct (choice_ok ascii_lowercase s eq_refl) as (c1 & H1 & Hc1).
  destruct (choice_ok ascii_uppercase (rest_of s) eq_refl) as (c2 & H2 & Hc2).
  destruct (choice_ok digits (rest_of (rest_of s)) eq_refl) as (c3 & H3 & Hc3).
  destruct (choice_ok punctuation (rest_of (rest_of (rest_of s))) eq_refl)
    as (c4 & H4 & Hc4).
  destruct (replicate_gen_ok (fun c => In c mixed_charset) (choice mixed_charset))
    with (n := range_count (length - 4)) (s := rest_of (rest_of (rest_of (rest_of s))))
    as (rest & s5 & Hrest & Hcount & Hall).
  { intros s0. destruct (choice_ok mixed_charset s0 eq_refl) as (x & Hx & Hin). eauto. }
  destruct (shuffle_ok ([c1; c2; c3; c4] ++ rest) s5) as (password & s6 & Hsh & Hperm).
  exists password, s6, c1, c2, c3, c4, rest.
  rewrite (gen_bind_ok _ _ _ _ _ H1), (gen_bind_ok _ _ _ _ _ H2),
    (gen_bind_ok _ _ _ _ _ H3), (gen_bind_ok _ _ _ _ _ H4).
  rewrite (gen_bind_ok _ _ _ _ _ Hrest), (gen_bind_ok _ _ _ _ _ Hsh).
  repeat split; assumption.
Qed.

Lemma generate_alphanumeric_ok (length : Z) (s : rng_stream) :
  2 <= length ->
  exists password s' c1 c2 rest,
    generate_alphanumeric length s = (s', Ok password) /\
    Permutation password ([c1; c2] ++ rest) /\
    In c1 ascii_letters /\ In c2 digits /\
    List.length rest = Z.to_nat (length - 2) /\
    Forall (fun c => In c (ascii_letters ++ digits)) rest.
Proof.
  intros Hlen. unfold generate_alphanumeric.
  destruct (Z.ltb_spec length 2); [lia |].
  destruct (choice_ok ascii_letters s eq_refl) as (c1 & H1 & Hc1).
  destruct (choice_ok digits (rest_of s) eq_refl) as (c2 & H2 & Hc2).
  destruct (replicate_gen_ok (fun c => In c (ascii_letters ++ digits))
              (choice (ascii_letters ++ digits)))
    with (n := range_count (length - 2)) (s := rest_of (rest_of s))
    as (rest & s3 & Hrest & Hcount & Hall).
  { intros s0.
    destruct (choice_ok (ascii_letters ++ digits) s0 eq_refl) as (x & Hx & Hin). eauto. }
  destruct (shuffle_ok ([c1; c2] ++ rest) s3) as (password & s4 & Hsh & Hperm).
  exists password, s4, c1, c2, rest.
  rewrite (gen_bind_ok _ _ _ _ _ H1), (gen_bind_ok _ _ _ _ _ H2),
    (gen_bind_ok _ _ _ _ _ Hrest), (gen_bind_ok _ _ _ _ _ Hsh).
  repeat split; assumption.
Qed.

(** C6.  For a length of at least 4 and any stream of random draws,
    [generate_mixed] returns a string of exactly that many characters,
    all from letters, digits and punctuation, with a lowercase letter,
    an uppercase letter, a digit and a punctuation character among them:
    the shuffle only permutes. *)
Theorem C6_generate_mixed_classes (length : Z) (s : rng_stream) :
  4 <= length ->
  exists password s',
    generate_mixed length s = (s', Ok password) /\
    len password = length /\
    Forall (fun c => In c (ascii_letters ++ digits ++ punctuation)) password /\
    (exists c, In c password /\ In c ascii_lowercase) /\
    (exists c, In c password /\ In c ascii_uppercase) /\
    (exists c, In c password /\ In c digits) /\
    (exists c, In c password /\ In c punctuation).
Proof.
  intros Hlen.
  destruct (generate_mixed_ok length s Hlen)
    as (password & s' & c1 & c2 & c3 & c4 & rest
        & Hrun & Hperm & Hc1 & Hc2 & Hc3 & Hc4 & Hcount & Hall).
  exists password, s'. split; [assumption |].
  assert (Hin : forall c, In c ([c1; c2; c3; c4] ++ rest) -> In c password).
  { intros c Hc. eapply Permutation_in; [symmetry; exact Hperm | exact Hc]. }
  split.
  { unfold len. rewrite (Permutation_length Hperm). cbn [Datatypes.length app]. lia. }
  split.
  { eapply Permutation_Forall; [symmetry; exact Hperm |].
    change (Forall (fun c => In c mixed_charset) ([c1; c2; c3; c4] ++ rest)).
    cbn [app].
    do 4 (constructor; [unfold mixed_charset, ascii_letters; rewrite !in_app_iff; auto |]).
    assumption. }
  repeat split.
  - exists c1. split; [apply Hin; cbn; auto | assumption].
  - exists c2. split; [apply Hin; cbn; auto | assumption].
  - exists c3. split; [apply Hin; cbn; auto | assumption].
  - exists c4. split; [apply Hin; cbn; auto | assumption].
Qed.

(** C7.  [generate_mixed] raises its [ValueError] exactly below length 4
    and [generate_alphanumeric] exactly below length 2; otherwise each
    returns a password.  So lengths 4 and 4 succeed, lengths 3 and 1
    raise, and a raising call returns no password. *)
Theorem C7_minimum_lengths (length : Z) (s : rng_stream) :
  (snd (generate_mixed length s)
     = Raise (ValueError "Password length must be at least 4") <-> length < 4) /\
  ((exists password, snd (generate_mixed length s) = Ok password) <-> 4 <= length) /\
  (snd (generate_alphanumeric length s)
     = Raise (ValueError "Password length must be at least 2") <-> length < 2) /\
  ((exists password, snd (generate_alphanumeric length s) = Ok password) <-> 2 <= length) /\
  (exists password, snd (generate_mixed 4 s) = Ok password) /\
  (exists password, snd (generate_alphanumeric 4 s) = Ok password) /\
  raises (snd (generate_mixed 3 s)) /\
  raises (snd (generate_alphanumeric 1 s)).
Proof.
  assert (Hmixed : forall n, 4 <= n -> exists password, snd (generate_mixed n s) = Ok password).
  { intros n Hn.
    destruct (generate_mixed_ok n s Hn) as (password & s' & ? & ? & ? & ? & ? & Hrun & _).
    exists password. now rewrite Hrun. }
  assert (Halnum : forall n, 2 <= n ->
            exists password, snd (generate_alphanumeric n s) = Ok password).
  { intros n Hn.
    destruct (generate_alphanumeric_ok n s Hn) as (password & s' & ? & ? & ? & Hrun & _).
    exists password. now rewrite Hrun. }
  assert (Hmixed_low : forall n, n < 4 ->
            snd (generate_mixed n s)
            = Raise (ValueError "Password length must be at least 4")).
  { intros n Hn. unfold generate_mixed. destruct (Z.ltb_spec n 4); [reflexivity | lia]. }
  assert (Halnum_low : forall n, n < 2 ->
            snd (generate_alphanumeric n s)
            = Raise (ValueError "Password length must be at least 2")).
  { intros n Hn. unfold generate_alphanumeric.
    destruct (Z.ltb_spec n 2); [reflexivity | lia]. }
  repeat split.
  - intros Hraise. destruct (Z.lt_ge_cases length 4) as [Hlt | Hge]; [assumption |].
    destruct (Hmixed length Hge) as [password Hok]. congruence.
  - apply Hmixed_low.
  - intros [password Hok]. destruct (Z.lt_ge_cases length 4) as [Hlt | Hge]; [| assumption].
    rewrite (Hmixed_low length Hlt) in Hok. discriminate.
  - apply Hmixed.
  - intros Hraise. destruct (Z.lt_ge_cases length 2) as [Hlt | Hge]; [assumption |].
    destruct (Halnum length Hge) as [password Hok]. congruence.
  - apply Halnum_low.
  - intros [password Hok]. destruct (Z.lt_ge_cases length 2) as [Hlt | Hge]; [| assumption].
    rewrite (Halnum_low length Hlt) in Hok. discriminate.
  - apply Halnum.
  - apply Hmixed. lia.
  - apply Halnum. lia.
  - eexists. apply Hmixed_low. lia.
  - eexists. apply Halnum_low. lia.
Qed.

(** C10.  [generate_pin] checks no minimum: for every integer length and
    every stream it returns, never raising, a string of [max(length, 0)]
    characters, each a decimal digit; so for a length of 0 or less the
    string is empty. *)
Theorem C10_generate_pin_unchecked (length : Z) (s : rng_stream) :
  exists pin s',
    generate_pin length s = (s', Ok pin) /\
    len pin = Z.max length 0 /\
    Forall (fun c => In c digits) pin /\
    (length <= 0 -> pin = []).
Proof.
  unfold generate_pin.
  destruct (replicate_gen_ok (fun part => exists d, 0 <= d <= 9 /\ part = [48 + d])
              (do d <- randint 0 9; gen_ret (str_of_int d)))
    with (n := range_count length) (s := s)
    as (parts & s' & Hparts & Hcount & Hall).
  { intros s0. destruct (randint_ok 0 9 s0) as (d & Hd & Hrange); [lia |].
    exists (str_of_int d), (rest_of s0).
    rewrite (gen_bind_ok _ _ _ _ _ Hd). split; [reflexivity |].
    exists d. split; [assumption | now apply str_of_digit]. }
  rewrite (gen_bind_ok _ _ _ _ _ Hparts).
  exists (concat parts), s'. split; [reflexivity |].
  assert (Hshape : List.length (concat parts) = List.length parts
                   /\ Forall (fun c => In c digits) (concat parts)).
  { clear Hparts Hcount. induction Hall as [| part parts (d & Hd & ->) _ [IHlen IHall]].
    - split; [reflexivity | constructor].
    - cbn [concat app Datatypes.length]. split; [now rewrite IHlen |].
      constructor; [| assumption].
      assert (H : d = 0 \/ d = 1 \/ d = 2 \/ d = 3 \/ d = 4 \/ d = 5 \/ d = 6
                  \/ d = 7 \/ d = 8 \/ d = 9) by lia.
      repeat (destruct H as [-> | H]; [cbn; tauto |]). subst d. cbn. tauto. }
  destruct Hshape as [Hlen Hdigits].
  split; [unfold len, range_count, pystr, pychar in *; lia |].
  split; [assumption |].
  intros Hle. unfold range_count in Hcount.
  replace (Z.to_nat length) with O in Hcount by lia.
  destruct parts; [reflexivity | discriminate].
Qed.

Lemma C6_witness :
  exists password s',
    generate_mixed 16 sample_stream = (s', Ok password) /\
    len password = 16 /\
    Forall (fun c => In c (ascii_letters ++ digits ++ punctuation)) password /\
    (exists c, In c password /\ In c ascii_lowercase) /\
    (exists c, In c password /\ In c ascii_uppercase) /\
    (exists c, In c password /\ In c digits) /\
    (exists c, In c password /\ In c punctuation).
Proof.
  apply (C6_generate_mixed_classes 16 sample_stream). lia.
Defined.

(** ** The passphrase word count (C8) *)

Lemma ceilR_ge (x : R) : (x <= IZR (ceilR x))%R.
Proof.
  unfold ceilR. rewrite opp_IZR.
  destruct (base_Int_part (- x)) as [Hle _]. lra.
Qed.

Lemma ceilR_lt (x : R) : (IZR (ceilR x) < x + 1)%R.
Proof.
  unfold ceilR. rewrite opp_IZR.
  destruct (base_Int_part (- x)) as [_ Hgt]. lra.
Qed.

(** The ceiling of a real number strictly between [n] and [n + 1]. *)
Lemma ceilR_between (x : R) (n : Z) : (IZR n < x <= IZR n + 1)%R -> ceilR x = n + 1.
Proof.
  intros [Hlo Hhi].
  pose proof (ceilR_ge x) as Hge. pose proof (ceilR_lt x) as Hlt.
  assert (H1 : (IZR n < IZR (ceilR x))%R) by lra.
  assert (H2 : (IZR (ceilR x) < IZR (n + 2))%R) by (rewrite plus_IZR; lra).
  apply lt_IZR in H1, H2. lia.
Qed.

(** *** Where [ln 2] and [ln 3] lie *)

Lemma IZR_div_le (a d : Z) : 0 < d -> (IZR (a / d) <= IZR a / IZR d)%R.
Proof.
  intros Hd.
  assert (Hd' : (0 < IZR d)%R) by now apply IZR_lt.
  apply Rmult_le_reg_r with (IZR d); [exact Hd' |].
  unfold Rdiv. rewrite Rmult_assoc, Rinv_l, Rmult_1_r by lra.
  rewrite <- mult_IZR. apply IZR_le.
  pose proof (Z.mul_div_le a d Hd). lia.
Qed.

Lemma square_down_le (prec u : Z) (x : R) :
  0 <= prec -> 0 <= u -> (IZR u / IZR (2 ^ prec) <= x)%R ->
  0 <= square_down prec u /\
  (IZR (square_down prec u) / IZR (2 ^ prec) <= x * x)%R.
Proof.
  intros Hp Hu Hx.
  assert (Hpos : 0 < 2 ^ prec) by (apply Z.pow_pos_nonneg; lia).
  assert (HposR : (0 < IZR (2 ^ prec))%R) by now apply IZR_lt.
  split; [unfold square_down; apply Z.div_pos; nia |].
  assert (H0 : (0 <= IZR u / IZR (2 ^ prec))%R).
  { apply Rmult_le_pos; [now apply IZR_le | left; now apply Rinv_0_lt_compat]. }
  apply Rle_trans with (IZR u / IZR (2 ^ prec) * (IZR u / IZR (2 ^ prec)))%R.
  - apply Rmult_le_reg_r with (IZR (2 ^ prec)); [exact HposR |].
    pose proof (IZR_div_le (u * u) (2 ^ prec) Hpos) as Hdiv.
    rewrite mult_IZR in Hdiv. unfold square_down.
    replace (IZR u / IZR (2 ^ prec) * (IZR u / IZR (2 ^ prec)) * IZR (2 ^ prec))%R
      with (IZR u * IZR u / IZR (2 ^ prec))%R by (field; lra).
    unfold Rdiv at 1. rewrite Rmult_assoc, Rinv_l, Rmult_1_r by lra.
    exact Hdiv.
  - apply Rmult_le_compat; assumption.
Qed.

Lemma squarings_le (prec : Z) (k : nat) : 0 <= prec ->
  forall (u : Z) (y : R),
    0 <= u -> (IZR u / IZR (2 ^ prec) <= exp (y / 2 ^ k))%R ->
    (IZR (squarings prec k u) / IZR (2 ^ prec) <= exp y)%R.
Proof.
  intros Hp. induction k as [| k IH]; intros u y Hu Hle.
  - cbn [squarings]. replace y with (y / 2 ^ 0)%R by (simpl; field). exact Hle.
  - cbn [squarings].
    destruct (square_down_le prec u _ Hp Hu Hle) as [Hsq Hsq_le].
    apply IH; [exact Hsq |].
    rewrite <- exp_plus in Hsq_le.
    replace (y / 2 ^ k)%R with (y / 2 ^ S k + y / 2 ^ S k)%R; [exact Hsq_le |].
    assert (H2 : (2 ^ k <> 0)%R) by (apply pow_nonzero; lra).
    simpl. field. exact H2.
Qed.

Lemma exp_lower_le (prec : Z) (k : nat) (num den : Z) :
  0 <= prec -> 0 < den -> 0 <= den * 2 ^ Z.of_nat k + num ->
  (IZR (exp_lower prec k num den) / IZR (2 ^ prec) <= exp (IZR num / IZR den))%R.
Proof.
  intros Hp Hden Hnum. unfold exp_lower.
  set (d := den * 2 ^ Z.of_nat k).
  assert (H2k : 0 < 2 ^ Z.of_nat k) by (apply Z.pow_pos_nonneg; lia).
  assert (Hd : 0 < d) by (subst d; nia).
  assert (Hpos : 0 < 2 ^ prec) by (apply Z.pow_pos_nonneg; lia).
  assert (HposR : (0 < IZR (2 ^ prec))%R) by now apply IZR_lt.
  assert (HdR : (0 < IZR d)%R) by now apply IZR_lt.
  assert (HdenR : (0 < IZR den)%R) by now apply IZR_lt.
  apply squarings_le; [exact Hp | apply Z.div_pos; nia |].
  apply Rle_trans with (1 + IZR num / IZR den / 2 ^ k)%R; [| apply exp_ineq1_le].
  pose proof (IZR_div_le (2 ^ prec * (d + num)) d Hd) as Hdiv.
  rewrite mult_IZR, plus_IZR in Hdiv.
  apply Rmult_le_reg_r with (IZR (2 ^ prec)); [exact HposR |].
  unfold Rdiv at 1. rewrite Rmult_assoc, Rinv_l, Rmult_1_r by lra.
  eapply Rle_trans; [exact Hdiv |].
  assert (E : IZR d = (IZR den * 2 ^ k)%R).
  { subst d. rewrite mult_IZR, <- pow_IZR. reflexivity. }
  assert (H2 : (2 ^ k <> 0)%R) by (apply pow_nonzero; lra).
  right. rewrite E. field. split; lra.
Qed.

(** [exp] of a fraction is above a number as soon as its lower bound
    is. *)
Lemma exp_above (x num den : Z) :
  0 < den -> 0 <= den * 2 ^ 80 + num ->
  x * 2 ^ 200 < exp_lower 200 80 num den ->
  (IZR x < exp (IZR num / IZR den))%R.
Proof.
  intros Hden Hnum Hlt.
  eapply Rlt_le_trans; [| apply (exp_lower_le 200 80); [lia | exact Hden | exact Hnum]].
  apply Rmult_lt_reg_r with (IZR (2 ^ 200)); [apply IZR_lt; reflexivity |].
  unfold Rdiv. rewrite Rmult_assoc, Rinv_l, Rmult_1_r
    by (apply not_0_IZR; discriminate).
  rewrite <- mult_IZR. now apply IZR_lt.
Qed.

(** [ln x < num / den] as soon as [x < exp (num / den)] is seen on the
    lower bound. *)
Lemma ln_below (x num den : Z) :
  0 < x -> 0 < den -> 0 <= den * 2 ^ 80 + num ->
  x * 2 ^ 200 < exp_lower 200 80 num den ->
  (ln (IZR x) < IZR num / IZR den)%R.
Proof.
  intros Hx Hden Hnum Hlt.
  rewrite <- (ln_exp (IZR num / IZR den)).
  apply ln_increasing; [now apply IZR_lt | now apply exp_above].
Qed.

Lemma above_one (x e p b : R) :
  (0 < p)%R -> (0 < x)%R -> (e / p <= b)%R -> (p < x * e)%R -> (1 < x * b)%R.
Proof.
  intros Hp Hx Hle Hlt.
  assert (H1 : (x * (e / p) <= x * b)%R) by (apply Rmult_le_compat_l; lra).
  assert (H2 : (1 < x * (e / p))%R).
  { apply Rmult_lt_reg_r with p; [exact Hp |].
    replace (x * (e / p) * p)%R with (x * e)%R by (field; lra). lra. }
  lra.
Qed.

(** [num / den < ln x] as soon as [1 / x < exp (- num / den)] is seen on
    the lower bound. *)
Lemma ln_above (x num den : Z) :
  0 < x -> 0 < den -> 0 <= den * 2 ^ 80 - num ->
  2 ^ 200 < x * exp_lower 200 80 (- num) den ->
  (IZR num / IZR den < ln (IZR x))%R.
Proof.
  intros Hx Hden Hnum Hlt.
  assert (HxR : (0 < IZR x)%R) by now apply IZR_lt.
  assert (HdenR : (0 < IZR den)%R) by now apply IZR_lt.
  assert (Hinv : (1 < IZR x * exp (IZR (- num) / IZR den))%R).
  { apply above_one with (e := IZR (exp_lower 200 80 (- num) den)) (p := IZR (2 ^ 200)).
    - apply IZR_lt. reflexivity.
    - exact HxR.
    - apply (exp_lower_le 200 80); [lia | exact Hden |].
      change (Z.of_nat 80) with 80. lia.
    - rewrite <- mult_IZR. now apply IZR_lt. }
  rewrite <- (ln_exp (IZR num / IZR den)).
  apply ln_increasing; [apply exp_pos |].
  assert (Hone : (exp (IZR num / IZR den) * exp (IZR (- num) / IZR den) = 1)%R).
  { rewrite <- exp_plus, opp_IZR.
    replace (IZR num / IZR den + - IZR num / IZR den)%R with 0%R by (field; lra).
    apply exp_0. }
  apply Rmult_lt_reg_r with (exp (IZR (- num) / IZR den)); [apply exp_pos |].
  rewrite Hone. exact Hinv.
Qed.

Lemma ln2_bounds :
  (IZR ln2_below / IZR ln_scale < ln 2 < IZR ln2_above / IZR ln_scale_10)%R.
Proof.
  split.
  - apply (ln_above 2); vm_compute; congruence.
  - apply (ln_below 2); vm_compute; congruence.
Qed.

Lemma ln3_bounds :
  (IZR ln3_below / IZR ln_scale_10 < ln 3 < IZR ln3_above / IZR ln_scale)%R.
Proof.
  split.
  - apply (ln_above 3); vm_compute; congruence.
  - apply (ln_below 3); vm_compute; congruence.
Qed.

Lemma ln_7776 : ln 7776 = (5 * ln 2 + 5 * ln 3)%R.
Proof.
  replace 7776%R with (2 ^ 5 * 3 ^ 5)%R by (simpl; lra).
  rewrite ln_mult by (apply pow_lt; lra).
  rewrite !ln_pow by lra. simpl. lra.
Qed.

(** The quotient of 305576017 by [log2 7776] lies strictly between
    23642588 and 23642589. *)
Lemma quotient_305576017 :
  (23642588 * log2R 7776 < 305576017 < 23642589 * log2R 7776)%R.
Proof.
  pose proof ln2_bounds as [H2lo H2hi]. pose proof ln3_bounds as [H3lo H3hi].
  unfold ln3_above, ln3_below, ln2_above, ln2_below, ln_scale, ln_scale_10 in *.
  replace (IZR (10 ^ 19)) with 10000000000000000000%R in * by (vm_compute; reflexivity).
  replace (IZR (10 ^ 10)) with 10000000000%R in * by (vm_compute; reflexivity).
  assert (Hln2 : (0 < ln 2)%R) by lra.
  unfold log2R. rewrite ln_7776. split.
  - apply Rmult_lt_reg_r with (ln 2); [exact Hln2 |].
    replace (23642588 * ((5 * ln 2 + 5 * ln 3) / ln 2) * ln 2)%R
      with (118212940 * ln 2 + 118212940 * ln 3)%R by (field; lra).
    lra.
  - apply Rmult_lt_reg_r with (ln 2); [exact Hln2 |].
    replace (23642589 * ((5 * ln 2 + 5 * ln 3) / ln 2) * ln 2)%R
      with (118212945 * ln 2 + 118212945 * ln 3)%R by (field; lra).
    lra.
Qed.

Lemma log2R_7776_pos : (0 < log2R 7776)%R.
Proof. apply log2R_pos. lra. Qed.

(** *** The count in binary64 *)

(** 52 bits: 5 words of the large list, 10 of the fallback list. *)
Example words_needed_52 : @words_needed sample_libm generator_7776 52 = Ok 5.
Proof. vm_compute. reflexivity. Qed.

Example words_needed_fallback_52 : @words_needed sample_libm fallback_generator 52 = Ok 10.
Proof. vm_compute. reflexivity. Qed.

(** An entropy that no float holds. *)
Example words_needed_overflow :
  @words_needed sample_libm generator_7776 (2 ^ 1024)
  = Raise (OverflowError "int too large to convert to float").
Proof. vm_compute. reflexivity. Qed.

(** [words_needed] returns at least 3, and only for a wordlist that is
    not empty. *)
Lemma words_needed_inv {L : Libm} (self : PasswordGenerator) (entropy count : Z) :
  words_needed self entropy = Ok count ->
  3 <= count /\ truthy (eff_words self) = true.
Proof.
  unfold words_needed, math_log2_of_len.
  destruct (eff_words self) as [| w ws]; [discriminate |].
  destruct (Z.leb_spec (len (w :: ws)) 0) as [Hle | _];
    [unfold len in Hle; cbn [length] in Hle; lia |].
  cbn [result_bind].
  destruct (truediv entropy _) as [q | e]; [| discriminate]. cbn [result_bind].
  destruct (math_ceil q) as [c | e]; [| discriminate]. cbn [result_bind].
  intros [= <-]. split; [lia | reflexivity].
Qed.

(** Once the number of words is fixed nothing raises: the words are
    drawn, capitalized on request, joined, and followed on request by a
    number from 10 to 99. *)
Lemma generate_passphrase_ok {U : UnicodeData} {L : Libm} (self : PasswordGenerator)
    (entropy count : Z) (separator : pystr) (capitalize add_number : bool)
    (s : rng_stream) :
  words_needed self entropy = Ok count ->
  exists words s',
    draw_words self entropy s = (s', Ok words) /\
    len words = count /\
    Forall (fun w => In w (eff_words self)) words /\
    exists suffix s'',
      generate_passphrase self entropy separator capitalize add_number s
      = (s'', Ok (join separator
                    (if capitalize then map ucd_capitalize words else words)
                  ++ suffix)) /\
      if add_number
      then exists n, 10 <= n <= 99 /\ suffix = str_of_int n
      else suffix = [].
Proof.
  intros Hcount.
  destruct (words_needed_inv self entropy count Hcount) as [Hmin Hwords].
  destruct (replicate_gen_ok (fun w => In w (eff_words self)) (choice (eff_words self)))
    with (n := range_count count) (s := s) as (words & s' & Hdraw & Hlen & Hall).
  { intros s0. destruct (choice_ok (eff_words self) s0 Hwords) as (w & Hw & Hin). eauto. }
  assert (Hrun : draw_words self entropy s = (s', Ok words)).
  { unfold draw_words, gen_bind at 1, gen_lift. rewrite Hcount. exact Hdraw. }
  exists words, s'. split; [exact Hrun |].
  split; [unfold len; rewrite Hlen; unfold range_count; lia |].
  split; [exact Hall |].
  unfold generate_passphrase. rewrite (gen_bind_ok _ _ _ _ _ Hrun).
  destruct add_number.
  - destruct (randint_ok 10 99 s') as (n & Hrand & Hrange); [lia |].
    rewrite (gen_bind_ok _ _ _ _ _ Hrand).
    exists (str_of_int n), (rest_of s'). split; [reflexivity | eauto].
  - exists [], s'. rewrite app_nil_r. split; reflexivity.
Qed.

(** C8.  With a wordlist of 7776 words, the size of the EFF list, and
    305576017 bits asked for, [generate_passphrase] draws 23642588
    words, whatever the random draws: the quotient
    305576017 / log2(7776) is a little above 23642588, the float
    division rounds it to 23642588.0 and [math.ceil] has nothing left
    to round up.  The words of the passphrase are worth less than the
    bits asked for, and the count of the specification, the ceiling of
    the exact quotient, is 23642589. *)
Theorem C8_passphrase_one_word_short :
  @words_needed sample_libm generator_7776 305576017 = Ok 23642588 /\
  (forall s, exists words s' number s'',
     @draw_words sample_libm generator_7776 305576017 s = (s', Ok words) /\
     @generate_passphrase ascii_only sample_libm generator_7776 305576017 (py "-")
       true true s
     = (s'', Ok (join (py "-") (map ascii_capitalize words) ++ str_of_int number)) /\
     len words = 23642588 /\
     (IZR (len words) * log2R (IZR (len (eff_words generator_7776))) < 305576017)%R) /\
  spec_word_count (len (eff_words generator_7776)) 305576017 = 23642589.
Proof.
  assert (Hcount : @words_needed sample_libm generator_7776 305576017 = Ok 23642588)
    by (vm_compute; reflexivity).
  assert (Hsize : len (eff_words generator_7776) = 7776) by (vm_compute; reflexivity).
  pose proof quotient_305576017 as [Hshort Hnext].
  pose proof log2R_7776_pos as Hpos.
  split; [exact Hcount |]. split.
  - intros s.
    destruct (@generate_passphrase_ok ascii_only sample_libm generator_7776 305576017
                23642588 (py "-") true true s Hcount)
      as (words & s' & Hdraw & Hwords & _ & suffix & s'' & Hrun & number & _ & ->).
    exists words, s', number, s''.
    split; [exact Hdraw |]. split; [exact Hrun |]. split; [exact Hwords |].
    rewrite Hwords, Hsize. exact Hshort.
  - rewrite Hsize. unfold spec_word_count.
    rewrite (ceilR_between _ 23642588); [reflexivity |].
    split.
    + apply Rmult_lt_reg_r with (log2R 7776); [exact Hpos |].
      unfold Rdiv. rewrite Rmult_assoc, Rinv_l, Rmult_1_r by lra. exact Hshort.
    + apply Rmult_le_reg_r with (log2R 7776); [exact Hpos |].
      unfold Rdiv. rewrite Rmult_assoc, Rinv_l, Rmult_1_r by lra. lra.
Qed.

(** * Further properties of the sources *)

(** ** UTF-8: decoding what was encoded *)

Ltac split_bool_hyps :=
  repeat match goal with
  | H : (_ || _) = true |- _ => apply orb_true_iff in H; destruct H
  | H : (_ && _) = false |- _ => apply andb_false_iff in H; destruct H
  | H : context [if ?b then _ else _] |- _ => destruct b eqn:?
  end;
  bool_to_prop.

Lemma scan_encode_char (c : pychar) (b rest : list Z) :
  is_code_point c -> UTF8.encode_char c = Ok b ->
  UTF8.scan (b ++ rest) = Some c :: UTF8.scan rest.
Proof.
  unfold is_code_point, UTF8.encode_char, UTF8.is_surrogate, between.
  intros Hc Henc.
  destruct (c <? 128) eqn:H1.
  { injection Henc as <-. cbn [app UTF8.scan]. now rewrite H1. }
  destruct (c <? 2048) eqn:H2.
  { injection Henc as <-. cbn [app UTF8.scan]. unfold UTF8.is_cont, between.
    bool_to_prop.
    repeat match goal with
    | |- context [if ?b then _ else _] => destruct b eqn:?; bool_to_prop; try (split_bool_hyps; Z.div_mod_to_equations; lia)
    end.
    do 2 f_equal. Z.div_mod_to_equations. lia. }
  destruct (c <? 65536) eqn:H3.
  { destruct ((55296 <=? c) && (c <=? 57343)) eqn:H4; [discriminate |].
    injection Henc as <-. cbn [app UTF8.scan]. unfold UTF8.is_cont, between.
    bool_to_prop.
    assert (Hs : c < 55296 \/ 57343 < c).
    { apply andb_false_iff in H4. destruct H4; bool_to_prop; lia. }
    clear H4.
    repeat match goal with
    | |- context [if ?b then _ else _] => destruct b eqn:?; bool_to_prop; try (split_bool_hyps; Z.div_mod_to_equations; lia)
    end.
    do 2 f_equal. Z.div_mod_to_equations. lia. }
  injection Henc as <-. cbn [app UTF8.scan]. unfold UTF8.is_cont, between.
  bool_to_prop.
  repeat match goal with
  | |- context [if ?b then _ else _] => destruct b eqn:?; bool_to_prop; try (split_bool_hyps; Z.div_mod_to_equations; lia)
  end.
  do 2 f_equal. Z.div_mod_to_equations. lia.
Qed.

Lemma encode_char_total (c : pychar) :
  UTF8.is_surrogate c = false \/ UTF8.encode_char c = Raise UnicodeEncodeError.
Proof.
  unfold UTF8.encode_char.
  destruct (UTF8.is_surrogate c) eqn:Hs; [right | now left].
  unfold UTF8.is_surrogate, between in Hs. bool_to_prop.
  destruct (Z.ltb_spec c 128); [lia |].
  destruct (Z.ltb_spec c 2048); [lia |].
  destruct (Z.ltb_spec c 65536); [reflexivity | lia].
Qed.

Lemma scan_encode (s : pystr) (bs rest : list Z) :
  well_formed_str s -> UTF8.encode s = Ok bs ->
  UTF8.scan (bs ++ rest) = map Some s ++ UTF8.scan rest.
Proof.
  intros Hs. revert bs.
  induction Hs as [| c r Hc _ IH]; intros bs Henc; cbn [UTF8.encode] in Henc.
  - injection Henc as <-. reflexivity.
  - destruct (UTF8.encode_char c) as [b |] eqn:Hb; [| discriminate].
    destruct (UTF8.encode r) as [bs' |] eqn:Hr; [| discriminate].
    cbn in Henc. injection Henc as <-.
    rewrite <- app_assoc, (scan_encode_char c b _ Hc Hb), (IH bs' eq_refl).
    reflexivity.
Qed.

Lemma decoded_map_Some (s : pystr) (items : list (option pychar)) :
  UTF8.decoded (map Some s ++ items) = s ++ UTF8.decoded items.
Proof.
  unfold UTF8.decoded. induction s as [| c r IH]; [reflexivity |].
  cbn [map app flat_map]. now rewrite IH.
Qed.

(** Whatever [str.encode] produces, both decoders read back. *)
Lemma decode_encode (s : pystr) (bs : list Z) (errors : UTF8.error_handler) :
  well_formed_str s -> UTF8.encode s = Ok bs -> UTF8.decode errors bs = Ok s.
Proof.
  intros Hs Henc.
  pose proof (scan_encode s bs [] Hs Henc) as Hscan.
  rewrite app_nil_r in Hscan. cbn [UTF8.scan] in Hscan. rewrite app_nil_r in Hscan.
  assert (Hdec : UTF8.decoded (UTF8.scan bs) = s).
  { rewrite Hscan. rewrite <- (app_nil_r (map Some s)), decoded_map_Some.
    cbn. apply app_nil_r. }
  assert (Hwf : UTF8.well_formed bs = true).
  { unfold UTF8.well_formed. rewrite Hscan. apply forallb_forall.
    intros o Ho. apply in_map_iff in Ho as (c & <- & _). reflexivity. }
  destruct errors; cbn [UTF8.decode]; rewrite ?Hwf, Hdec; reflexivity.
Qed.

Lemma encode_app (s t : pystr) (bs bt : list Z) :
  UTF8.encode s = Ok bs -> UTF8.encode t = Ok bt -> UTF8.encode (s ++ t) = Ok (bs ++ bt).
Proof.
  revert bs. induction s as [| c r IH]; intros bs Hs Ht; cbn [UTF8.encode app] in *.
  - injection Hs as <-. exact Ht.
  - destruct (UTF8.encode_char c) as [b |]; [| discriminate].
    destruct (UTF8.encode r) as [br |]; [| discriminate].
    cbn in Hs. injection Hs as <-.
    rewrite (IH br eq_refl Ht). cbn. now rewrite app_assoc.
Qed.

Lemma encode_encodable (s : pystr) (bs : list Z) :
  UTF8.encode s = Ok bs -> encodable s.
Proof.
  revert bs. induction s as [| c r IH]; intros bs Hs; [constructor |].
  cbn [UTF8.encode] in Hs.
  destruct (encode_char_total c) as [Hc | Hc]; [| now rewrite Hc in Hs].
  destruct (UTF8.encode_char c); [| discriminate].
  destruct (UTF8.encode r) as [br |]; [| discriminate].
  constructor; [assumption | now apply (IH br)].
Qed.

(** ** Lines and trimming *)

Lemma translate_newlines_single_line (s rest : pystr) :
  single_line s ->
  translate_newlines (s ++ 10 :: rest) = s ++ 10 :: translate_newlines rest.
Proof.
  induction 1 as [| c r [Hn Hr] _ IH]; cbn [app translate_newlines].
  - reflexivity.
  - destruct (Z.eqb_spec c 13); [contradiction |]. now rewrite IH.
Qed.

Lemma lines_from_single_line (s cur_rev rest : pystr) :
  single_line s ->
  lines_from cur_rev (s ++ 10 :: rest) = (rev cur_rev ++ s ++ [10]) :: lines_from [] rest.
Proof.
  intros Hs. revert cur_rev.
  induction Hs as [| c r [Hn Hr] _ IH]; intros cur_rev; cbn [app lines_from].
  - cbn [rev]. reflexivity.
  - destruct (Z.eqb_spec c 10); [contradiction |].
    rewrite IH. cbn [rev]. now rewrite <- !app_assoc.
Qed.

(** The text made of the given lines, each ended by ['\n']. *)
Lemma text_lines_unlines (lines : list pystr) :
  Forall single_line lines ->
  text_lines (concat (map (fun l => l ++ [10]) lines)) = map (fun l => l ++ [10]) lines.
Proof.
  unfold text_lines.
  induction 1 as [| l ls Hl _ IH]; [reflexivity |].
  cbn [map concat]. rewrite <- app_assoc. cbn [app].
  rewrite (translate_newlines_single_line l _ Hl).
  rewrite (lines_from_single_line l [] _ Hl). cbn [rev app].
  now rewrite IH.
Qed.

Section StripFacts.
Context {U : UnicodeData}.

Lemma lstrip_suffix (s : pystr) : exists spaces, s = spaces ++ lstrip s /\
  Forall (fun c => isspace c = true) spaces.
Proof.
  induction s as [| c r (spaces & Hr & Hall)]; [exists []; split; [reflexivity | constructor] |].
  cbn [lstrip]. destruct (isspace c) eqn:Hc.
  - exists (c :: spaces). split; [cbn; now rewrite <- Hr | now constructor].
  - exists []. split; [reflexivity | constructor].
Qed.

Lemma lstrip_head (s : pystr) :
  match lstrip s with
  | [] => True
  | c :: _ => isspace c = false
  end.
Proof.
  induction s as [| c r IH]; [exact I |].
  cbn [lstrip]. destruct (isspace c) eqn:Hc; [exact IH | exact Hc].
Qed.

Lemma lstrip_fixed (s : pystr) :
  match s with [] => True | c :: _ => isspace c = false end -> lstrip s = s.
Proof.
  destruct s as [| c r]; [reflexivity |]. cbn [lstrip]. now intros ->.
Qed.

Lemma lstrip_idempotent (s : pystr) : lstrip (lstrip s) = lstrip s.
Proof. apply lstrip_fixed, lstrip_head. Qed.

(** Dropping leading whitespace of a string that does not end in
    whitespace leaves its last character in place. *)
Lemma lstrip_app_keep (s t : pystr) :
  match t with [] => True | c :: _ => isspace c = false end ->
  t <> [] -> lstrip (s ++ t) = lstrip s ++ t.
Proof.
  intros Ht Hne. induction s as [| c r IH]; cbn [app lstrip].
  - now apply lstrip_fixed.
  - destruct (isspace c); [exact IH | reflexivity].
Qed.

Lemma rstrip_prefix (s : pystr) : exists spaces, s = rstrip s ++ spaces.
Proof.
  unfold rstrip. destruct (lstrip_suffix (rev s)) as (spaces & Hs & _).
  exists (rev spaces). rewrite <- rev_app_distr, <- Hs. now rewrite rev_involutive.
Qed.

Lemma rstrip_idempotent (s : pystr) : rstrip (rstrip s) = rstrip s.
Proof. unfold rstrip. now rewrite rev_involutive, lstrip_idempotent. Qed.

(** Trimming the right end of a string that starts without whitespace
    keeps its start: the result is empty or starts with the same
    character. *)
Lemma rstrip_head (s : pystr) :
  match s with [] => True | c :: _ => isspace c = false end ->
  match rstrip s with [] => True | c :: _ => isspace c = false end.
Proof.
  intros Hs. destruct (rstrip_prefix s) as (spaces & Heq).
  destruct (rstrip s) as [| c r]; [exact I |].
  rewrite Heq in Hs. exact Hs.
Qed.

Lemma rstrip_last (s : pystr) :
  match rev (rstrip s) with [] => True | c :: _ => isspace c = false end.
Proof. unfold rstrip. rewrite rev_involutive. apply lstrip_head. Qed.

Lemma strip_head (s : pystr) :
  match strip s with [] => True | c :: _ => isspace c = false end.
Proof. unfold strip. apply rstrip_head, lstrip_head. Qed.

Lemma strip_last (s : pystr) :
  match rev (strip s) with [] => True | c :: _ => isspace c = false end.
Proof. unfold strip. apply rstrip_last. Qed.

Lemma strip_idempotent (s : pystr) : strip (strip s) = strip s.
Proof.
  unfold strip at 1. rewrite (lstrip_fixed (strip s) (strip_head s)).
  unfold strip. apply rstrip_idempotent.
Qed.

(** A trimmed string followed by a line feed trims back to itself. *)
Lemma strip_line_feed (w : pystr) : strip w = w -> strip (w ++ [10]) = w.
Proof.
  intros Hw. pose proof (strip_head w) as Hhead. pose proof (strip_last w) as Hlast.
  rewrite Hw in Hhead, Hlast.
  destruct w as [| c r].
  - unfold strip, rstrip. cbn [app lstrip]. unfold isspace, is_ascii. reflexivity.
  - unfold strip.
    rewrite (lstrip_fixed ((c :: r) ++ [10])) by exact Hhead.
    unfold rstrip. rewrite rev_app_distr.
    change (rev [10] ++ rev (c :: r)) with (10 :: rev (c :: r)).
    cbn [lstrip]. change (isspace 10) with true. cbn iota.
    rewrite lstrip_fixed by exact Hlast. apply rev_involutive.
Qed.

Lemma strip_single_line (s : pystr) : single_line s -> single_line (strip s).
Proof.
  intros H. unfold strip, rstrip, single_line in *.
  assert (Hl : forall t, Forall (fun c => c <> 10 /\ c <> 13) t ->
                         Forall (fun c => c <> 10 /\ c <> 13) (lstrip t)).
  { induction 1 as [| c r Hc Hr IH]; cbn [lstrip]; [constructor |].
    destruct (isspace c); [assumption | now constructor]. }
  apply Forall_rev, Hl, Forall_rev, Hl, H.
Qed.

End StripFacts.

(** ** Writing a dictionary and loading it back *)

Lemma write_passwords_ok (lines : list pystr) :
  Forall encodable lines ->
  forall written,
  exists bs,
    UTF8.encode (concat (map (fun l => l ++ [10]) lines)) = Ok bs /\
    write_passwords written lines = (written ++ bs, Ok tt).
Proof.
  induction 1 as [| l ls Hl _ IH]; intros written.
  - exists []. cbn. now rewrite app_nil_r.
  - assert (Hline : encodable (l ++ [10])).
    { apply Forall_app. split; [exact Hl | now repeat constructor]. }
    destruct (encode_ok _ Hline) as [b Hb].
    destruct (IH (written ++ b)) as (bs & Hbs & Hrun).
    exists (b ++ bs). split.
    + cbn [map concat]. now apply encode_app.
    + cbn [write_passwords]. unfold write_str. rewrite Hb, Hrun.
      now rewrite app_assoc.
Qed.

Lemma concat_lines_well_formed (lines : list pystr) :
  Forall well_formed_str lines ->
  well_formed_str (concat (map (fun l => l ++ [10]) lines)).
Proof.
  unfold well_formed_str.
  induction 1 as [| l ls Hl _ IH]; cbn [map concat]; [constructor |].
  rewrite <- app_assoc. apply Forall_app. split; [exact Hl |].
  constructor; [unfold is_code_point; lia | exact IH].
Qed.

(** What a file written line by line reads back as. *)
Lemma written_file_lines (lines : list pystr) (written bs : list Z) :
  Forall well_formed_str lines -> Forall single_line lines ->
  UTF8.encode (concat (map (fun l => l ++ [10]) lines)) = Ok bs ->
  forall errors,
  exists text, UTF8.decode errors bs = Ok text /\
               text_lines text = map (fun l => l ++ [10]) lines.
Proof.
  intros Hwf Hsingle Henc errors.
  exists (concat (map (fun l => l ++ [10]) lines)). split.
  - apply decode_encode; [now apply concat_lines_well_formed | exact Henc].
  - now apply text_lines_unlines.
Qed.

Section RoundTrips.
Context {U : UnicodeData}.

Lemma kept_line_feed (pwd : pystr) :
  strip pwd = pwd -> strip (pwd ++ [10]) = pwd /\ kept (pwd ++ [10]) = kept pwd.
Proof.
  intros Hpwd. pose proof (strip_line_feed pwd Hpwd) as Hs.
  split; [exact Hs |]. unfold kept. now rewrite Hs, Hpwd.
Qed.

(** Every digest the loop adds is the digest of a kept line. *)
Lemma load_lines_sound (lines : list pystr) :
  forall (hashes : gset pystr) (n : Z) (h : pystr),
    h ∈ fst (load_lines lines hashes n) ->
    h ∈ hashes \/
    exists line, In line lines /\ kept line = true /\ hash_password (strip line) = Ok h.
Proof.
  induction lines as [| line rest IH]; intros hashes n h Hh; cbn [load_lines] in Hh.
  - now left.
  - fold (kept line) in Hh. destruct (kept line) eqn:Hkept.
    + destruct (hash_password (strip line)) as [d | e] eqn:Hd; [| now left].
      destruct (IH _ _ _ Hh) as [Hin | (l & Hl & Hk & Hhash)].
      * apply elem_of_union in Hin as [Hin | Hin]; [| now left].
        apply elem_of_singleton in Hin as ->.
        right. exists line. repeat split; [now left | assumption..].
      * right. exists l. repeat split; [now right | assumption..].
    + destruct (IH _ _ _ Hh) as [Hin | (l & Hl & Hk & Hhash)]; [now left |].
      right. exists l. repeat split; [now right | assumption..].
Qed.

(** Loading one file whose lines are known. *)
Lemma load_single_file (fs : filesystem) (path : pystr) (bytes : list Z)
    (lines : list pystr) :
  fs path = Contents bytes ->
  text_lines (UTF8.decoded (UTF8.scan bytes)) = lines ->
  snd (load_password_dictionaries fs [path])
    = [Loaded (len (List.filter kept lines)) path] /\
  forall h, h ∈ fst (load_password_dictionaries fs [path]) <->
            exists line, In line lines /\ kept line = true /\
                         hash_password (strip line) = Ok h.
Proof.
  intros Hfile Hlines.
  unfold load_password_dictionaries. cbn [fold_left].
  destruct (load_source_step fs ∅ [] path) as (hashes & ev & Hstep & _ & _ & Hcontents).
  destruct (Hcontents bytes Hfile) as [Hev Hin]. rewrite Hlines in Hev, Hin.
  rewrite Hstep. cbn [fst snd app]. split; [now rewrite Hev |].
  intros h. split.
  - intros Hh.
    assert (Hrun : hashes = fst (load_lines lines ∅ 0)).
    { unfold load_source in Hstep. rewrite Hfile in Hstep.
      cbn [load_file UTF8.decode] in Hstep. rewrite Hlines in Hstep.
      destruct (load_lines lines ∅ 0) as [hs [n | []]];
        cbn [fst] in *; now injection Hstep as ->. }
    rewrite Hrun in Hh.
    destruct (load_lines_sound lines ∅ 0 h Hh) as [Hempty | Hline]; [| exact Hline].
    now apply not_elem_of_empty in Hempty.
  - intros (line & Hline & Hkept & Hhash).
    destruct (Hin line Hline Hkept) as (h' & Hh' & Hmem). congruence.
Qed.

End RoundTrips.

(** ** What the decoder and the line reader hand on *)

Lemma scan_code_points (bs : list Z) :
  Forall is_byte bs ->
  Forall (fun o => match o with
                   | Some c => is_code_point c
                   | None => True
                   end) (UTF8.scan bs).
Proof.
  unfold is_byte, is_code_point.
  induction bs as [bs IH] using list_length_ind. intros Hbytes.
  destruct bs as [| b0 r1]; [constructor |].
  cbn [UTF8.scan]. unfold UTF8.is_cont, between.
  repeat match goal with
  | H : Forall _ (_ :: _) |- _ => inversion H; subst; clear H
  | |- Forall _ [] => constructor
  | |- Forall _ (_ :: _) => constructor
  | |- Forall _ (UTF8.scan _) =>
      apply IH; [cbn [length]; lia | repeat first [assumption | constructor; [assumption |]]]
  | |- True => exact I
  | |- context [match ?r with [] => _ | _ :: _ => _ end] => destruct r
  | |- context [if ?b then _ else _] => destruct b eqn:?
  | H : context [if ?b then _ else _] |- _ <= _ <= _ => destruct b eqn:?
  | |- _ <= _ <= _ => bool_to_prop; lia
  end.
Qed.

Lemma decoded_well_formed (bs : list Z) :
  Forall is_byte bs -> well_formed_str (UTF8.decoded (UTF8.scan bs)).
Proof.
  intros Hbytes. unfold well_formed_str, UTF8.decoded.
  pose proof (scan_code_points bs Hbytes) as H.
  induction H as [| o items Ho _ IH]; cbn [flat_map]; [constructor |].
  destruct o as [c |]; cbn [app]; [constructor |]; assumption.
Qed.

Lemma translate_newlines_Forall (P : pychar -> Prop) (s : pystr) :
  P 10 -> Forall P s -> Forall P (translate_newlines s).
Proof.
  intros H10.
  induction s as [s IH] using list_length_ind. intros Hs.
  destruct s as [| c r]; [constructor |].
  inversion Hs as [| ? ? Hc Hr]; subst.
  cbn [translate_newlines].
  destruct (c =? 13).
  - constructor; [assumption |].
    destruct r as [| c' r']; [constructor |].
    inversion Hr; subst.
    destruct (c' =? 10); apply IH; cbn [length]; auto; lia.
  - constructor; [assumption |]. apply IH; cbn [length]; auto.
Qed.

Lemma translate_newlines_no_cr (s : pystr) :
  Forall (fun c => c <> 13) (translate_newlines s).
Proof.
  induction s as [s IH] using list_length_ind.
  destruct s as [| c r]; [constructor |].
  cbn [translate_newlines].
  destruct (Z.eqb_spec c 13).
  - constructor; [lia |].
    destruct r as [| c' r']; [constructor |].
    destruct (c' =? 10); apply IH; cbn [length]; lia.
  - constructor; [assumption |]. apply IH; cbn [length]; lia.
Qed.

Lemma lines_from_Forall (P : pychar -> Prop) (s cur_rev : pystr) :
  Forall P cur_rev -> Forall P s -> Forall (Forall P) (lines_from cur_rev s).
Proof.
  revert cur_rev.
  induction s as [| c r IH]; intros cur_rev Hcur Hs; cbn [lines_from].
  - destruct cur_rev; constructor; [| constructor].
    now apply Forall_rev.
  - inversion Hs; subst.
    destruct (c =? 10).
    + constructor.
      * apply Forall_rev. now constructor.
      * apply IH; [constructor | assumption].
    + apply IH; [now constructor | assumption].
Qed.

Lemma lines_from_shape (s cur_rev : pystr) :
  single_line cur_rev -> Forall (fun c => c <> 13) s ->
  Forall line_shape (lines_from cur_rev s).
Proof.
  unfold single_line. revert cur_rev.
  induction s as [| c r IH]; intros cur_rev Hcur Hs; cbn [lines_from].
  - destruct cur_rev as [| x xs]; constructor; [| constructor].
    exists (rev (x :: xs)). split; [now apply Forall_rev | now right].
  - inversion Hs; subst.
    destruct (Z.eqb_spec c 10) as [-> | Hne].
    + constructor.
      * exists (rev cur_rev). split; [now apply Forall_rev | now left].
      * apply IH; [constructor | assumption].
    + apply IH; [now constructor | assumption].
Qed.

Lemma text_lines_shape (text : pystr) : Forall line_shape (text_lines text).
Proof.
  unfold text_lines. apply lines_from_shape; [constructor |].
  apply translate_newlines_no_cr.
Qed.

Lemma text_lines_well_formed (text : pystr) :
  well_formed_str text -> Forall well_formed_str (text_lines text).
Proof.
  intros H. unfold text_lines, well_formed_str.
  apply lines_from_Forall; [constructor |].
  apply translate_newlines_Forall; [unfold is_code_point; lia | exact H].
Qed.

Section StrippedLines.
Context {U : UnicodeData}.

Lemma lstrip_Forall (P : pychar -> Prop) (s : pystr) : Forall P s -> Forall P (lstrip s).
Proof.
  induction 1 as [| c r Hc Hr IH]; cbn [lstrip]; [constructor |].
  destruct (isspace c); [assumption | now constructor].
Qed.

Lemma strip_Forall (P : pychar -> Prop) (s : pystr) : Forall P s -> Forall P (strip s).
Proof.
  intros H. unfold strip, rstrip.
  apply Forall_rev, lstrip_Forall, Forall_rev, lstrip_Forall, H.
Qed.

Lemma rstrip_line_feed (s : pystr) : rstrip (s ++ [10]) = rstrip s.
Proof.
  unfold rstrip. rewrite rev_app_distr.
  change (rev [10] ++ rev s) with (10 :: rev s).
  cbn [lstrip]. now change (isspace 10) with true.
Qed.

(** The final line feed of a line does not survive trimming. *)
Lemma strip_body (body : pystr) : strip (body ++ [10]) = strip body.
Proof.
  unfold strip.
  destruct (lstrip body) as [| c r] eqn:Hbody.
  - destruct (lstrip_suffix body) as (spaces & Heq & Hspaces).
    rewrite Hbody, app_nil_r in Heq. subst spaces.
    assert (Hall : lstrip (body ++ [10]) = []).
    { clear Hbody. induction Hspaces as [| x xs Hx _ IH]; cbn [app lstrip].
      - now change (isspace 10) with true.
      - now rewrite Hx. }
    now rewrite Hall.
  - assert (Happ : lstrip (body ++ [10]) = (c :: r) ++ [10]).
    { clear - Hbody. induction body as [| x xs IH]; [discriminate |].
      cbn [app lstrip] in *. destruct (isspace x); [now apply IH | now injection Hbody as -> ->]. }
    rewrite Happ. apply rstrip_line_feed.
Qed.

Lemma strip_of_line (line : pystr) : line_shape line -> single_line (strip line).
Proof.
  intros (body & Hbody & [-> | ->]).
  - rewrite strip_body. now apply strip_single_line.
  - now apply strip_single_line.
Qed.

(** What trimming a kept line of a decoded file gives. *)
Lemma stripped_line_clean (bytes : list Z) (line : pystr) :
  Forall is_byte bytes ->
  In line (text_lines (UTF8.decoded (UTF8.scan bytes))) ->
  kept line = true ->
  clean_password (strip line) /\ kept (strip line) = true.
Proof.
  intros Hbytes Hline Hkept.
  pose proof (text_lines_well_formed _ (decoded_well_formed bytes Hbytes)) as Hwf.
  pose proof (text_lines_encodable _ (decoded_encodable bytes)) as Henc.
  pose proof (text_lines_shape (UTF8.decoded (UTF8.scan bytes))) as Hshape.
  rewrite List.Forall_forall in Hwf, Henc, Hshape.
  split; [| unfold kept in *; now rewrite strip_idempotent].
  repeat split.
  - apply strip_Forall, Hwf, Hline.
  - apply strip_encodable, Henc, Hline.
  - apply strip_of_line, Hshape, Hline.
  - apply strip_idempotent.
Qed.

End StrippedLines.

(** ** Dictionary files: write, merge, load *)

Lemma py_byte (s : string) : Forall is_byte (py s).
Proof.
  unfold py. apply Forall_map, List.Forall_forall. intros a _.
  pose proof (N_ascii_bounded a). unfold is_byte. cbn. lia.
Qed.

Lemma py_well_formed (s : string) : well_formed_str (py s).
Proof.
  eapply Forall_impl; [apply py_byte |].
  unfold is_byte, is_code_point. intros c Hc. cbn in *. lia.
Qed.

Lemma py_encodable (s : string) : encodable (py s).
Proof.
  eapply Forall_impl; [apply py_byte |].
  unfold is_byte. intros c Hc. cbn in Hc. apply not_surrogate. lia.
Qed.

Lemma single_line_check (s : pystr) :
  forallb (fun c => negb (c =? 10) && negb (c =? 13)) s = true -> single_line s.
Proof.
  intros H. apply List.Forall_forall. intros c Hc.
  rewrite forallb_forall in H. specialize (H c Hc). bool_to_prop. lia.
Qed.

Section DictionaryFiles.
Context {U : UnicodeData}.

Lemma filter_kept_written (passwords : list pystr) :
  Forall clean_password passwords ->
  List.filter kept (map (fun l => l ++ [10]) passwords)
  = map (fun l => l ++ [10]) (List.filter kept passwords).
Proof.
  induction 1 as [| pwd rest (_ & _ & _ & Hpwd) _ IH]; [reflexivity |].
  cbn [map List.filter]. destruct (kept_line_feed pwd Hpwd) as [_ Hk].
  unfold pystr, pychar in *. rewrite Hk.
  destruct (kept pwd); cbn [map]; now rewrite IH.
Qed.

Lemma filter_kept_header (header : list pystr) (lines : list pystr) :
  Forall header_line header ->
  List.filter kept (map (fun l => l ++ [10]) header ++ lines) = List.filter kept lines.
Proof.
  induction 1 as [| l ls (_ & _ & _ & Hl) _ IH]; [reflexivity |].
  cbn [map app List.filter]. unfold pystr, pychar in *. now rewrite Hl.
Qed.

(** A dictionary written from a header and clean passwords loads as
    exactly the kept passwords. *)
Lemma written_dictionary_loads (fs : filesystem) (path : pystr)
    (header passwords : list pystr) :
  writable fs path = true ->
  Forall header_line header ->
  Forall clean_password passwords ->
  exists bytes,
    write_dictionary fs path header passwords = (fs_write fs path bytes, Ok tt) /\
    snd (load_password_dictionaries (fs_write fs path bytes) [path])
      = [Loaded (len (List.filter kept passwords)) path] /\
    forall h, h ∈ fst (load_password_dictionaries (fs_write fs path bytes) [path])
              <-> digests_of passwords h.
Proof.
  intros Hopen Hheader Hclean.
  assert (Hall : Forall (fun l => well_formed_str l /\ encodable l /\ single_line l)
                   (header ++ passwords)).
  { apply Forall_app. split.
    - eapply Forall_impl; [exact Hheader |]. intros l (? & ? & ? & _). auto.
    - eapply Forall_impl; [exact Hclean |]. intros l (? & ? & ? & _). auto. }
  assert (Hwf : Forall well_formed_str (header ++ passwords))
    by (eapply Forall_impl; [exact Hall |]; intros l (? & ? & ?); auto).
  assert (Henc : Forall encodable (header ++ passwords))
    by (eapply Forall_impl; [exact Hall |]; intros l (? & ? & ?); auto).
  assert (Hsingle : Forall single_line (header ++ passwords))
    by (eapply Forall_impl; [exact Hall |]; intros l (? & ? & ?); auto).
  destruct (write_passwords_ok _ Henc []) as (bytes & Hbytes & Hrun).
  exists bytes.
  assert (Hwrite : write_dictionary fs path header passwords
                   = (fs_write fs path bytes, Ok tt)).
  { unfold write_dictionary. rewrite Hrun. unfold writable in Hopen.
    destruct (fs path); [reflexivity | discriminate | reflexivity]. }
  split; [exact Hwrite |].
  destruct (written_file_lines _ [] bytes Hwf Hsingle Hbytes UTF8.Ignore)
    as (text & Hdecode & Hlines).
  injection Hdecode as Hdecode.
  assert (Hfile : fs_write fs path bytes path = Contents bytes).
  { unfold fs_write. now rewrite bool_decide_eq_true_2. }
  destruct (load_single_file (fs_write fs path bytes) path bytes
              (map (fun l => l ++ [10]) (header ++ passwords)) Hfile)
    as [Hout Hindex].
  { now rewrite Hdecode. }
  pose proof (filter_kept_header header (map (fun l => l ++ [10]) passwords) Hheader)
    as Hfh.
  pose proof (filter_kept_written passwords Hclean) as Hfw.
  unfold pystr, pychar in *.
  rewrite map_app, Hfh, Hfw in Hout.
  split.
  { rewrite Hout. unfold len. now rewrite length_map. }
  intros h. rewrite Hindex. unfold digests_of. split.
  - intros (line & Hline & Hkept & Hhash).
    rewrite map_app in Hline. apply in_app_iff in Hline as [Hline | Hline].
    + apply in_map_iff in Hline as (l & <- & Hl).
      rewrite List.Forall_forall in Hheader.
      destruct (Hheader l Hl) as (_ & _ & _ & Hskip).
      unfold pystr, pychar in *. congruence.
    + apply in_map_iff in Hline as (pwd & <- & Hpwd).
      rewrite List.Forall_forall in Hclean.
      destruct (Hclean pwd Hpwd) as (_ & _ & _ & Htrim).
      destruct (kept_line_feed pwd Htrim) as [Hs Hk].
      unfold pystr, pychar in *. rewrite Hk in Hkept. rewrite Hs in Hhash.
      exists pwd. auto.
  - intros (pwd & Hpwd & Hkept & Hhash).
    rewrite List.Forall_forall in Hclean.
    destruct (Hclean pwd Hpwd) as (_ & _ & _ & Htrim).
    destruct (kept_line_feed pwd Htrim) as [Hs Hk].
    exists (pwd ++ [10]). unfold pystr, pychar in *. rewrite Hk, Hs.
    split; [| auto]. apply in_map_iff. exists pwd. split; [reflexivity |].
    apply in_app_iff. now right.
Qed.

Lemma sample_header_lines :
  Forall header_line [py "# Sample password dictionary"; py "# One password per line"].
Proof.
  repeat (constructor;
    [split; [apply py_well_formed |];
     split; [apply py_encodable |];
     split; [apply single_line_check; vm_compute; reflexivity
            | vm_compute; reflexivity] |]).
  constructor.
Qed.

Lemma merged_header_lines : Forall header_line [py "# Merged password dictionary"].
Proof.
  repeat (constructor;
    [split; [apply py_well_formed |];
     split; [apply py_encodable |];
     split; [apply single_line_check; vm_compute; reflexivity
            | vm_compute; reflexivity] |]).
  constructor.
Qed.


End DictionaryFiles.

Lemma encodableb_spec (s : pystr) : encodableb s = true <-> encodable s.
Proof.
  unfold encodableb, encodable. rewrite forallb_forall, List.Forall_forall.
  split; intros H c Hc; specialize (H c Hc).
  - now apply negb_true_iff.
  - now apply negb_true_iff.
Qed.

Lemma encode_fails (s : pystr) :
  encodableb s = false -> UTF8.encode s = Raise UnicodeEncodeError.
Proof.
  induction s as [| c r IH]; [discriminate |].
  cbn [encodableb forallb UTF8.encode]. fold (encodableb r). intros H.
  destruct (encode_char_total c) as [Hc | Hc]; [| now rewrite Hc].
  rewrite Hc in H. cbn [negb andb] in H.
  destruct (encode_char_ok c Hc) as [b ->]. now rewrite (IH H).
Qed.

Lemma write_passwords_app (before rest : list pystr) :
  Forall encodable before ->
  forall written,
  exists bs,
    UTF8.encode (concat (map (fun l => l ++ [10]) before)) = Ok bs /\
    write_passwords written (before ++ rest) = write_passwords (written ++ bs) rest.
Proof.
  induction 1 as [| l ls Hl _ IH]; intros written.
  - exists []. cbn. now rewrite app_nil_r.
  - assert (Hline : encodable (l ++ [10])).
    { apply Forall_app. split; [exact Hl | now repeat constructor]. }
    destruct (encode_ok _ Hline) as [b Hb].
    destruct (IH (written ++ b)) as (bs & Hbs & Hrun).
    exists (b ++ bs). split.
    + cbn [map concat]. now apply encode_app.
    + cbn [app write_passwords]. unfold write_str. rewrite Hb, Hrun.
      now rewrite app_assoc.
Qed.

(** X2.  When a password of the list cannot be encoded (it holds a lone
    surrogate), [create_sample_dictionary] raises [UnicodeEncodeError]
    and prints nothing, and the file is left behind with the header and
    the passwords that came before the offending one. *)
Theorem sample_dictionary_stops_at_surrogate (fs : filesystem) (output_path : pystr)
    (before : list pystr) (bad : pystr) (after : list pystr) :
  writable fs output_path = true ->
  forallb encodableb before = true ->
  encodableb bad = false ->
  exists bytes,
    UTF8.encode
      (concat (map (fun l => l ++ [10])
                 ([py "# Sample password dictionary"; py "# One password per line"]
                  ++ before))) = Ok bytes /\
    create_sample_dictionary fs output_path (before ++ bad :: after)
      = (fs_write fs output_path bytes, [], Raise UnicodeEncodeError).
Proof.
  intros Hopen Hbefore Hbad.
  assert (Henc : Forall encodable
                   ([py "# Sample password dictionary"; py "# One password per line"]
                    ++ before)).
  { apply Forall_app. split.
    - repeat constructor; apply py_encodable.
    - apply List.Forall_forall. intros l Hl. apply encodableb_spec.
      rewrite forallb_forall in Hbefore. now apply Hbefore. }
  destruct (write_passwords_app _ (bad :: after) Henc []) as (bytes & Hbytes & Hrun).
  exists bytes. split; [exact Hbytes |].
  unfold create_sample_dictionary, write_dictionary.
  rewrite app_assoc, Hrun. cbn [app write_passwords]. unfold write_str.
  assert (Hfail : UTF8.encode (bad ++ [10]) = Raise UnicodeEncodeError).
  { apply encode_fails. unfold encodableb in *. rewrite forallb_app, Hbad. reflexivity. }
  rewrite Hfail. unfold writable in Hopen.
  destruct (fs output_path); [reflexivity | discriminate | reflexivity].
Qed.

Section MergeFacts.
Context {U : UnicodeData}.

Lemma merge_lines_spec (lines : list pystr) :
  forall (unique : gset pystr) (w : pystr),
    w ∈ merge_lines lines unique <->
    w ∈ unique \/ exists line, In line lines /\ kept line = true /\ w = strip line.
Proof.
  induction lines as [| line rest IH]; intros unique w; cbn [merge_lines].
  - split; [now left | intros [H | (l & [] & _)]; exact H].
  - fold (kept line). destruct (kept line) eqn:Hkept; rewrite IH; split.
    + intros [H | (l & Hl & Hk & Hw)].
      * apply elem_of_union in H as [H | H]; [| now left].
        apply elem_of_singleton in H. right. exists line. auto using in_eq.
      * right. exists l. auto using in_cons.
    + intros [H | (l & [<- | Hl] & Hk & Hw)].
      * left. apply elem_of_union. now right.
      * left. apply elem_of_union. left. now apply elem_of_singleton.
      * right. exists l. auto.
    + intros [H | (l & Hl & Hk & Hw)]; [now left |].
      right. exists l. auto using in_cons.
    + intros [H | (l & [<- | Hl] & Hk & Hw)]; [now left | congruence |].
      right. exists l. auto.
Qed.

Lemma merge_inputs_spec (fs : filesystem) (input_paths : list pystr) :
  Forall (mergeable fs) input_paths ->
  forall (unique : gset pystr) (out : list notice),
  exists unique' out',
    merge_inputs fs input_paths unique out = (unique', out', Ok tt) /\
    forall w, w ∈ unique' <->
      w ∈ unique \/ exists line, kept_line_of fs input_paths line /\ w = strip line.
Proof.
  induction 1 as [| p rest Hp _ IH]; intros unique out; cbn [merge_inputs].
  - exists unique, out. split; [reflexivity |].
    intros w. split; [now left | intros [H | (l & (? & ? & [] & _) & _)]; exact H].
  - unfold mergeable in Hp. destruct (fs p) as [| | bytes] eqn:Hfile; [| contradiction |].
    + destruct (IH unique (out ++ [FileNotFound p])) as (u' & o' & Hrun & Hspec).
      exists u', o'. split; [exact Hrun |].
      intros w. rewrite Hspec. split.
      * intros [H | (l & (q & bs & Hq & Hbs & Hl & Hk) & Hw)]; [now left |].
        right. exists l. split; [| exact Hw]. exists q, bs. auto using in_cons.
      * intros [H | (l & (q & bs & [<- | Hq] & Hbs & Hl & Hk) & Hw)];
          [now left | congruence |].
        right. exists l. split; [| exact Hw]. exists q, bs. auto.
    + cbn [UTF8.decode].
      destruct (IH (merge_lines (text_lines (UTF8.decoded (UTF8.scan bytes))) unique) out)
        as (u' & o' & Hrun & Hspec).
      exists u', o'. split; [exact Hrun |].
      intros w. rewrite Hspec, merge_lines_spec. split.
      * intros [[H | (l & Hl & Hk & Hw)] | (l & (q & bs & Hq & Hbs & Hl & Hk) & Hw)].
        -- now left.
        -- right. exists l. split; [| exact Hw]. exists p, bytes. auto using in_eq.
        -- right. exists l. split; [| exact Hw]. exists q, bs. auto using in_cons.
      * intros [H | (l & (q & bs & [<- | Hq] & Hbs & Hl & Hk) & Hw)].
        -- left. now left.
        -- left. right. exists l. rewrite Hfile in Hbs. injection Hbs as <-. auto.
        -- right. exists l. split; [| exact Hw]. exists q, bs. auto.
Qed.

Lemma load_source_sound (fs : filesystem) (hashes : gset pystr) (out : list event)
    (p : pystr) (h : pystr) :
  h ∈ fst (load_source fs (hashes, out) p) ->
  h ∈ hashes \/
  exists bytes line,
    fs p = Contents bytes /\ In line (text_lines (UTF8.decoded (UTF8.scan bytes))) /\
    kept line = true /\ hash_password (strip line) = Ok h.
Proof.
  unfold load_source.
  destruct (fs p) as [| | bytes] eqn:Hfile; cbn [load_file UTF8.decode fst].
  - now left.
  - now left.
  - pose proof (load_lines_sound (text_lines (UTF8.decoded (UTF8.scan bytes))) hashes 0 h)
      as Hsound.
    destruct (load_lines (text_lines (UTF8.decoded (UTF8.scan bytes))) hashes 0)
      as [hashes' [n | e]]; cbn [fst] in *.
    + intros Hh. destruct (Hsound Hh) as [H | (l & Hl & Hk & Hhash)]; [now left |].
      right. exists bytes, l. auto.
    + intros Hh.
      assert (Hh' : h ∈ hashes') by (destruct e; exact Hh).
      destruct (Hsound Hh') as [H | (l & Hl & Hk & Hhash)]; [now left |].
      right. exists bytes, l. auto.
Qed.

(** The index is exactly the digests of the kept lines of the sources
    that are read. *)
Lemma load_index_spec (fs : filesystem) (file_paths : list pystr) (h : pystr) :
  h ∈ fst (load_password_dictionaries fs file_paths) <->
  exists line, kept_line_of fs file_paths line /\ hash_password (strip line) = Ok h.
Proof.
  unfold load_password_dictionaries. split.
  - assert (Hgen : forall paths hashes out,
              h ∈ fst (fold_left (load_source fs) paths (hashes, out)) ->
              h ∈ hashes \/
              exists line, kept_line_of fs paths line /\ hash_password (strip line) = Ok h).
    { induction paths as [| p rest IH]; intros hashes out Hh; cbn [fold_left] in Hh.
      - now left.
      - destruct (load_source fs (hashes, out) p) as [hashes1 out1] eqn:Hstep.
        destruct (IH hashes1 out1 Hh) as [H | (l & (q & bs & Hq & Hbs & Hl & Hk) & Hhash)].
        + assert (H' : h ∈ fst (load_source fs (hashes, out) p)) by now rewrite Hstep.
          destruct (load_source_sound fs hashes out p h H')
            as [H0 | (bs & l & Hbs & Hl & Hk & Hhash)]; [now left |].
          right. exists l. split; [| exact Hhash]. exists p, bs. auto using in_eq.
        + right. exists l. split; [| exact Hhash]. exists q, bs. auto using in_cons. }
    intros Hh. destruct (Hgen file_paths ∅ [] Hh) as [H | H]; [| exact H].
    now apply not_elem_of_empty in H.
  - intros (line & (p & bs & Hp & Hbs & Hl & Hk) & Hhash).
    destruct (load_fold fs file_paths ∅ []) as (evs & _ & _ & _ & _ & Hsources).
    destruct (Hsources p bs Hp Hbs) as [_ Hlines].
    destruct (Hlines line Hl Hk) as (h' & Hh' & Hmem). congruence.
Qed.

Lemma sorted_In (strings : list pystr) (w : pystr) : In w (sorted strings) <-> In w strings.
Proof.
  unfold sorted. split; apply Permutation_in;
    [apply merge_sort_Permutation | symmetry; apply merge_sort_Permutation].
Qed.

Lemma filter_all {A : Type} (f : A -> bool) (l : list A) :
  Forall (fun x => f x = true) l -> List.filter f l = l.
Proof.
  induction 1 as [| x xs Hx _ IH]; [reflexivity |].
  cbn [List.filter]. now rewrite Hx, IH.
Qed.


Lemma collect_words_spec (lines : list pystr) :
  forall words, collect_words lines words = words ++ map strip (List.filter kept lines).
Proof.
  induction lines as [| line rest IH]; intros words; cbn [collect_words List.filter map].
  - now rewrite app_nil_r.
  - fold (kept line). destruct (kept line); rewrite IH; [| reflexivity].
    cbn [map]. now rewrite <- app_assoc.
Qed.

(** X4.  The words [load_custom_wordlist] returns are the kept lines of
    the file, trimmed, in file order: each is non-empty, is not a
    comment, has no whitespace at either end, and is reported as common
    by a checker whose index is built from the same file. *)
Theorem custom_wordlist_words (fs : filesystem) (file_path : pystr) (words : list pystr) :
  load_custom_wordlist fs file_path = Ok words ->
  (exists bytes text,
     fs file_path = Contents bytes /\
     UTF8.decode UTF8.Strict bytes = Ok text /\
     words = map strip (List.filter kept (text_lines text))) /\
  Forall (fun w => truthy w = true /\ startswith_hash w = false /\ strip w = w) words /\
  forall w, In w words ->
    snd (is_common_password
           (PasswordChecker_init (fst (load_password_dictionaries fs [file_path])))
           w) = Ok true.
Proof.
  unfold load_custom_wordlist.
  destruct (fs file_path) as [| | bytes] eqn:Hfile; try discriminate.
  cbn [UTF8.decode]. destruct (UTF8.well_formed bytes) eqn:Hwf; [| discriminate].
  cbn [result_bind]. rewrite collect_words_spec. cbn [app]. intros [= <-].
  split.
  { exists bytes, (UTF8.decoded (UTF8.scan bytes)).
    cbn [UTF8.decode]. rewrite Hwf. auto. }
  split.
  - apply List.Forall_forall. intros w Hw.
    apply in_map_iff in Hw as (line & <- & Hline).
    apply filter_In in Hline as [_ Hkept]. unfold kept in Hkept.
    apply andb_true_iff in Hkept as [Ht Hs]. apply negb_true_iff in Hs.
    auto using strip_idempotent.
  - intros w Hw. apply in_map_iff in Hw as (line & <- & Hline).
    apply filter_In in Hline as [Hline Hkept].
    destruct (load_fold fs [file_path] ∅ []) as (evs & _ & _ & _ & _ & Hsources).
    destruct (Hsources file_path bytes (in_eq _ _) Hfile) as [_ Hlines].
    destruct (Hlines line Hline Hkept) as (h & Hh & Hmem).
    unfold is_common_password. cbn [snd common_password_hashes PasswordChecker_init].
    rewrite Hh. cbn [result_bind]. f_equal. now apply bool_decide_eq_true.
Qed.


End MergeFacts.

(** ** Hashing a file in chunks *)

Lemma read_chunks_all (fuel : nat) :
  forall (remaining : list Z) (chunk_size : Z) (message : list Z),
    (length remaining < fuel)%nat -> 0 < chunk_size \/ chunk_size = -1 ->
    read_chunks fuel remaining chunk_size message = Ok (Some (message ++ remaining)).
Proof.
  induction fuel as [| fuel IH]; intros remaining chunk_size message Hfuel Hsize; [lia |].
  cbn [read_chunks]. unfold file_read.
  destruct (Z.ltb_spec chunk_size (-1)) as [Hlow | _]; [lia |].
  destruct (Z.eqb_spec chunk_size (-1)) as [-> | Hne]; cbn [result_bind].
  - destruct remaining as [| b rest]; [now rewrite app_nil_r |].
    cbn [length] in Hfuel. rewrite IH by (cbn [length]; lia || (now right)).
    unfold sha256_update. now rewrite app_nil_r.
  - destruct remaining as [| b rest].
    + rewrite firstn_nil. now rewrite app_nil_r.
    + destruct (Z.to_nat chunk_size) as [| n] eqn:Hn; [lia |].
      cbn [firstn skipn]. rewrite IH.
      * unfold sha256_update. rewrite <- app_assoc. cbn [app].
        now rewrite firstn_skipn.
      * cbn [length] in Hfuel. rewrite length_skipn. lia.
      * exact Hsize.
Qed.


(** A chunk size of -5. *)
Example hash_file_sha256_below_minus_one :
  hash_file_sha256 words_fs words_txt (-5)
  = Raise (ValueError "read length must be non-negative or -1").
Proof. vm_compute. reflexivity. Qed.

(** ** The score helper and the size of the entropy *)

(** X7.  [calculate_password_strength_score] answers within 0..4, never
    rates a breached candidate above 0, never rates a candidate higher
    for being breached, and for a candidate that is not breached grows
    with the entropy: at least 1 from 28 bits, 2 from 36, 3 from 60 and
    4 from 128. *)
Theorem strength_score_monotone (e1 e2 : R) (is_common : bool) :
  0 <= calculate_password_strength_score e1 is_common <= 4 /\
  calculate_password_strength_score e1 true = 0 /\
  calculate_password_strength_score e1 is_common
    <= calculate_password_strength_score e1 false /\
  ((e1 <= e2)%R ->
   calculate_password_strength_score e1 false
     <= calculate_password_strength_score e2 false) /\
  (1 <= calculate_password_strength_score e1 false <-> (28 <= e1)%R) /\
  (2 <= calculate_password_strength_score e1 false <-> (36 <= e1)%R) /\
  (3 <= calculate_password_strength_score e1 false <-> (60 <= e1)%R) /\
  (4 <= calculate_password_strength_score e1 false <-> (128 <= e1)%R).
Proof.
  unfold calculate_password_strength_score.
  destruct is_common;
    destruct (Rlt_dec e1 28), (Rlt_dec e1 36), (Rlt_dec e1 60), (Rlt_dec e1 128),
      (Rlt_dec e2 28), (Rlt_dec e2 36), (Rlt_dec e2 60), (Rlt_dec e2 128);
    repeat split; intros; try lia; try lra.
Qed.

Section EntropySize.
Context {U : UnicodeData}.

Lemma spec_charset_size_max (s : pystr) : spec_charset_size s <= 195.
Proof.
  rewrite spec_charset_size_flags.
  destruct (class_present Lower s), (class_present Upper s), (class_present Digit s),
    (class_present Punct s), (class_present Space s), (class_present Extended s); lia.
Qed.

Lemma log2R_lt_8 (x : R) : (0 < x < 256)%R -> (log2R x < 8)%R.
Proof.
  intros [H0 H256].
  assert (E : log2R (2 ^ 8) = 8%R) by (rewrite log2R_pow2; simpl; lra).
  rewrite <- E. apply log2R_increasing; lra.
Qed.

(** The value of the entropy, by the size of the charset. *)
Lemma entropy_cases (s : pystr) :
  (spec_charset_size s <= 1 /\ calculate_entropy s = Ok 0%R) \/
  (2 <= spec_charset_size s /\ truthy s = true /\
   exists e, calculate_entropy s = Ok e /\ (0 < e < 8 * IZR (len s))%R).
Proof.
  rewrite calculate_entropy_eq.
  pose proof (spec_charset_size_nonneg s) as Hnn.
  pose proof (spec_charset_size_max s) as Hmax.
  destruct (Z.eqb_spec (spec_charset_size s) 0) as [E | E]; [left; split; [lia | reflexivity] |].
  destruct (Z.eq_dec (spec_charset_size s) 1) as [E1 | E1].
  - left. split; [lia |]. rewrite E1, log2R_1. f_equal. lra.
  - right. split; [lia |].
    assert (Hs : truthy s = true) by (destruct s; [now elim E | reflexivity]).
    split; [exact Hs |]. eexists. split; [reflexivity |].
    assert (Hpos : (0 < log2R (IZR (spec_charset_size s)))%R)
      by (apply log2R_pos, IZR_lt; lia).
    assert (Hlt : (log2R (IZR (spec_charset_size s)) < 8)%R)
      by (apply log2R_lt_8; split; apply IZR_lt; lia).
    assert (Hlen1 : (1 <= IZR (len s))%R) by (apply IZR_le; now apply truthy_len).
    split; [apply Rmult_lt_0_compat; lra |].
    rewrite (Rmult_comm 8). apply Rmult_lt_compat_l; lra.
Qed.

(** X8.  [calculate_entropy] never raises and its value is never
    negative; it is 0 exactly when the charset size is 0 or 1 (the
    empty candidate, characters of no class, whitespace alone), and
    otherwise it is positive and under 8 bits per character. *)
Theorem entropy_bounds (s : pystr) :
  exists e,
    calculate_entropy s = Ok e /\
    (0 <= e <= 8 * IZR (len s))%R /\
    (e = 0%R <-> entropy_charset_size s <= 1) /\
    (e <> 0%R -> (0 < e < 8 * IZR (len s))%R).
Proof.
  rewrite charset_size_spec.
  assert (Hlen : (0 <= IZR (len s))%R) by (apply IZR_le; unfold len; lia).
  destruct (entropy_cases s) as [[Hcs He] | (Hcs & Hs & e & He & Hrange)].
  - exists 0%R. split; [exact He |]. split; [lra |].
    split; [split; [intros _; exact Hcs | reflexivity] | intros H; now elim H].
  - exists e. split; [exact He |]. split; [lra |].
    split; [split; [lra | lia] | intros _; exact Hrange].
Qed.

(** A candidate of at most five characters is under 40 bits. *)
Lemma short_password_low_entropy (s : pystr) (e : R) :
  len s <= 5 -> calculate_entropy s = Ok e -> (e < 40)%R.
Proof.
  intros Hshort He.
  destruct (entropy_cases s) as [[_ He0] | (_ & _ & e' & He' & Hrange)].
  - rewrite He0 in He. injection He as <-. lra.
  - rewrite He' in He. injection He as <-.
    assert (H5 : (IZR (len s) <= 5)%R) by now apply IZR_le.
    lra.
Qed.

End EntropySize.

(** ** Analyses, one and many *)

Lemma hd_error_app_some {A : Type} (l r : list A) (x : A) :
  hd_error l = Some x -> hd_error (l ++ r) = Some x.
Proof. destruct l; [discriminate | exact (fun H => H)]. Qed.

Section AnalysisFacts.
Context {U : UnicodeData}.
Variable zxcvbn : pystr -> zxcvbn_result.

Lemma feedback_breach_first (password : pystr) (oracle : zxcvbn_result) (e : R) :
  hd_error (_generate_feedback password oracle true e) = Some msg_breach.
Proof.
  unfold _generate_feedback. cbv zeta iota.
  repeat match goal with
  | |- hd_error ([] ++ _) = _ => reflexivity
  | |- hd_error (if ?b then _ else _) = _ => destruct b
  | |- hd_error (_ ++ _) = Some _ => apply hd_error_app_some
  end.
Qed.

Lemma feedback_has_length_12 (password : pystr) (oracle : zxcvbn_result)
    (is_breached : bool) (e : R) :
  len password < 12 ->
  In msg_length_12 (_generate_feedback password oracle is_breached e).
Proof.
  intros Hlen. unfold _generate_feedback. cbv zeta.
  match goal with |- In _ (if ?b then _ else _) => destruct b end;
    [apply in_or_app; left |];
    (match goal with |- In _ (if ?b then _ else _) => destruct b end;
     [apply in_or_app; left |];
     (destruct (Z.ltb_spec (len password) 12); [| lia];
      apply in_or_app; right; now left)).
Qed.

Lemma feedback_has_low_entropy (password : pystr) (oracle : zxcvbn_result)
    (is_breached : bool) (e : R) :
  (e < 40)%R ->
  In msg_low_entropy (_generate_feedback password oracle is_breached e).
Proof.
  intros He. unfold _generate_feedback. cbv zeta.
  match goal with |- In _ (if ?b then _ else _) => destruct b end;
    [apply in_or_app; left |];
    (destruct (Rlt_dec e 40); [| contradiction];
     apply in_or_app; right; now left).
Qed.

Lemma feedback_has_suggestions (password : pystr) (oracle : zxcvbn_result)
    (is_breached : bool) (e : R) (x : pystr) :
  In x (suggestions (zx_feedback oracle)) ->
  In x (_generate_feedback password oracle is_breached e).
Proof.
  intros Hx. unfold _generate_feedback. cbv zeta.
  repeat match goal with
  | |- In _ (if ?b then _ else _) => destruct b
  | |- In _ (_ ++ [_]) => apply in_or_app; left
  end; apply in_or_app; now right.
Qed.

(** What a successful call of [analyze] has computed. *)
Lemma analyze_inv (self : PasswordAnalyzer) (password : pystr) (checker : PasswordChecker)
    (self' : PasswordAnalyzer) (checker' : PasswordChecker) (a : analysis) :
  analyze zxcvbn self password checker = (self', checker', Ok a) ->
  hash_password password = Ok (hash a) /\
  calculate_entropy password = Ok (entropy a) /\
  is_common a = bool_decide (hash a ∈ common_password_hashes checker) /\
  feedback a = _generate_feedback password (zxcvbn password) (is_common a) (entropy a) /\
  password_length a = len password /\
  score a = zx_score (zxcvbn password).
Proof.
  unfold analyze, is_common_password.
  destruct (hash_password password) as [h | e]; [| discriminate].
  destruct (calculate_entropy password) as [ent | e]; [| discriminate].
  cbn. intros [= _ _ <-]. cbn. auto 10.
Qed.

(** X9.  In every analysis result: the feedback of a breached candidate
    starts with the breach warning; a candidate of at most five
    characters gets both the "at least 12 characters" recommendation
    and the low-entropy warning, whatever its characters; and every
    suggestion of the oracle is passed on. *)
Theorem analysis_feedback_contents (self : PasswordAnalyzer) (password : pystr)
    (checker : PasswordChecker) (self' : PasswordAnalyzer) (checker' : PasswordChecker)
    (a : analysis) :
  analyze zxcvbn self password checker = (self', checker', Ok a) ->
  (is_common a = true -> hd_error (feedback a) = Some msg_breach) /\
  (len password <= 5 ->
   In msg_length_12 (feedback a) /\ In msg_low_entropy (feedback a)) /\
  (forall x, In x (suggestions (zx_feedback (zxcvbn password))) -> In x (feedback a)).
Proof.
  intros Hrun.
  destruct (analyze_inv _ _ _ _ _ _ Hrun) as (_ & He & _ & Hf & _ & _).
  rewrite Hf. split; [| split].
  - intros ->. apply feedback_breach_first.
  - intros Hshort. split.
    + apply feedback_has_length_12. lia.
    + apply feedback_has_low_entropy.
      now apply (short_password_low_entropy password).
  - intros x. apply feedback_has_suggestions.
Qed.

End AnalysisFacts.

Section BatchFacts.
Context {U : UnicodeData}.
Variable zxcvbn : pystr -> result zxcvbn_result.

(** One call on a candidate that the oracle accepts and that can be
    encoded. *)
Lemma analyze_raising_ok (self : PasswordAnalyzer) (password : pystr)
    (checker : PasswordChecker) :
  analysable zxcvbn password = true ->
  exists r a,
    zxcvbn password = Ok r /\
    analyze_raising zxcvbn self password checker
    = ({| _analysis_count := _analysis_count self + 1 |},
       {| common_password_hashes := common_password_hashes checker;
          _check_count := _check_count checker + 1 |},
       Ok a) /\
    password_length a = len password /\
    score a = zx_score r /\
    hash_password password = Ok (hash a) /\
    is_common a = bool_decide (hash a ∈ common_password_hashes checker).
Proof.
  unfold analysable, analyze_raising. intros Hok.
  apply andb_true_iff in Hok as [Hret Henc].
  destruct (zxcvbn password) as [r | e]; [| discriminate].
  destruct (hash_password_ok password (proj1 (encodableb_spec password) Henc)) as [h Hh].
  destruct (calculate_entropy_total password) as [ent He].
  rewrite (analyze_ok (fun _ => r) self password checker h ent Hh He).
  eexists r, _. split; [reflexivity |]. split; [reflexivity |].
  cbn. auto.
Qed.

(** One call on a candidate that the oracle refuses, or that it accepts
    and that cannot be encoded. *)
Lemma analyze_raising_fails (self : PasswordAnalyzer) (password : pystr)
    (checker : PasswordChecker) :
  analysable zxcvbn password = false ->
  analyze_raising zxcvbn self password checker
  = match zxcvbn password with
    | Raise e =>
        ({| _analysis_count := _analysis_count self + 1 |}, checker, Raise e)
    | Ok _ =>
        ({| _analysis_count := _analysis_count self + 1 |},
         {| common_password_hashes := common_password_hashes checker;
            _check_count := _check_count checker + 1 |},
         Raise UnicodeEncodeError)
    end.
Proof.
  unfold analysable, analyze_raising. intros Hbad.
  destruct (zxcvbn password) as [r | e]; [| reflexivity].
  cbn [returned andb] in Hbad.
  unfold analyze, is_common_password, hash_password.
  now rewrite (encode_fails password Hbad).
Qed.

(** The loop on candidates that can all be analysed. *)
Lemma analyze_all_ok (passwords : list pystr) :
  forallb (analysable zxcvbn) passwords = true ->
  forall (analyzer : PasswordAnalyzer) (checker : PasswordChecker)
         (results : list (pystr * analysis)),
  exists more,
    analyze_all zxcvbn analyzer checker passwords results
    = ({| _analysis_count := _analysis_count analyzer + len passwords |},
       {| common_password_hashes := common_password_hashes checker;
          _check_count := _check_count checker + len passwords |},
       Ok (results ++ more)) /\
    map fst more = passwords /\
    Forall (fun pr =>
              password_length (snd pr) = len (fst pr) /\
              (exists r, zxcvbn (fst pr) = Ok r /\ score (snd pr) = zx_score r) /\
              hash_password (fst pr) = Ok (hash (snd pr)) /\
              is_common (snd pr)
              = bool_decide (hash (snd pr) ∈ common_password_hashes checker)) more.
Proof.
  induction passwords as [| pwd rest IH]; intros Hall analyzer checker results.
  - exists []. cbn [analyze_all]. change (len (@nil pystr)) with 0.
    rewrite !Z.add_0_r, app_nil_r. destruct analyzer, checker.
    repeat split. constructor.
  - cbn [forallb] in Hall. apply andb_true_iff in Hall as [Hpwd Hrest].
    destruct (analyze_raising_ok analyzer pwd checker Hpwd)
      as (r & a & Hr & Hrun & Hlen & Hscore & Hhash & Hcommon).
    cbn [analyze_all]. rewrite Hrun.
    match goal with
    | |- context [analyze_all _ ?a' ?c' rest (results ++ [?x])] =>
        destruct (IH Hrest a' c' (results ++ [x])) as (more & Hmore & Hfst & Hforall);
        exists (x :: more)
    end.
    rewrite Hmore. cbn [_analysis_count _check_count common_password_hashes].
    split; [| split].
    + rewrite <- app_assoc. cbn [app].
      replace (len (pwd :: rest)) with (1 + len rest)
        by (unfold len; cbn [length]; lia).
      now rewrite !Z.add_assoc.
    + cbn [map fst]. now rewrite Hfst.
    + constructor; [cbn [fst snd]; eauto 6 | exact Hforall].
Qed.

(** X10.  When the oracle returns on every candidate and every
    candidate can be encoded, the batch loop gives one result per
    candidate, in order; each result has the length of its candidate,
    the oracle's score for it and its digest, and says breached exactly
    when that digest is in the index.  Both counters have moved by the
    number of candidates and the index is the same. *)
Theorem batch_loop_results (analyzer : PasswordAnalyzer) (checker : PasswordChecker)
    (passwords : list pystr) :
  forallb (analysable zxcvbn) passwords = true ->
  exists analyzer' checker' results,
    analyze_all zxcvbn analyzer checker passwords [] = (analyzer', checker', Ok results) /\
    map fst results = passwords /\
    PasswordAnalyzer_get_stats analyzer'
      = PasswordAnalyzer_get_stats analyzer + len passwords /\
    PasswordChecker_get_stats checker'
      = {| total_checks := total_checks (PasswordChecker_get_stats checker) + len passwords;
           database_size := database_size (PasswordChecker_get_stats checker) |} /\
    common_password_hashes checker' = common_password_hashes checker /\
    Forall (fun pr =>
              password_length (snd pr) = len (fst pr) /\
              (exists r, zxcvbn (fst pr) = Ok r /\ score (snd pr) = zx_score r) /\
              hash_password (fst pr) = Ok (hash (snd pr)) /\
              is_common (snd pr)
              = bool_decide (hash (snd pr) ∈ common_password_hashes checker)) results.
Proof.
  intros Hall.
  destruct (analyze_all_ok passwords Hall analyzer checker []) as (more & Hrun & Hfst & Hres).
  eexists _, _, more. split; [exact Hrun |].
  repeat split; assumption.
Qed.

(** X11.  The batch loop ends at the first candidate that cannot be
    analysed, and the results collected so far are lost with the
    exception.  When the oracle raises on that candidate, its exception
    escapes, the analysis counter has counted the candidate and the
    check counter has not; when the oracle returns and the candidate
    cannot be encoded, [UnicodeEncodeError] escapes and both counters
    have counted it. *)
Theorem batch_loop_first_failure (analyzer : PasswordAnalyzer)
    (checker : PasswordChecker) (before : list pystr) (bad : pystr) (after : list pystr) :
  forallb (analysable zxcvbn) before = true ->
  analysable zxcvbn bad = false ->
  analyze_all zxcvbn analyzer checker (before ++ bad :: after) []
  = match zxcvbn bad with
    | Raise e =>
        ({| _analysis_count := _analysis_count analyzer + len before + 1 |},
         {| common_password_hashes := common_password_hashes checker;
            _check_count := _check_count checker + len before |},
         Raise e)
    | Ok _ =>
        ({| _analysis_count := _analysis_count analyzer + len before + 1 |},
         {| common_password_hashes := common_password_hashes checker;
            _check_count := _check_count checker + len before + 1 |},
         Raise UnicodeEncodeError)
    end.
Proof.
  intros Hbefore Hbad.
  assert (Hgen : forall passwords, forallb (analysable zxcvbn) passwords = true ->
            forall a c results,
              analyze_all zxcvbn a c (passwords ++ bad :: after) results
              = match zxcvbn bad with
                | Raise e =>
                    ({| _analysis_count := _analysis_count a + len passwords + 1 |},
                     {| common_password_hashes := common_password_hashes c;
                        _check_count := _check_count c + len passwords |},
                     Raise e)
                | Ok _ =>
                    ({| _analysis_count := _analysis_count a + len passwords + 1 |},
                     {| common_password_hashes := common_password_hashes c;
                        _check_count := _check_count c + len passwords + 1 |},
                     Raise UnicodeEncodeError)
                end).
  { induction passwords as [| pwd rest IH]; intros Hall a c results.
    - cbn [app analyze_all]. rewrite (analyze_raising_fails a bad c Hbad).
      change (len (@nil pystr)) with 0. rewrite !Z.add_0_r.
      destruct (zxcvbn bad); [reflexivity | now destruct c].
    - cbn [forallb] in Hall. apply andb_true_iff in Hall as [Hpwd Hrest].
      destruct (analyze_raising_ok a pwd c Hpwd) as (r & x & _ & Hrun & _).
      cbn [app analyze_all]. rewrite Hrun, (IH Hrest).
      cbn [_analysis_count _check_count common_password_hashes].
      replace (len (pwd :: rest)) with (1 + len rest)
        by (unfold len; cbn [length]; lia).
      now rewrite !Z.add_assoc. }
  apply Hgen, Hbefore.
Qed.

(** What the loop raises on candidates that can all be encoded was
    raised by the oracle. *)
Lemma analyze_all_raise (passwords : list pystr) :
  Forall encodable passwords ->
  forall (analyzer : PasswordAnalyzer) (checker : PasswordChecker)
         (results : list (pystr * analysis))
         (analyzer' : PasswordAnalyzer) (checker' : PasswordChecker) (e : exn),
    analyze_all zxcvbn analyzer checker passwords results = (analyzer', checker', Raise e) ->
    exists pwd, In pwd passwords /\ zxcvbn pwd = Raise e.
Proof.
  induction 1 as [| pwd rest Hpwd _ IH]; intros analyzer checker results analyzer' checker' e.
  - cbn [analyze_all]. discriminate.
  - cbn [analyze_all].
    destruct (analysable zxcvbn pwd) eqn:Hok.
    + destruct (analyze_raising_ok analyzer pwd checker Hok) as (r & x & _ & Hrun & _).
      rewrite Hrun. intros Hrest.
      destruct (IH _ _ _ _ _ _ Hrest) as (p & Hp & Hraise).
      exists p. split; [now right | exact Hraise].
    + rewrite (analyze_raising_fails analyzer pwd checker Hok).
      unfold analysable in Hok.
      destruct (zxcvbn pwd) as [r | e0] eqn:Hr.
      * cbn [returned andb] in Hok.
        apply encodableb_spec in Hpwd. congruence.
      * intros [= _ _ <-]. exists pwd. split; [now left | exact Hr].
Qed.

(** X12.  The candidates [batch] reads from its input file are the
    non-blank lines, trimmed, and none is empty.  A file that decodes
    holds no surrogate, so hashing never fails on them: when the oracle
    returns on every candidate the analysis loop gives one result per
    candidate, and whatever the loop raises was raised by the oracle on
    one of the candidates. *)
Theorem batch_file_only_oracle_raises (fs : filesystem) (input_file : pystr)
    (passwords : list pystr) (analyzer : PasswordAnalyzer) (checker : PasswordChecker) :
  batch_passwords fs input_file = Ok passwords ->
  Forall (fun p => truthy p = true /\ strip p = p) passwords /\
  (forallb (fun p => returned (zxcvbn p)) passwords = true ->
   exists analyzer' checker' results,
     analyze_all zxcvbn analyzer checker passwords [] = (analyzer', checker', Ok results) /\
     map fst results = passwords) /\
  (forall analyzer' checker' e,
     analyze_all zxcvbn analyzer checker passwords [] = (analyzer', checker', Raise e) ->
     exists pwd, In pwd passwords /\ zxcvbn pwd = Raise e).
Proof.
  unfold batch_passwords.
  destruct (fs input_file) as [| | bytes]; try discriminate.
  cbn [UTF8.decode]. destruct (UTF8.well_formed bytes); [| discriminate].
  cbn [result_bind]. intros [= <-].
  pose proof (text_lines_encodable _ (decoded_encodable bytes)) as Henc.
  rewrite List.Forall_forall in Henc.
  match goal with
  | |- context [analyze_all _ _ _ ?ps _] => set (candidates := ps)
  end.
  assert (Hall : Forall encodable candidates).
  { apply List.Forall_forall. intros p Hp.
    apply in_map_iff in Hp as (line & <- & Hline).
    apply filter_In in Hline as [Hline _].
    now apply strip_encodable, Henc. }
  split; [| split].
  - apply List.Forall_forall. intros p Hp.
    apply in_map_iff in Hp as (line & <- & Hline).
    apply filter_In in Hline as [_ Hline].
    split; [exact Hline | apply strip_idempotent].
  - intros Hret.
    destruct (analyze_all_ok candidates) with (analyzer := analyzer) (checker := checker)
      (results := @nil (pystr * analysis)) as (more & Hrun & Hfst & _).
    { apply forallb_forall. intros p Hp. unfold analysable.
      rewrite forallb_forall in Hret. rewrite (Hret p Hp). cbn [andb].
      apply encodableb_spec. rewrite List.Forall_forall in Hall. now apply Hall. }
    eexists _, _, more. split; [exact Hrun | exact Hfst].
  - intros analyzer' checker' e. apply analyze_all_raise. exact Hall.
Qed.

End BatchFacts.

(** ** The other generators and the table of generated passwords *)

Lemma generate_pin_ok (length : Z) (s : rng_stream) :
  exists pin s',
    generate_pin length s = (s', Ok pin) /\
    len pin = Z.max length 0 /\
    Forall (fun c => In c digits) pin.
Proof.
  unfold generate_pin.
  destruct (replicate_gen_ok (fun part => exists d, 0 <= d <= 9 /\ part = [48 + d])
              (do d <- randint 0 9; gen_ret (str_of_int d)))
    with (n := range_count length) (s := s)
    as (parts & s' & Hparts & Hcount & Hall).
  { intros s0. destruct (randint_ok 0 9 s0) as (d & Hd & Hrange); [lia |].
    exists (str_of_int d), (rest_of s0).
    rewrite (gen_bind_ok _ _ _ _ _ Hd). split; [reflexivity |].
    exists d. split; [assumption | now apply str_of_digit]. }
  rewrite (gen_bind_ok _ _ _ _ _ Hparts).
  exists (concat parts), s'. split; [reflexivity |].
  assert (Hshape : List.length (concat parts) = List.length parts
                   /\ Forall (fun c => In c digits) (concat parts)).
  { clear Hparts Hcount. induction Hall as [| part parts (d & Hd & ->) _ [IHlen IHall]].
    - split; [reflexivity | constructor].
    - cbn [concat app Datatypes.length]. split; [now rewrite IHlen |].
      constructor; [| assumption].
      assert (H : d = 0 \/ d = 1 \/ d = 2 \/ d = 3 \/ d = 4 \/ d = 5 \/ d = 6
                  \/ d = 7 \/ d = 8 \/ d = 9) by lia.
      repeat (destruct H as [-> | H]; [cbn; tauto |]). subst d. cbn. tauto. }
  destruct Hshape as [Hlen Hdigits].
  split; [unfold len, range_count, pystr, pychar in *; lia | assumption].
Qed.

(** X13.  For a length of at least 2 and any stream of random draws,
    [generate_alphanumeric] returns a string of exactly that many
    characters, all letters or digits, with at least one letter and at
    least one digit. *)
Theorem generate_alphanumeric_classes (length : Z) (s : rng_stream) :
  2 <= length ->
  exists password s',
    generate_alphanumeric length s = (s', Ok password) /\
    len password = length /\
    Forall (fun c => In c (ascii_letters ++ digits)) password /\
    (exists c, In c password /\ In c ascii_letters) /\
    (exists c, In c password /\ In c digits).
Proof.
  intros Hlen.
  destruct (generate_alphanumeric_ok length s Hlen)
    as (password & s' & c1 & c2 & rest & Hrun & Hperm & Hc1 & Hc2 & Hcount & Hall).
  exists password, s'. split; [assumption |].
  assert (Hin : forall c, In c ([c1; c2] ++ rest) -> In c password).
  { intros c Hc. eapply Permutation_in; [symmetry; exact Hperm | exact Hc]. }
  split.
  { unfold len. rewrite (Permutation_length Hperm). cbn [Datatypes.length app]. lia. }
  split.
  { eapply Permutation_Forall; [symmetry; exact Hperm |]. cbn [app].
    do 2 (constructor; [rewrite in_app_iff; auto |]). assumption. }
  split.
  - exists c1. split; [apply Hin; cbn; auto | assumption].
  - exists c2. split; [apply Hin; cbn; auto | assumption].
Qed.

Section ShownPasswords.
Context {U : UnicodeData} {L : Libm} {M : Rich}.

(** A text without an opening bracket is printed as it is. *)
Lemma console_print_plain (text : pystr) :
  Forall (fun c => c <> 91) text -> console_print text = Ok tt.
Proof.
  intros Hplain. unfold console_print.
  replace (existsb (Z.eqb 91) text) with false; [reflexivity |].
  symmetry. apply not_true_is_false. intros Hex.
  apply existsb_exists in Hex as (c & Hc & Heq).
  rewrite List.Forall_forall in Hplain. apply (Hplain c Hc).
  apply Z.eqb_eq in Heq. congruence.
Qed.

Lemma print_table_plain (rows : list table_row) :
  Forall (fun row => Forall (fun c => c <> 91) (row_password row)) rows ->
  print_table rows = Ok tt.
Proof.
  induction 1 as [| row rest Hrow _ IH]; [reflexivity |].
  cbn [print_table]. now rewrite (console_print_plain _ Hrow).
Qed.

(** The loop for a style whose generator never raises. *)
Lemma show_rows_ok (generator : PasswordGenerator) (entropy : Z) (style : pystr)
    (generate : Gen pystr) (P : pystr -> Prop) :
  styled_password generator style entropy = Some generate ->
  (forall s, exists pwd s', generate s = (s', Ok pwd) /\ P pwd) ->
  forall (n : nat) (i : Z) (rows : list table_row) (out : list shown) (s : rng_stream),
  exists s' more,
    show_rows n i generator entropy style rows out s = (s', out, Ok (Some (rows ++ more))) /\
    map (fun row : table_row => fst (fst (fst row))) more
      = map (fun k => i + 1 + Z.of_nat k) (seq 0 n) /\
    Forall (fun row : table_row =>
              P (row_password row) /\
              snd (fst row) = len (row_password row) /\
              calculate_entropy (row_password row) = Ok (snd row)) more.
Proof.
  intros Hstyle Hgen.
  induction n as [| n IH]; intros i rows out s; cbn [show_rows].
  - exists s, []. rewrite app_nil_r. repeat split. constructor.
  - unfold try_row. rewrite Hstyle.
    destruct (Hgen s) as (pwd & s1 & Hrun & HP). rewrite Hrun.
    destruct (calculate_entropy_total pwd) as [e He]. rewrite He. cbn [result_bind].
    destruct (IH (i + 1) (rows ++ [(i + 1, pwd, len pwd, e)]) out s1)
      as (s' & more & Hrows & Hidx & Hall).
    exists s', ((i + 1, pwd, len pwd, e) :: more).
    split; [now rewrite Hrows, <- app_assoc |].
    split.
    + cbn [map seq fst]. rewrite Hidx, <- seq_shift, map_map.
      f_equal; [lia |]. apply map_ext. intros k. lia.
    + constructor; [cbn; auto | exact Hall].
Qed.

Lemma hands_table_of (generator : PasswordGenerator) (count entropy : Z) (style : pystr)
    (generate : Gen pystr) (P : pystr -> Prop) (s : rng_stream) :
  styled_password generator style entropy = Some generate ->
  (forall s, exists pwd s', generate s = (s', Ok pwd) /\ P pwd) ->
  hands_table generator count entropy style
    (if bool_decide (style = py "passphrase") then [PassphraseTip]
     else if bool_decide (style = py "pin") then [PinWarning] else [])
    P s.
Proof.
  intros Hstyle Hgen. unfold hands_table, show_generated_passwords.
  destruct (show_rows_ok generator entropy style generate P Hstyle Hgen
              (range_count count) 0 [] [Heading count] s)
    as (s' & rows & Hrows & Hidx & Hall).
  rewrite Hrows. exists s', rows. cbn [app]. split.
  - split; [| exact Hall]. rewrite Hidx. apply map_ext. intros k. lia.
  - destruct (print_table rows); reflexivity.
Qed.

Lemma shows_table_of (generator : PasswordGenerator) (count entropy : Z) (style : pystr)
    (suffix : list shown) (P : pystr -> Prop) (s : rng_stream) :
  (forall pwd, P pwd -> Forall (fun c => c <> 91) pwd) ->
  hands_table generator count entropy style suffix P s ->
  shows_table generator count entropy style suffix P s.
Proof.
  intros Hplain (s' & rows & Hrows & Hrun).
  exists s', rows. split; [exact Hrows |].
  rewrite Hrun, print_table_plain; [reflexivity |].
  destruct Hrows as [_ Hall].
  eapply List.Forall_impl; [| exact Hall]. intros row (HP & _). now apply Hplain.
Qed.

(** Letters and digits are no brackets. *)
Lemma no_bracket_in (charset password : pystr) :
  forallb (fun c => negb (c =? 91)) charset = true ->
  Forall (fun c => In c charset) password ->
  Forall (fun c => c <> 91) password.
Proof.
  intros Hcheck Hall. rewrite forallb_forall in Hcheck.
  eapply List.Forall_impl; [| exact Hall].
  intros c Hc. specialize (Hcheck c Hc).
  apply negb_true_iff, Z.eqb_neq in Hcheck. exact Hcheck.
Qed.

(** X14.  For the styles mixed, alphanumeric and pin,
    [show_generated_passwords] never meets a generation error, whatever
    the entropy asked for: the lengths it asks of the generators are at
    least 16, 12 and 6, above their minimum.  It builds a table with
    one row per password, numbered from 1, each password with the
    length computed from the entropy.  For alphanumeric and pin the
    heading and the table are printed, and for pins the warning.  A
    mixed password may hold brackets: the heading and the table are
    printed unless rich refuses one of the passwords as markup, and
    then its [MarkupError] leaves the call after the heading. *)
Theorem generated_passwords_table (generator : PasswordGenerator) (count entropy : Z)
    (s : rng_stream) :
  hands_table generator count entropy (py "mixed") []
    (fun pwd => len pwd = Z.max 16 (entropy / 4) /\
                Forall (fun c => In c mixed_charset) pwd) s /\
  shows_table generator count entropy (py "alphanumeric") []
    (fun pwd => len pwd = Z.max 12 (entropy / 5) /\
                Forall (fun c => In c (ascii_letters ++ digits)) pwd) s /\
  shows_table generator count entropy (py "pin") [PinWarning]
    (fun pwd => len pwd = Z.max 6 (entropy / 3) /\
                Forall (fun c => In c digits) pwd) s.
Proof.
  split; [| split].
  - apply (hands_table_of generator count entropy (py "mixed")
             (generate_mixed (Z.max 16 (entropy / 4)))); [reflexivity |].
    intros s0.
    destruct (generate_mixed_ok (Z.max 16 (entropy / 4)) s0)
      as (pwd & s' & c1 & c2 & c3 & c4 & rest
          & Hrun & Hperm & Hc1 & Hc2 & Hc3 & Hc4 & Hcount & Hall); [lia |].
    exists pwd, s'. split; [exact Hrun |]. split.
    + unfold len. rewrite (Permutation_length Hperm). cbn [Datatypes.length app]. lia.
    + eapply Permutation_Forall; [symmetry; exact Hperm |]. cbn [app].
      do 4 (constructor;
            [unfold mixed_charset, ascii_letters; rewrite !in_app_iff; auto |]).
      assumption.
  - apply shows_table_of.
    { intros pwd [_ Hall]. apply (no_bracket_in (ascii_letters ++ digits)); [| exact Hall].
      vm_compute. reflexivity. }
    apply (hands_table_of generator count entropy (py "alphanumeric")
             (generate_alphanumeric (Z.max 12 (entropy / 5)))); [reflexivity |].
    intros s0.
    destruct (generate_alphanumeric_ok (Z.max 12 (entropy / 5)) s0)
      as (pwd & s' & c1 & c2 & rest & Hrun & Hperm & Hc1 & Hc2 & Hcount & Hall); [lia |].
    exists pwd, s'. split; [exact Hrun |]. split.
    + unfold len. rewrite (Permutation_length Hperm). cbn [Datatypes.length app]. lia.
    + eapply Permutation_Forall; [symmetry; exact Hperm |]. cbn [app].
      do 2 (constructor; [rewrite in_app_iff; auto |]). assumption.
  - apply shows_table_of.
    { intros pwd [_ Hall]. apply (no_bracket_in digits); [| exact Hall].
      vm_compute. reflexivity. }
    apply (hands_table_of generator count entropy (py "pin")
             (generate_pin (Z.max 6 (entropy / 3)))); [reflexivity |].
    intros s0.
    destruct (generate_pin_ok (Z.max 6 (entropy / 3)) s0) as (pin & s' & Hrun & Hlen & Hall).
    exists pin, s'. split; [exact Hrun |]. split; [lia | exact Hall].
Qed.

(** The loop for a style that is not known, when the message about it
    is refused and the handler's message is printed: one error message
    per round, and no row. *)
Lemma show_rows_unknown (generator : PasswordGenerator) (entropy : Z) (style : pystr)
    (e : exn) :
  styled_password generator style entropy = None ->
  console_print (unknown_style_text style) = Raise e ->
  console_print (generation_error_text e) = Ok tt ->
  forall (n : nat) (i : Z) (rows : list table_row) (out : list shown) (s : rng_stream),
    show_rows n i generator entropy style rows out s
    = (s, out ++ repeat (GenerationError e) n, Ok (Some rows)).
Proof.
  intros Hstyle Hprint Hhandler.
  induction n as [| n IH]; intros i rows out s; cbn [show_rows repeat].
  - now rewrite app_nil_r.
  - unfold try_row. rewrite Hstyle, Hprint. cbn [result_bind]. rewrite Hhandler.
    rewrite IH, <- app_assoc. reflexivity.
Qed.

(** X15.  A style that [show_generated_passwords] does not know is only
    noticed inside the loop.  With a count of 0 or less it prints the
    heading and an empty table and does not complain.  With a count of
    at least 1 it prints the heading and, when rich accepts the message
    about the style, that message: nothing is drawn and no table is
    printed.  When rich refuses the message (the style is read as
    markup), its [MarkupError] is caught by the handler of the loop,
    whose own message quotes it: when that one is refused too, the
    second [MarkupError] leaves the call after the heading; when it is
    accepted, every round prints it and an empty table follows. *)
Theorem unknown_style_shown (generator : PasswordGenerator) (count entropy : Z)
    (style : pystr) (s : rng_stream) :
  styled_password generator style entropy = None ->
  (count <= 0 ->
   show_generated_passwords generator count entropy style s
   = (s, [Heading count; Table []], Ok tt)) /\
  (1 <= count ->
   console_print (unknown_style_text style) = Ok tt ->
   show_generated_passwords generator count entropy style s
   = (s, [Heading count; UnknownStyle style], Ok tt)) /\
  (1 <= count ->
   forall e e',
     console_print (unknown_style_text style) = Raise e ->
     console_print (generation_error_text e) = Raise e' ->
     show_generated_passwords generator count entropy style s
     = (s, [Heading count], Raise e')) /\
  (1 <= count ->
   forall e,
     console_print (unknown_style_text style) = Raise e ->
     console_print (generation_error_text e) = Ok tt ->
     show_generated_passwords generator count entropy style s
     = (s, [Heading count] ++ repeat (GenerationError e) (Z.to_nat count) ++ [Table []],
        Ok tt)).
Proof.
  intros Hstyle. unfold show_generated_passwords, range_count.
  assert (Hsuffix : (if bool_decide (style = py "passphrase") then [PassphraseTip]
                     else if bool_decide (style = py "pin") then [PinWarning] else [])
                    = []).
  { unfold styled_password in Hstyle.
    repeat match type of Hstyle with
    | (if ?b then _ else _) = None => destruct b; [discriminate |]
    end. reflexivity. }
  split; [| split; [| split]].
  - intros Hcount. replace (Z.to_nat count) with O by lia.
    cbn [show_rows print_table app]. now rewrite Hsuffix.
  - intros Hcount Hprint.
    destruct (Z.to_nat count) as [| n] eqn:Hn; [lia |].
    cbn [show_rows]. unfold try_row. now rewrite Hstyle, Hprint.
  - intros Hcount e e' Hprint Hhandler.
    destruct (Z.to_nat count) as [| n] eqn:Hn; [lia |].
    cbn [show_rows]. unfold try_row. rewrite Hstyle, Hprint. cbn [result_bind].
    now rewrite Hhandler.
  - intros Hcount e Hprint Hhandler.
    rewrite (show_rows_unknown generator entropy style e Hstyle Hprint Hhandler).
    cbn [print_table]. rewrite Hsuffix, app_nil_r, <- app_assoc. reflexivity.
Qed.

(** X22.  Whenever the two lines that fix the number of words return,
    [generate_passphrase] returns as well, whatever the random draws:
    it has drawn exactly that many words, at least 3, each from the
    wordlist, and the passphrase is these words, capitalized on
    request, joined by the separator and followed on request by a
    number from 10 to 99. *)
Theorem passphrase_shape (self : PasswordGenerator) (entropy count : Z)
    (separator : pystr) (capitalize add_number : bool) (s : rng_stream) :
  words_needed self entropy = Ok count ->
  3 <= count /\
  exists words s',
    draw_words self entropy s = (s', Ok words) /\
    len words = count /\
    Forall (fun w => In w (eff_words self)) words /\
    exists suffix s'',
      generate_passphrase self entropy separator capitalize add_number s
      = (s'', Ok (join separator
                    (if capitalize then map ucd_capitalize words else words)
                  ++ suffix)) /\
      if add_number
      then exists n, 10 <= n <= 99 /\ suffix = str_of_int n
      else suffix = [].
Proof.
  intros Hcount. split.
  - exact (proj1 (words_needed_inv self entropy count Hcount)).
  - exact (generate_passphrase_ok self entropy count separator capitalize add_number s
             Hcount).
Qed.

(** X16.  [generate_passphrase] with an empty wordlist raises the
    [ValueError] of [math.log2(0)].  With a wordlist of one word, and a
    [log2] that is 0 at 1, it raises as well: the [OverflowError] of the
    conversion when the entropy asked for is too large for a float, and
    otherwise the [ZeroDivisionError] of dividing by [log2(1) = 0].  In
    every case nothing has been drawn. *)
Theorem passphrase_small_wordlist (entropy : Z) (separator : pystr)
    (capitalize add_number : bool) (word : pystr) (sign : bool) (s : rng_stream) :
  libm_log2 (binary_normalize 53 1024 1 0 false) = S754_zero sign ->
  generate_passphrase {| eff_words := [] |} entropy separator capitalize add_number s
    = (s, Raise (ValueError "math domain error")) /\
  generate_passphrase {| eff_words := [word] |} entropy separator capitalize add_number s
    = (s, Raise (match float_of_int entropy with
                 | Ok _ => ZeroDivisionError
                 | Raise e => e
                 end)).
Proof.
  intros Hlog. split.
  - reflexivity.
  - unfold generate_passphrase, draw_words, words_needed, gen_bind, gen_lift.
    cbn [eff_words]. change (len [word]) with 1.
    unfold math_log2_of_len. cbn [Z.leb Z.compare result_bind]. rewrite Hlog.
    unfold truediv. destruct (float_of_int entropy); reflexivity.
Qed.

Lemma split_ws_parts (s cur_rev : pystr) :
  Forall (fun c => isspace c = false) cur_rev ->
  Forall (fun part => truthy part = true /\ Forall (fun c => isspace c = false) part)
    (split_ws cur_rev s).
Proof.
  revert cur_rev. induction s as [| c r IH]; intros cur_rev Hcur; cbn [split_ws].
  - destruct cur_rev as [| x xs] eqn:E; constructor; [| constructor].
    rewrite <- E in *. split.
    + subst cur_rev. cbn [rev]. now destruct (rev xs).
    + now apply Forall_rev.
  - destruct (isspace c) eqn:Hc.
    + destruct cur_rev as [| x xs] eqn:E; [apply IH; constructor |].
      constructor; [| apply IH; constructor].
      rewrite <- E in *. split.
      * subst cur_rev. cbn [rev]. now destruct (rev xs).
      * now apply Forall_rev.
    + apply IH. now constructor.
Qed.

Lemma eff_words_of_parts (lines : list pystr) :
  forall words,
    Forall (fun w => truthy w = true /\ Forall (fun c => isspace c = false) w) words ->
    Forall (fun w => truthy w = true /\ Forall (fun c => isspace c = false) w)
      (eff_words_of lines words).
Proof.
  induction lines as [| line rest IH]; intros words Hwords; cbn [eff_words_of];
    [exact Hwords |].
  destruct (truthy (strip line) && negb (startswith_hash (strip line))); [| now apply IH].
  destruct (Z.leb_spec 2 (len (split (strip line)))) as [Hparts | _]; [| now apply IH].
  apply IH. apply Forall_app. split; [exact Hwords |].
  constructor; [| constructor].
  pose proof (split_ws_parts (strip line) [] (List.Forall_nil _)) as Hall.
  rewrite List.Forall_forall in Hall. apply Hall.
  apply nth_In. unfold len, split in Hparts. lia.
Qed.

(** X17.  [_load_eff_wordlist] falls back on the built-in list, with
    the warning, when the file is missing and only then: a path that
    cannot be opened raises [OSError], a file that is not well-formed
    UTF-8 raises [UnicodeDecodeError], and any other file gives its own
    words without a warning, be they few or none.  Every word it
    returns, from the file or from the fallback, is non-empty and free
    of whitespace. *)
Theorem eff_wordlist_words (fs : filesystem) (wordlist_path : pystr) :
  (fs wordlist_path = Missing ->
   _load_eff_wordlist fs wordlist_path = Ok (_get_fallback_wordlist, true)) /\
  (fs wordlist_path = Unopenable ->
   _load_eff_wordlist fs wordlist_path = Raise OSError) /\
  (forall bytes,
     fs wordlist_path = Contents bytes -> UTF8.well_formed bytes = false ->
     _load_eff_wordlist fs wordlist_path = Raise UnicodeDecodeError) /\
  (forall bytes,
     fs wordlist_path = Contents bytes -> UTF8.well_formed bytes = true ->
     _load_eff_wordlist fs wordlist_path
     = Ok (eff_words_of (text_lines (UTF8.decoded (UTF8.scan bytes))) [], false)) /\
  (forall words warned,
     _load_eff_wordlist fs wordlist_path = Ok (words, warned) ->
     Forall (fun w => truthy w = true /\ Forall (fun c => isspace c = false) w) words).
Proof.
  unfold _load_eff_wordlist.
  split; [now intros -> |]. split; [now intros -> |].
  split; [intros bytes -> Hwf; cbn [UTF8.decode]; now rewrite Hwf |].
  split; [intros bytes -> Hwf; cbn [UTF8.decode]; now rewrite Hwf |].
  intros words warned.
  destruct (fs wordlist_path) as [| | bytes] eqn:Hfile.
  - intros [= <- _].
    apply List.Forall_forall. intros w Hw.
    assert (Hcheck : forallb (fun w => truthy w && forallb (fun c => negb (isspace c)) w)
                       _get_fallback_wordlist = true) by (vm_compute; reflexivity).
    rewrite forallb_forall in Hcheck. specialize (Hcheck w Hw).
    apply andb_true_iff in Hcheck as [Ht Hsp]. split; [exact Ht |].
    apply List.Forall_forall. intros c Hc. rewrite forallb_forall in Hsp.
    now apply negb_true_iff, Hsp.
  - discriminate.
  - cbn [UTF8.decode]. destruct (UTF8.well_formed bytes); cbn [result_bind];
      [| discriminate].
    intros [= <- _]. apply eff_words_of_parts. constructor.
Qed.

End ShownPasswords.

(** The style [[/]] with the sample reader: the message about the
    unknown style is refused, the handler's message about the refusal
    is refused as well, and the second error leaves the call. *)
Example unknown_style_markup_escapes :
  @show_generated_passwords ascii_only sample_libm sample_rich fallback_generator 1 52
    (py "[/]") sample_stream
  = (sample_stream, [Heading 1],
     Raise (MarkupError "closing tag '[/red]' at position 94 doesn't match any open tag")).
Proof. vm_compute. reflexivity. Qed.

(** One word and an entropy of [2 ^ 1024] bits: the conversion to float
    raises before the division. *)
Example passphrase_one_word_overflow :
  @generate_passphrase ascii_only sample_libm {| eff_words := [py "word"] |} (2 ^ 1024)
    (py "-") true true sample_stream
  = (sample_stream, Raise (OverflowError "int too large to convert to float")).
Proof. vm_compute. reflexivity. Qed.

(** ** Summaries of a batch *)

Lemma count_if_range {A : Type} (p : A -> bool) (l : list A) : 0 <= count_if p l <= len l.
Proof.
  unfold count_if, len. pose proof (filter_length_le p l). lia.
Qed.

Lemma int_truediv_ok (a b : Z) : b <> 0 -> int_truediv a b = Ok (IZR a / IZR b)%R.
Proof. intros Hb. unfold int_truediv. now destruct (Z.eqb_spec b 0). Qed.

Lemma ratio_percent (a b : Z) :
  0 <= a <= b -> 0 < b -> (0 <= IZR a / IZR b * 100 <= 100)%R.
Proof.
  intros [Ha Hab] Hb.
  assert (Hb' : (0 < IZR b)%R) by now apply IZR_lt.
  assert (Ha' : (0 <= IZR a)%R) by now apply IZR_le.
  assert (Hab' : (IZR a <= IZR b)%R) by now apply IZR_le.
  assert (Hq : (0 <= IZR a / IZR b <= 1)%R).
  { split.
    - apply Rmult_le_pos; [exact Ha' | left; now apply Rinv_0_lt_compat].
    - apply Rmult_le_reg_r with (IZR b); [exact Hb' |].
      unfold Rdiv. rewrite Rmult_assoc, Rinv_l by lra. lra. }
  lra.
Qed.

(** X18.  [show_batch_summary] raises [ZeroDivisionError] exactly when
    the total it is given is 0: the average score is guarded against an
    empty batch, the two percentages are not.  Called as [batch] calls
    it, with the number of results as total, it therefore raises on an
    empty batch, and on any other batch it shows the counts of weak and
    of breached results with percentages between 0 and 100. *)
Theorem batch_summary_division (results : list analysis) (total : Z)
    (output_file : pystr) :
  (show_batch_summary results total output_file = Raise ZeroDivisionError <-> total = 0) /\
  (total = len results -> total <> 0 ->
   exists panel,
     show_batch_summary results total output_file = Ok panel /\
     panel_weak_count panel = count_if (fun r => score r <? 3) results /\
     panel_common_count panel = count_if is_common results /\
     (0 <= panel_weak_percent panel <= 100)%R /\
     (0 <= panel_common_percent panel <= 100)%R).
Proof.
  assert (Havg : exists avg,
            (if truthy results then int_truediv (sum_of score results) (len results)
             else Ok 0%R) = Ok avg).
  { destruct results as [| r rs]; [now exists 0%R |].
    cbn [truthy]. rewrite int_truediv_ok; [eauto |].
    unfold len. cbn [length]. lia. }
  destruct Havg as [avg Havg].
  unfold show_batch_summary. rewrite Havg. cbn [result_bind].
  split.
  - split.
    + intros Hraise. destruct (Z.eq_dec total 0) as [E | E]; [exact E |].
      rewrite !int_truediv_ok in Hraise by exact E. discriminate.
    + intros ->. reflexivity.
  - intros Htotal Hne. rewrite !int_truediv_ok by exact Hne. cbn [result_bind].
    eexists. split; [reflexivity |].
    cbn [panel_weak_count panel_common_count panel_weak_percent panel_common_percent].
    pose proof (count_if_range (fun r => score r <? 3) results).
    pose proof (count_if_range is_common results).
    assert (0 < total) by (unfold len in *; lia).
    repeat split; try reflexivity; apply ratio_percent; lia.
Qed.

Lemma count_scores_fold (results : list analysis) (k : Z) :
  forall m : gmap Z Z,
    fold_left
      (fun score_counts result =>
         <[score result := default 0 (score_counts !! score result) + 1]> score_counts)
      results m !! k
    = if count_if (fun r => score r =? k) results =? 0 then m !! k
      else Some (default 0 (m !! k) + count_if (fun r => score r =? k) results).
Proof.
  unfold count_if.
  induction results as [| r rs IH]; intros m; [reflexivity |].
  cbn [fold_left List.filter]. rewrite IH.
  destruct (Z.eqb_spec (score r) k) as [E | E].
  - rewrite E, lookup_insert_eq. cbn [default].
    replace (len (r :: List.filter (fun r0 => score r0 =? k) rs))
      with (1 + len (List.filter (fun r0 => score r0 =? k) rs))
      by (unfold len; cbn [length]; lia).
    pose proof (count_if_range (fun r0 => score r0 =? k) rs) as Hrange.
    unfold count_if in Hrange.
    destruct (Z.eqb_spec (len (List.filter (fun r0 => score r0 =? k) rs)) 0) as [E0 | E0];
      destruct (Z.eqb_spec (1 + len (List.filter (fun r0 => score r0 =? k) rs)) 0);
      try lia.
    + rewrite E0. f_equal; lia.
    + unfold Datatypes.id. f_equal; lia.
  - now rewrite lookup_insert_ne.
Qed.

Lemma count_if_split {A : Type} (p q : A -> bool) (l : list A) :
  (forall x, p x && q x = false) ->
  count_if (fun x => p x || q x) l = count_if p l + count_if q l.
Proof.
  intros Hdisj. unfold count_if, len.
  induction l as [| x xs IH]; [reflexivity |].
  cbn [List.filter]. specialize (Hdisj x).
  destruct (p x), (q x); cbn [orb andb] in *; try discriminate;
    cbn [length]; lia.
Qed.

Lemma count_if_le {A : Type} (p q : A -> bool) (l : list A) :
  (forall x, p x = true -> q x = true) -> count_if p l <= count_if q l.
Proof.
  intros Himp. unfold count_if, len.
  induction l as [| x xs IH]; [reflexivity |].
  cbn [List.filter]. specialize (Himp x).
  destruct (p x), (q x); cbn [length]; try lia.
  all: discriminate (Himp eq_refl).
Qed.

(** X19.  After the counting loop of [_calculate_summary] the
    distribution holds, under each score from 0 to 4, the number of
    results with that score, and any other score only once it occurs;
    [weak_passwords], the sum under 0 and 1, never misses a key and is
    the number of results scored 0 or 1: never more than the number of
    results under 3 that [show_batch_summary] calls weak, and less as
    soon as a result is scored 2. *)
Theorem score_distribution (results : list analysis) :
  (forall k,
     count_scores results !! k
     = if (0 <=? k) && (k <=? 4) || (0 <? count_if (fun r => score r =? k) results)
       then Some (count_if (fun r => score r =? k) results)
       else None) /\
  weak_passwords (count_scores results)
    = Some (count_if (fun r => (score r =? 0) || (score r =? 1)) results) /\
  count_if (fun r => (score r =? 0) || (score r =? 1)) results
    <= count_if (fun r => score r <? 3) results /\
  (0 < count_if (fun r => score r =? 2) results ->
   count_if (fun r => (score r =? 0) || (score r =? 1)) results
     < count_if (fun r => score r <? 3) results).
Proof.
  assert (Hlookup : forall k,
            count_scores results !! k
            = if (0 <=? k) && (k <=? 4) || (0 <? count_if (fun r => score r =? k) results)
              then Some (count_if (fun r => score r =? k) results)
              else None).
  { intros k. unfold count_scores. rewrite count_scores_fold.
    pose proof (count_if_range (fun r => score r =? k) results) as Hrange.
    set (n := count_if (fun r => score r =? k) results) in *.
    set (m0 := <[0:=0]> (<[1:=0]> (<[2:=0]> (<[3:=0]> (<[4:=0]> (∅ : gmap Z Z)))))).
    assert (Hm0 : m0 !! k = if (0 <=? k) && (k <=? 4) then Some 0 else None).
    { subst m0.
      destruct (Z.leb_spec 0 k), (Z.leb_spec k 4); cbn [andb];
        try (rewrite !lookup_insert_ne by lia; apply lookup_empty).
      assert (Hk : k = 0 \/ k = 1 \/ k = 2 \/ k = 3 \/ k = 4) by lia.
      destruct Hk as [-> | [-> | [-> | [-> | ->]]]];
        repeat (rewrite lookup_insert_ne by lia); now rewrite lookup_insert_eq. }
    rewrite Hm0.
    destruct (Z.eqb_spec n 0) as [E | E], (Z.ltb_spec 0 n); try lia;
      destruct ((0 <=? k) && (k <=? 4)); cbn [orb default]; try reflexivity.
    - now rewrite E. }
  split; [exact Hlookup |].
  split.
  { unfold weak_passwords. rewrite (Hlookup 0), (Hlookup 1). cbn [Z.leb andb orb].
    f_equal. symmetry. apply count_if_split.
    intros r. destruct (Z.eqb_spec (score r) 0), (Z.eqb_spec (score r) 1);
      cbn; try reflexivity; lia. }
  split.
  { apply count_if_le. intros r Hr. apply orb_true_iff in Hr.
    apply Z.ltb_lt. destruct Hr as [Hr | Hr]; apply Z.eqb_eq in Hr; lia. }
  intros Htwo.
  assert (Hsum : count_if (fun r => (score r =? 0) || (score r =? 1)) results
                 + count_if (fun r => score r =? 2) results
                 <= count_if (fun r => score r <? 3) results).
  { rewrite <- count_if_split.
    - apply count_if_le. intros r Hr. apply Z.ltb_lt.
      repeat (apply orb_true_iff in Hr as [Hr | Hr]); apply Z.eqb_eq in Hr; lia.
    - intros r. destruct (Z.eqb_spec (score r) 0), (Z.eqb_spec (score r) 1),
        (Z.eqb_spec (score r) 2); cbn; try reflexivity; lia. }
  lia.
Qed.

(** ** Pattern records *)

Section PatternInfo.
Context {U : UnicodeData}.

(** X20.  [_extract_pattern_info] returns one record per match of the
    oracle's sequence, in order, and none when the oracle gave no
    sequence.  Every record has a pattern (["unknown"] when the match
    has none) and a token (empty when the match has none); it has a
    dictionary name exactly for a dictionary match and a year exactly
    for a date match, and no other key. *)
Theorem pattern_info_keys (oracle : zxcvbn_result) :
  length (_extract_pattern_info oracle) = length (default [] (zx_sequence oracle)) /\
  forall (i : nat) (m : gmap pystr pyval),
    default [] (zx_sequence oracle) !! i = Some m ->
    exists info,
      _extract_pattern_info oracle !! i = Some info /\
      info !! py "pattern" = Some (get_default m (py "pattern") (VStr (py "unknown"))) /\
      info !! py "token" = Some (get_default m (py "token") (VStr [])) /\
      (info !! py "dictionary_name"
       = if get_is m (py "pattern") (py "dictionary")
         then Some (get_default m (py "dictionary_name") (VStr [])) else None) /\
      (info !! py "year"
       = if get_is m (py "pattern") (py "dictionary") then None
         else if get_is m (py "pattern") (py "date")
         then Some (get_default m (py "year") (VStr [])) else None) /\
      forall key, is_Some (info !! key) ->
        In key [py "pattern"; py "token"; py "dictionary_name"; py "year"].
Proof.
  unfold _extract_pattern_info.
  destruct (zx_sequence oracle) as [sequence |]; cbn [default].
  2: { split; [reflexivity |]. intros i m Hm. now rewrite lookup_nil in Hm. }
  split; [apply length_map |].
  intros i m Hm. change (sequence !! i = Some m) in Hm.
  rewrite list_lookup_fmap, Hm. cbn [fmap option_fmap option_map].
  eexists. split; [reflexivity |].
  destruct (get_is m (py "pattern") (py "dictionary")) eqn:Hdict;
    [| destruct (get_is m (py "pattern") (py "date")) eqn:Hdate];
    (split; [| split; [| split; [| split]]]); try reflexivity;
    intros key [v Hv];
    repeat match type of Hv with
    | <[?k := _]> _ !! key = Some _ =>
        destruct (decide (k = key)) as [<- | ?];
        [cbn; tauto | rewrite lookup_insert_ne in Hv by assumption]
    | {[?k := _]} !! key = Some _ =>
        destruct (decide (k = key)) as [<- | ?];
        [cbn; tauto | rewrite lookup_singleton_ne in Hv by assumption; discriminate]
    end.
Qed.

End PatternInfo.

(** ** The merged file itself *)

Lemma str_le_total (a b : pystr) : str_le a b = true \/ str_le b a = true.
Proof.
  revert b. induction a as [| x a IH]; intros b; [now left |].
  destruct b as [| y b]; [now right |].
  cbn [str_le].
  destruct (Z.ltb_spec x y); [now left |].
  destruct (Z.ltb_spec y x); [now right |].
  assert (x = y) by lia. subst y. rewrite Z.eqb_refl. cbn [orb andb]. apply IH.
Qed.

Lemma str_order_total : Total (fun a b : pystr => Is_true (str_le a b)).
Proof.
  intros a b. destruct (str_le_total a b) as [H | H]; [left | right];
    now apply Is_true_true.
Qed.

Section MergedFile.
Context {U : UnicodeData}.


End MergedFile.

(** ** The further properties on concrete inputs *)

Lemma all_bytes_spec (bs : list Z) : all_bytes bs = true -> Forall is_byte bs.
Proof.
  intros H. apply List.Forall_forall. intros b Hb.
  unfold all_bytes in H. rewrite forallb_forall in H. specialize (H b Hb).
  unfold is_byte. bool_to_prop. lia.
Qed.

Lemma sample_passwords_clean : Forall (@clean_password ascii_only) sample_passwords.
Proof.
  repeat (constructor;
    [split; [first [apply py_well_formed | constructor] |];
     split; [first [apply py_encodable | constructor] |];
     split; [apply single_line_check; vm_compute; reflexivity
            | vm_compute; reflexivity] |]).
  constructor.
Qed.


Lemma sample_dictionary_stops_at_surrogate_witness :
  exists bytes,
    UTF8.encode
      (concat (map (fun l => l ++ [10])
                 ([py "# Sample password dictionary"; py "# One password per line"]
                  ++ [py "abc"]))) = Ok bytes /\
    create_sample_dictionary words_fs sample_txt ([py "abc"] ++ lone_surrogate :: [py "x"])
      = (fs_write words_fs sample_txt bytes, [], Raise UnicodeEncodeError).
Proof.
  apply (sample_dictionary_stops_at_surrogate words_fs sample_txt [py "abc"]
           lone_surrogate [py "x"]).
  - vm_compute. reflexivity.
  - vm_compute. reflexivity.
  - vm_compute. reflexivity.
Defined.

Lemma sample_inputs_mergeable :
  Forall (mergeable sample_fs) [leaked_txt; py "missing.txt"].
Proof.
  constructor; [| constructor; [| constructor]].
  - change (mergeable sample_fs leaked_txt) with (Forall is_byte leaked_bytes).
    apply all_bytes_spec. vm_compute. reflexivity.
  - exact I.
Qed.



Lemma custom_wordlist_words_witness :
  Forall (fun w => truthy w = true /\ startswith_hash w = false
                   /\ @strip ascii_only w = w)
    [py "correct"; py "horse"; py "correct"] /\
  forall w, In w [py "correct"; py "horse"; py "correct"] ->
    snd (is_common_password
           (PasswordChecker_init
              (fst (@load_password_dictionaries ascii_only words_fs [words_txt])))
           w) = Ok true.
Proof.
  destruct (@custom_wordlist_words ascii_only words_fs words_txt
              [py "correct"; py "horse"; py "correct"]) as (_ & Hwords & Hcommon).
  - vm_compute. reflexivity.
  - split; assumption.
Defined.



Lemma analysis_feedback_contents_witness :
  exists self' checker' a,
    @analyze ascii_only oracle_four PasswordAnalyzer_init (py "abc")
      (PasswordChecker_init ∅) = (self', checker', Ok a) /\
    In msg_length_12 (feedback a) /\ In msg_low_entropy (feedback a).
Proof.
  destruct (@calculate_entropy_total ascii_only (py "abc")) as [e He].
  pose proof (@analyze_ok ascii_only oracle_four PasswordAnalyzer_init (py "abc")
                (PasswordChecker_init ∅) _ e eq_refl He) as Hrun.
  eexists _, _, _. split; [exact Hrun |].
  destruct (@analysis_feedback_contents ascii_only oracle_four _ _ _ _ _ _ Hrun)
    as (_ & Hshort & _).
  apply Hshort. apply Z.leb_le. vm_compute. reflexivity.
Defined.

Lemma batch_loop_results_witness :
  exists analyzer' checker' results,
    @analyze_all ascii_only oracle_limited PasswordAnalyzer_init (PasswordChecker_init ∅)
      [py "abc"; py "hunter2"] [] = (analyzer', checker', Ok results) /\
    map fst results = [py "abc"; py "hunter2"] /\
    PasswordAnalyzer_get_stats analyzer'
      = PasswordAnalyzer_get_stats PasswordAnalyzer_init + len [py "abc"; py "hunter2"].
Proof.
  destruct (@batch_loop_results ascii_only oracle_limited PasswordAnalyzer_init
              (PasswordChecker_init ∅) [py "abc"; py "hunter2"])
    as (analyzer' & checker' & results & Hrun & Hfst & Hstats & _).
  - vm_compute. reflexivity.
  - exists analyzer', checker', results. repeat split; assumption.
Defined.

(** A candidate of 73 characters after [abc]: the oracle's [ValueError]
    ends the loop; two analyses and one check were counted. *)
Lemma batch_loop_first_failure_witness :
  @analyze_all ascii_only oracle_limited PasswordAnalyzer_init (PasswordChecker_init ∅)
    ([py "abc"] ++ long_candidate :: [py "x"]) []
  = ({| _analysis_count := _analysis_count PasswordAnalyzer_init + len [py "abc"] + 1 |},
     {| common_password_hashes := common_password_hashes (PasswordChecker_init ∅);
        _check_count := _check_count (PasswordChecker_init ∅) + len [py "abc"] |},
     Raise (ValueError "password too long")).
Proof.
  apply (@batch_loop_first_failure ascii_only oracle_limited PasswordAnalyzer_init
           (PasswordChecker_init ∅) [py "abc"] long_candidate [py "x"]).
  - vm_compute. reflexivity.
  - vm_compute. reflexivity.
Defined.

Lemma batch_file_only_oracle_raises_witness :
  Forall (fun p => truthy p = true /\ @strip ascii_only p = p)
    [py "# my words"; py "correct"; py "horse"; py "correct"] /\
  (forallb (fun p => returned (oracle_limited p))
     [py "# my words"; py "correct"; py "horse"; py "correct"] = true ->
   exists analyzer' checker' results,
     @analyze_all ascii_only oracle_limited PasswordAnalyzer_init (PasswordChecker_init ∅)
       [py "# my words"; py "correct"; py "horse"; py "correct"] []
     = (analyzer', checker', Ok results) /\
     map fst results = [py "# my words"; py "correct"; py "horse"; py "correct"]) /\
  (forall analyzer' checker' e,
     @analyze_all ascii_only oracle_limited PasswordAnalyzer_init (PasswordChecker_init ∅)
       [py "# my words"; py "correct"; py "horse"; py "correct"] []
     = (analyzer', checker', Raise e) ->
     exists pwd,
       In pwd [py "# my words"; py "correct"; py "horse"; py "correct"] /\
       oracle_limited pwd = Raise e).
Proof.
  apply (@batch_file_only_oracle_raises ascii_only oracle_limited words_fs words_txt).
  vm_compute. reflexivity.
Defined.

Lemma generate_alphanumeric_classes_witness :
  exists password s',
    generate_alphanumeric 12 sample_stream = (s', Ok password) /\
    len password = 12 /\
    Forall (fun c => In c (ascii_letters ++ digits)) password /\
    (exists c, In c password /\ In c ascii_letters) /\
    (exists c, In c password /\ In c digits).
Proof.
  apply (generate_alphanumeric_classes 12 sample_stream). lia.
Defined.

Lemma unknown_style_shown_witness :
  @show_generated_passwords ascii_only sample_libm sample_rich fallback_generator 3 52
    (py "fancy") sample_stream
  = (sample_stream, [Heading 3; UnknownStyle (py "fancy")], Ok tt).
Proof.
  destruct (@unknown_style_shown ascii_only sample_libm sample_rich fallback_generator 3 52
              (py "fancy") sample_stream) as (_ & Hshown & _).
  - vm_compute. reflexivity.
  - apply Hshown; [lia | vm_compute; reflexivity].
Defined.

Lemma passphrase_small_wordlist_witness :
  @generate_passphrase ascii_only sample_libm {| eff_words := [] |} 52 (py "-") true true
    sample_stream
    = (sample_stream, Raise (ValueError "math domain error")) /\
  @generate_passphrase ascii_only sample_libm {| eff_words := [py "word"] |} 52 (py "-")
    true true sample_stream
    = (sample_stream, Raise (match float_of_int 52 with
                             | Ok _ => ZeroDivisionError
                             | Raise e => e
                             end)).
Proof.
  apply (@passphrase_small_wordlist ascii_only sample_libm 52 (py "-") true true (py "word")
           false sample_stream).
  vm_compute. reflexivity.
Defined.

Lemma passphrase_shape_witness :
  3 <= 10 /\
  exists words s',
    @draw_words sample_libm fallback_generator 52 sample_stream = (s', Ok words) /\
    len words = 10 /\
    Forall (fun w => In w (eff_words fallback_generator)) words /\
    exists suffix s'',
      @generate_passphrase ascii_only sample_libm fallback_generator 52 (py "-") true true
        sample_stream
      = (s'', Ok (join (py "-") (map ascii_capitalize words) ++ suffix)) /\
      exists n, 10 <= n <= 99 /\ suffix = str_of_int n.
Proof.
  apply (@passphrase_shape ascii_only sample_libm fallback_generator 52 10 (py "-") true true
           sample_stream).
  vm_compute. reflexivity.
Defined.
